(** * data-clarity: spreadsheet-to-table reconstruction

    A shallow embedding of the Python engine's cell classifier, header
    detection, block segmentation ([app/block_detector.py]), row and
    column pre-cleaning ([app/cleaner.py]), Brazilian number conversion
    ([app/metrics_engine.py]), block summary ([app/normalizer.py]) and
    value sanitizing ([app/main.py]), with the properties its
    specification states about them.

    Conventions of the embedding.
    - A Python [str] is a Rocq [string] whose characters are the code
      points 0..255 (Latin-1); this covers the Portuguese text the engine
      is written for.  Character classes ([str.isspace], [\d], [\w],
      [str.lower]) are the Unicode ones restricted to that range.
    - A Python [float] is a primitive binary64 float; [float(s)] and
      [repr] are implemented with correct rounding from exact integer
      arithmetic.
    - A Python exception is [None] in an [option] result; the only one the
      detector can raise is the [OverflowError] of [int(float('inf'))].
    - Row indices are [nat]; [data_end], which starts at [data_start - 1],
      is a [Z]. *)

From Stdlib Require Import ZArith QArith Strings.String Strings.Ascii List Lia Bool.
From Stdlib Require Import Floats.PrimFloat Floats.SpecFloat Floats.FloatOps.
From Stdlib Require Floats.FloatAxioms.
From stdpp Require Import gmap strings list.

Set Warnings "-inexact-float".
Local Open Scope string_scope.
Local Open Scope list_scope.

(** ** Python strings *)

Module Py.

Definition code (c : ascii) : N := N_of_ascii c.

Definition in_range (lo hi : N) (c : ascii) : bool :=
  ((lo <=? code c) && (code c <=? hi))%N.

(** [str.isspace] on one character: TAB..CR, FS..US, SPACE, NEL, NBSP. *)
Definition isspace (c : ascii) : bool :=
  in_range 9 13 c || in_range 28 32 c || (code c =? 133)%N || (code c =? 160)%N.

(** [\d]: the decimal digits. *)
Definition isdigit (c : ascii) : bool := in_range 48 57 c.

Definition isupper_ascii (c : ascii) : bool := in_range 65 90 c.
Definition islower_ascii (c : ascii) : bool := in_range 97 122 c.

(** [\w]: alphanumeric characters and the underscore. *)
Definition isword (c : ascii) : bool :=
  isdigit c || isupper_ascii c || islower_ascii c || (code c =? 95)%N
  || (code c =? 170)%N || (code c =? 178)%N || (code c =? 179)%N
  || (code c =? 181)%N || (code c =? 185)%N || (code c =? 186)%N
  || in_range 188 190 c || in_range 192 214 c || in_range 216 246 c
  || in_range 248 255 c.

(** [str.lower] on one character: A-Z and the accented capitals but the
    multiplication sign move 32 places up. *)
Definition lower_char (c : ascii) : ascii :=
  if isupper_ascii c || in_range 192 214 c || in_range 216 222 c
  then ascii_of_N (code c + 32) else c.

Definition chars (s : string) : list ascii := list_ascii_of_string s.
Definition text (l : list ascii) : string := string_of_list_ascii l.

Fixpoint lstrip_chars (p : ascii -> bool) (l : list ascii) : list ascii :=
  match l with
  | c :: l' => if p c then lstrip_chars p l' else l
  | [] => []
  end.

Definition rstrip_chars (p : ascii -> bool) (l : list ascii) : list ascii :=
  rev (lstrip_chars p (rev l)).

(** [s.strip()] *)
Definition strip (s : string) : string :=
  text (rstrip_chars isspace (lstrip_chars isspace (chars s))).

(** [s.rstrip("%")] *)
Definition rstrip_char (c : ascii) (s : string) : string :=
  text (rstrip_chars (Ascii.eqb c) (chars s)).

(** [s.lower()] *)
Definition lower (s : string) : string := text (map lower_char (chars s)).

Fixpoint is_prefix (p l : list ascii) : bool :=
  match p, l with
  | [], _ => true
  | a :: p', b :: l' => Ascii.eqb a b && is_prefix p' l'
  | _ :: _, [] => false
  end.

(** [s.replace(old, new)] for a non-empty [old]: occurrences are replaced
    from the left, without overlap; [skip] counts the characters of a
    replaced occurrence still to be passed over. *)
Fixpoint replace_from (old new : list ascii) (skip : nat) (l : list ascii)
  : list ascii :=
  match l with
  | [] => []
  | c :: l' =>
      match skip with
      | S k => replace_from old new k l'
      | O =>
          if is_prefix old l
          then new ++ replace_from old new (length old - 1) l'
          else c :: replace_from old new 0 l'
      end
  end.

Definition replace (old new s : string) : string :=
  text (replace_from (chars old) (chars new) 0 (chars s)).

(** [c in s] for a one-character [c]. *)
Definition contains (c : ascii) (s : string) : bool :=
  existsb (Ascii.eqb c) (chars s).

(** [s.rindex(c)], counted from 0; only called when [c in s]. *)
Fixpoint rindex_from (c : ascii) (l : list ascii) (i : nat) (last : nat) : nat :=
  match l with
  | [] => last
  | a :: l' => rindex_from c l' (S i) (if Ascii.eqb c a then i else last)
  end.

Definition rindex (c : ascii) (s : string) : nat := rindex_from c (chars s) 0 0.

(** [sep.join(parts)] *)
Fixpoint join (sep : string) (parts : list string) : string :=
  match parts with
  | [] => ""
  | [p] => p
  | p :: ps => p +:+ sep +:+ join sep ps
  end.

(** [re.sub(cls+, " ", s)]: every maximal run of characters of the class
    becomes one space. *)
Fixpoint collapse_runs (p : ascii -> bool) (inrun : bool) (l : list ascii)
  : list ascii :=
  match l with
  | [] => []
  | c :: l' =>
      if p c
      then (if inrun then collapse_runs p true l'
            else " "%char :: collapse_runs p true l')
      else c :: collapse_runs p false l'
  end.

Definition sub_runs (p : ascii -> bool) (s : string) : string :=
  text (collapse_runs p false (chars s)).

(** [re.sub(cls, "", s)]: the characters of the class are deleted. *)
Definition delete_chars (p : ascii -> bool) (s : string) : string :=
  text (filter (fun c => negb (p c)) (chars s)).

(** Decimal digits of a natural number, most significant first. *)
Fixpoint digits_fuel (fuel : nat) (n : N) (acc : list ascii) : list ascii :=
  match fuel with
  | O => acc
  | S f =>
      let acc' := ascii_of_N (48 + n mod 10) :: acc in
      if (n <? 10)%N then acc' else digits_fuel f (n / 10)%N acc'
  end.

Definition digits_of_N (n : N) : list ascii :=
  digits_fuel (S (N.to_nat (N.log2 n))) n [].

(** [str(z)] for an [int]. *)
Definition str_of_Z (z : Z) : string :=
  match z with
  | Zneg p => text ("-"%char :: digits_of_N (Npos p))
  | _ => text (digits_of_N (Z.to_N z))
  end.

End Py.

(** ** Regular expressions

    The patterns of the engine use character classes, sequence,
    alternation, repetition and the zero-width assertions [^], [$] and
    [\b].  [re.search] and [re.match] are used for their truth value
    only, so a pattern is decided by its derivatives; an assertion is
    evaluated against the character before the position and the input
    left after it. *)

Module Re.

Inductive regex : Type :=
| Fail
| Empty
| Class (p : ascii -> bool)
| Seq (r1 r2 : regex)
| Alt (r1 r2 : regex)
| Star (r : regex)
| Bos            (* ^ *)
| Eos            (* $ *)
| WordBoundary.  (* \b *)

Definition seq (r1 r2 : regex) : regex :=
  match r1, r2 with
  | Fail, _ => Fail
  | _, Fail => Fail
  | Empty, _ => r2
  | _, _ => Seq r1 r2
  end.

Definition alt (r1 r2 : regex) : regex :=
  match r1, r2 with
  | Fail, _ => r2
  | _, Fail => r1
  | _, _ => Alt r1 r2
  end.

Definition plus (r : regex) : regex := Seq r (Star r).
Definition opt (r : regex) : regex := Alt r Empty.

(** [r{n}] and [r{n,m}] with [m = n + extra]. *)
Fixpoint times (n : nat) (r : regex) : regex :=
  match n with
  | O => Empty
  | S k => Seq r (times k r)
  end.

Fixpoint upto (extra : nat) (r : regex) : regex :=
  match extra with
  | O => Empty
  | S k => opt (Seq r (upto k r))
  end.

Definition between (n extra : nat) (r : regex) : regex :=
  Seq (times n r) (upto extra r).

Definition at_least (n : nat) (r : regex) : regex := Seq (times n r) (Star r).

Definition chr (c : ascii) : regex := Class (Ascii.eqb c).

(** A literal character under [re.I]. *)
Definition chr_i (c : ascii) : regex :=
  Class (fun x => Ascii.eqb (Py.lower_char x) (Py.lower_char c)).

Fixpoint lit_chars (mk : ascii -> regex) (l : list ascii) : regex :=
  match l with
  | [] => Empty
  | [c] => mk c
  | c :: l' => Seq (mk c) (lit_chars mk l')
  end.

Definition lit (s : string) : regex := lit_chars chr (Py.chars s).
Definition lit_i (s : string) : regex := lit_chars chr_i (Py.chars s).

Fixpoint alts (rs : list regex) : regex :=
  match rs with
  | [] => Fail
  | [r] => r
  | r :: rs' => Alt r (alts rs')
  end.

Definition digit : regex := Class Py.isdigit.
Definition space : regex := Class Py.isspace.

Definition word_before (prev : option ascii) : bool :=
  match prev with Some c => Py.isword c | None => false end.

Definition word_after (rest : list ascii) : bool :=
  match rest with c :: _ => Py.isword c | [] => false end.

(** Does [r] match the empty string at a position preceded by [prev]
    and followed by [rest]? *)
Fixpoint nullable (prev : option ascii) (rest : list ascii) (r : regex) : bool :=
  match r with
  | Fail => false
  | Empty => true
  | Class _ => false
  | Seq r1 r2 => nullable prev rest r1 && nullable prev rest r2
  | Alt r1 r2 => nullable prev rest r1 || nullable prev rest r2
  | Star _ => true
  | Bos => match prev with None => true | Some _ => false end
  | Eos => match rest with
           | [] => true
           | [c] => Ascii.eqb c "010"%char
           | _ => false
           end
  | WordBoundary => xorb (word_before prev) (word_after rest)
  end.

(** The derivative of [r] by the character [c], read at a position
    preceded by [prev] and followed by [c :: rest]. *)
Fixpoint deriv (prev : option ascii) (c : ascii) (rest : list ascii) (r : regex)
  : regex :=
  match r with
  | Fail | Empty | Bos | Eos | WordBoundary => Fail
  | Class p => if p c then Empty else Fail
  | Seq r1 r2 =>
      alt (seq (deriv prev c rest r1) r2)
          (if nullable prev (c :: rest) r1 then deriv prev c rest r2 else Fail)
  | Alt r1 r2 => alt (deriv prev c rest r1) (deriv prev c rest r2)
  | Star r1 => seq (deriv prev c rest r1) (Star r1)
  end.

(** Some prefix of [l] matches [r]. *)
Fixpoint match_at (prev : option ascii) (l : list ascii) (r : regex) : bool :=
  nullable prev l r ||
  match l with
  | [] => false
  | c :: l' => match_at (Some c) l' (deriv prev c l' r)
  end.

Fixpoint search_from (prev : option ascii) (l : list ascii) (r : regex) : bool :=
  match_at prev l r ||
  match l with
  | [] => false
  | c :: l' => search_from (Some c) l' r
  end.

(** [re.match(r, s) is not None] *)
Definition matches (r : regex) (s : string) : bool :=
  match_at None (Py.chars s) r.

(** [re.search(r, s) is not None] *)
Definition search (r : regex) (s : string) : bool :=
  search_from None (Py.chars s) r.

End Re.

(** ** Python floats *)

Module PyFloat.

Local Open Scope Z_scope.

Definition prec : Z := 53.
Definition emax : Z := 1024.

(** [float(z)] for an [int]. *)
Definition of_Z (z : Z) : float := SF2Prim (binary_normalize prec emax z 0 false).

Definition of_nat (n : nat) : float := of_Z (Z.of_nat n).

(** The double nearest to [n / d] (ties to even), for [0 <= n] and
    [0 < d]: the quotient is taken with 64 bits or more and one more bit
    that records a non-zero remainder, then rounded. *)
Definition of_ratio (n d : Z) : float :=
  let k := Z.log2 d + 65 in
  let q := (n * 2 ^ k) / d in
  let sticky := if (n * 2 ^ k) mod d =? 0 then 0 else 1 in
  SF2Prim (binary_normalize prec emax (2 * q + sticky) (- (k + 1)) false).

(** [m * 10 ^ e] rounded to a double. *)
Definition of_decimal (m e : Z) : float :=
  if 0 <=? e then of_ratio (m * 10 ^ e) 1 else of_ratio m (10 ^ (- e)).

Definition digit_value (c : ascii) : Z := Z.of_N (Py.code c) - 48.

Definition Z_of_digits (ds : list ascii) : Z :=
  fold_left (fun acc c => 10 * acc + digit_value c) ds 0.

(** [digit (["_"] digit)*] after its first digit; the digits read are
    accumulated in reverse. *)
Fixpoint digitpart_tail (l acc : list ascii) : list ascii * list ascii :=
  match l with
  | c :: l' =>
      if Py.isdigit c then digitpart_tail l' (c :: acc)
      else if Ascii.eqb c "_" then
        match l' with
        | d :: l'' =>
            if Py.isdigit d then digitpart_tail l'' (d :: acc) else (acc, l)
        | [] => (acc, l)
        end
      else (acc, l)
  | [] => (acc, l)
  end.

Definition digitpart (l : list ascii) : option (list ascii * list ascii) :=
  match l with
  | c :: l' =>
      if Py.isdigit c
      then let '(acc, rest) := digitpart_tail l' [c] in Some (rev acc, rest)
      else None
  | [] => None
  end.

(** [[digitpart] "." digitpart | digitpart ["."]]: integer digits,
    fraction digits and what is left. *)
Definition number (l : list ascii)
  : option (list ascii * list ascii * list ascii) :=
  match digitpart l with
  | Some (ip, rest) =>
      match rest with
      | c :: rest' =>
          if Ascii.eqb c "." then
            match digitpart rest' with
            | Some (fp, rest'') => Some (ip, fp, rest'')
            | None => Some (ip, [], rest')
            end
          else Some (ip, [], rest)
      | [] => Some (ip, [], [])
      end
  | None =>
      match l with
      | c :: rest' =>
          if Ascii.eqb c "." then
            match digitpart rest' with
            | Some (fp, rest'') => Some ([], fp, rest'')
            | None => None
            end
          else None
      | [] => None
      end
  end.

(** [("e" | "E") [sign] digitpart] up to the end of the input, or
    nothing. *)
Definition exponent (l : list ascii) : option Z :=
  match l with
  | [] => Some 0
  | c :: l' =>
      if Ascii.eqb c "e" || Ascii.eqb c "E" then
        let '(neg, l'') :=
          match l' with
          | s :: t => if Ascii.eqb s "-" then (true, t)
                      else if Ascii.eqb s "+" then (false, t) else (false, l')
          | [] => (false, l')
          end in
        match digitpart l'' with
        | Some (ds, []) => Some (if neg then - Z_of_digits ds else Z_of_digits ds)
        | _ => None
        end
      else None
  end.

(** The value of a decimal literal; literals beyond the range of a
    double are settled without computing the power of ten. *)
Definition decimal_value (ip fp : list ascii) (e : Z) : float :=
  let m := Z_of_digits (ip ++ fp) in
  let e10 := e - Z.of_nat (length fp) in
  let top := e10 + Z.of_nat (length (ip ++ fp)) in
  if m =? 0 then 0%float
  else if 400 + Z.of_nat (length (ip ++ fp)) <? top then infinity
  else if top <? -400 then 0%float
  else of_decimal m e10.

Definition absfloatvalue (l : list ascii) : option float :=
  let name := Py.text (map Py.lower_char l) in
  if String.eqb name "inf" || String.eqb name "infinity" then Some infinity
  else if String.eqb name "nan" then Some nan
  else
    match number l with
    | Some (ip, fp, rest) =>
        match exponent rest with
        | Some e => Some (decimal_value ip fp e)
        | None => None
        end
    | None => None
    end.

(** The white space that [float] takes off the ends of its argument:
    the ASCII white space of C, and the white space beyond ASCII, which
    is first turned into spaces.  The separators 28 to 31, white space
    for [str.strip], are not part of it. *)
Definition float_space (c : ascii) : bool :=
  Py.in_range 9 13 c || (Py.code c =? 32)%N || (Py.code c =? 133)%N
  || (Py.code c =? 160)%N.

(** [float(s)]: [None] stands for [ValueError]. *)
Definition parse (s : string) : option float :=
  match Py.rstrip_chars float_space (Py.lstrip_chars float_space (Py.chars s)) with
  | c :: l =>
      if Ascii.eqb c "-" then option_map PrimFloat.opp (absfloatvalue l)
      else if Ascii.eqb c "+" then absfloatvalue l
      else absfloatvalue (c :: l)
  | [] => None
  end.

(** [int(f)]: truncation toward zero; [None] stands for the
    [OverflowError] or [ValueError] of an infinity or a NaN. *)
Definition to_int (f : float) : option Z :=
  match Prim2SF f with
  | S754_zero _ => Some 0
  | S754_finite s m e =>
      let a := if 0 <=? e then Z.pos m * 2 ^ e else Z.pos m / 2 ^ (- e) in
      Some (if s then - a else a)
  | S754_infinity _ | S754_nan => None
  end.

(** *** [repr(f)]: the shortest decimal that reads back as [f] *)

(** [10 ^ k <= n / d] *)
Definition ge_pow10 (n d k : Z) : bool :=
  if 0 <=? k then d * 10 ^ k <=? n else d <=? n * 10 ^ (- k).

(** The decimal exponent of [n / d]: the [k] with
    [10 ^ k <= n / d < 10 ^ (k + 1)]. *)
Definition decimal_exponent (n d : Z) : Z :=
  let low := ((Z.log2 n - Z.log2 d - 1) * 30103) / 100000 - 1 in
  fold_left (fun k _ => if ge_pow10 n d (k + 1) then k + 1 else k)
            (seq 0 6) low.

(** The [p]-digit decimals around [n / d], which one reads back as [f],
    and of two that do the nearer (the even one on a tie).  The result is
    an integer [c] and an exponent [k], for [c * 10 ^ k]. *)
Definition candidate (f : float) (n d : Z) (p : Z) : option (Z * Z) :=
  let k := decimal_exponent n d - (p - 1) in
  let '(n', d') := if 0 <=? k then (n, d * 10 ^ k) else (n * 10 ^ (- k), d) in
  let lo := n' / d' in
  let r := n' mod d' in
  let reads c := PrimFloat.eqb (of_decimal c k) f in
  if r =? 0 then Some (lo, k)
  else
    match reads lo, reads (lo + 1) with
    | true, true =>
        if 2 * r <? d' then Some (lo, k)
        else if d' <? 2 * r then Some (lo + 1, k)
        else Some (if Z.even lo then lo else lo + 1, k)
    | true, false => Some (lo, k)
    | false, true => Some (lo + 1, k)
    | false, false => None
    end.

Definition shortest (f : float) (n d : Z) : Z * Z :=
  let found :=
    fold_left (fun acc p =>
                 match acc with
                 | Some _ => acc
                 | None => candidate f n d (Z.of_nat p)
                 end) (seq 1 17) None in
  match found with
  | Some ck => ck
  | None => (0, 0)
  end.

Fixpoint drop_zeros (l : list ascii) : list ascii :=
  match l with
  | c :: l' => if Ascii.eqb c "0" then drop_zeros l' else l
  | [] => []
  end.

Definition zeros (n : Z) : list ascii := repeat "0"%char (Z.to_nat n).

(** The digits [ds], read as [0.ds * 10 ^ decpt], in the layout of
    [repr]: exponent notation when [decpt <= -4] or [16 < decpt]. *)
Definition layout (ds : list ascii) (decpt : Z) : list ascii :=
  let nd := Z.of_nat (length ds) in
  if (decpt <=? -4) || (16 <? decpt) then
    let e := decpt - 1 in
    let ed := Py.digits_of_N (Z.to_N (Z.abs e)) in
    let ed := if Z.abs e <? 10 then "0"%char :: ed else ed in
    let mant := match ds with
                | [c] => [c]
                | c :: rest => c :: "."%char :: rest
                | [] => []
                end in
    mant ++ "e"%char :: (if e <? 0 then "-"%char else "+"%char) :: ed
  else if decpt <=? 0 then
    "0"%char :: "."%char :: zeros (- decpt) ++ ds
  else if decpt <? nd then
    firstn (Z.to_nat decpt) ds ++ "."%char :: skipn (Z.to_nat decpt) ds
  else ds ++ zeros (decpt - nd) ++ ["."%char; "0"%char].

Definition repr (f : float) : string :=
  match Prim2SF f with
  | S754_nan => "nan"
  | S754_infinity s => if s then "-inf" else "inf"
  | S754_zero s => if s then "-0.0" else "0.0"
  | S754_finite s m e =>
      let '(n, d) := if 0 <=? e then (Z.pos m * 2 ^ e, 1) else (Z.pos m, 2 ^ (- e)) in
      let '(c, k) := shortest (PrimFloat.abs f) n d in
      let all := Py.digits_of_N (Z.to_N c) in
      let ds := rev (drop_zeros (rev all)) in
      let body := layout ds (Z.of_nat (length all) + k) in
      Py.text (if s then "-"%char :: body else body)
  end.

End PyFloat.

(** ** Cell values *)

(** What a cell of a grid can hold.  [CFloat] carries any double, the
    NaN that pandas uses for a missing value included; [CObj] is any
    other object that is equal to itself (a date, a time), carried with
    the text [str()] gives for it. *)
Inductive cell : Type :=
| CNone
| CBool (b : bool)
| CInt (z : Z)
| CFloat (f : float)
| CStr (s : string)
| CObj (s : string).

Definition is_none (v : cell) : bool :=
  match v with CNone => true | _ => false end.

(** [str(v)] *)
Definition py_str (v : cell) : string :=
  match v with
  | CNone => "None"
  | CBool b => if b then "True" else "False"
  | CInt z => Py.str_of_Z z
  | CFloat f => PyFloat.repr f
  | CStr s => s
  | CObj s => s
  end.

(** [pd.isna(v)] *)
Definition isna (v : cell) : bool :=
  match v with
  | CNone => true
  | CFloat f => negb (PrimFloat.eqb f f)
  | _ => false
  end.

(** * [app/block_detector.py] *)

Module block_detector.

Definition _is_nan (value : cell) : bool :=
  match value with
  | CFloat f => negb (PrimFloat.eqb f f)
  | _ => false
  end.

Definition normalize_cell (value : cell) : cell :=
  match value with
  | CNone => CNone
  | CStr t =>
      let s := Py.strip t in
      if String.eqb s "" then CNone
      else if String.eqb (Py.lower s) "nan" then CNone
      else if String.eqb s "#DIV/0!" then CStr "0"
      else if String.eqb s "-" then CNone
      else CStr s
  | CBool _ | CInt _ => value
  | CFloat _ => if _is_nan value then CNone else value
  | CObj t =>
      let s := Py.strip t in
      if String.eqb s "" then CNone else CStr s
  end.

Definition is_numeric_like (value : cell) : bool :=
  match normalize_cell value with
  | CNone => false
  | CBool _ | CInt _ | CFloat _ => true
  | CStr v =>
      let s := Py.strip v in
      if String.eqb s "" then false
      else
        let s2 := Py.strip (Py.replace "$" "" (Py.replace "R$" "" s)) in
        let s2 := Py.replace "," "." (Py.replace "." "" (Py.replace " " "" s2)) in
        let s2 := Py.rstrip_char "%" s2 in
        match PyFloat.parse s2 with
        | Some _ => true
        | None => false
        end
  | CObj _ => false
  end.

(** [None] when [int(v)] raises, which it does for an infinite float. *)
Definition _numeric_has_decimal (value : cell) : option bool :=
  match normalize_cell value with
  | CNone => Some false
  | CFloat v =>
      z ← PyFloat.to_int v;
      Some (1e-9 <? PrimFloat.abs (v - PyFloat.of_Z z))%float
  | CBool _ | CInt _ => Some false
  | CStr v =>
      Some (if is_numeric_like (CStr v)
            then Py.contains "." v || Py.contains "," v
            else false)
  | CObj _ => Some false
  end.

(** [[A-Za-zÀ-ÿ]] *)
Definition letter (c : ascii) : bool :=
  Py.in_range 65 90 c || Py.in_range 97 122 c || Py.in_range 192 255 c.

Definition is_text_like (value : cell) : bool :=
  match normalize_cell value with
  | CStr v => Re.search (Re.Class letter) v
  | _ => false
  end.

Definition date_patterns : list Re.regex :=
  let d2 := Re.times 2 Re.digit in
  [ (* ^\d{2}/\d{2}/\d{2,4}$ *)
    Re.Seq Re.Bos (Re.Seq d2 (Re.Seq (Re.chr "/") (Re.Seq d2
      (Re.Seq (Re.chr "/") (Re.Seq (Re.between 2 2 Re.digit) Re.Eos)))));
    (* ^\d{4}-\d{2}-\d{2} *)
    Re.Seq Re.Bos (Re.Seq (Re.times 4 Re.digit) (Re.Seq (Re.chr "-")
      (Re.Seq d2 (Re.Seq (Re.chr "-") d2))));
    (* ^\d{2}-\d{2}-\d{2,4}$ *)
    Re.Seq Re.Bos (Re.Seq d2 (Re.Seq (Re.chr "-") (Re.Seq d2
      (Re.Seq (Re.chr "-") (Re.Seq (Re.between 2 2 Re.digit) Re.Eos)))));
    (* ^(jan|fev|mar|abr|mai|jun|jul|ago|set|out|nov|dez) *)
    Re.Seq Re.Bos (Re.alts (map Re.lit
      ["jan"; "fev"; "mar"; "abr"; "mai"; "jun";
       "jul"; "ago"; "set"; "out"; "nov"; "dez"])) ].

Definition is_date_like (value : cell) : bool :=
  match normalize_cell value with
  | CStr v => existsb (fun p => Re.search p (Py.lower v)) date_patterns
  | _ => false
  end.

Definition non_empty (v : cell) : bool := negb (is_none (normalize_cell v)).

Definition non_empty_count (row : list cell) : nat :=
  length (filter (fun v => non_empty v = true) row).

Definition is_row_empty (row : list cell) : bool :=
  (non_empty_count row =? 0)%nat.

(** The patterns of a total line, all applied with [re.I]. *)
Definition total_patterns : list Re.regex :=
  let b := Re.WordBoundary in
  let word s := Re.Seq b (Re.Seq (Re.lit_i s) b) in
  let e_acute := String (ascii_of_N 233) "" in
  [ word "total";
    word "subtotal";
    word "totais";
    (* \btotal\s+geral\b *)
    Re.Seq b (Re.Seq (Re.lit_i "total")
      (Re.Seq (Re.plus Re.space) (Re.Seq (Re.lit_i "geral") b)));
    word "geral";
    word "soma";
    word "sum";
    (* \bgrand\s+total\b *)
    Re.Seq b (Re.Seq (Re.lit_i "grand")
      (Re.Seq (Re.plus Re.space) (Re.Seq (Re.lit_i "total") b)));
    (* \b(total|soma)\s*(:|=) *)
    Re.Seq b (Re.Seq (Re.Alt (Re.lit_i "total") (Re.lit_i "soma"))
      (Re.Seq (Re.Star Re.space) (Re.Alt (Re.chr ":") (Re.chr "="))));
    (* ^total[:\s] *)
    Re.Seq Re.Bos (Re.Seq (Re.lit_i "total")
      (Re.Class (fun c => Ascii.eqb c ":" || Py.isspace c)));
    word ("m" +:+ e_acute +:+ "dia");
    word "average" ].

Definition looks_like_total_row (row : list cell) : bool :=
  let parts :=
    map py_str (filter (fun n => is_none n = false) (map normalize_cell row)) in
  match parts with
  | [] => false
  | _ =>
      let head := Py.lower (Py.join " " parts) in
      if existsb (fun pattern => Re.search pattern head) total_patterns then true
      else
        let non_empty := length parts in
        if (non_empty <? 2)%nat then false
        else
          let numeric :=
            length (filter (fun p => is_numeric_like (CStr p) = true) parts) in
          let text := non_empty - numeric in
          (3 <=? non_empty)%nat
          && (0.7 <=? PyFloat.of_nat numeric / PyFloat.of_nat non_empty)%float
          && (text <=? 1)%nat
  end.

(** [min(a, b)] and [max(a, b)] of two floats, as Python picks them. *)
Definition py_min (a b : float) : float := if (b <? a)%float then b else a.
Definition py_max (a b : float) : float := if (a <? b)%float then b else a.

Record tally : Type := Tally {
  t_text : nat;
  t_numeric : nat;
  t_decimal : nat;
  t_date : nat;
  t_uniq : gset string
}.

(** One turn of the loop of [header_score] over the cells of the row. *)
Definition tally_cell (acc : tally) (v : cell) : option tally :=
  let n := normalize_cell v in
  if is_none n then Some acc
  else
    let s := Py.lower (Py.strip (py_str n)) in
    let uniq := {[ s ]} ∪ t_uniq acc in
    let date := if is_date_like n then S (t_date acc) else t_date acc in
    let text :=
      if is_date_like n then t_text acc
      else if is_text_like n then S (t_text acc) else t_text acc in
    let numeric := if is_numeric_like n then S (t_numeric acc) else t_numeric acc in
    dec ← _numeric_has_decimal n;
    Some (Tally text numeric (if dec : bool then S (t_decimal acc) else t_decimal acc)
                date uniq).

Fixpoint tally_row (acc : tally) (row : list cell) : option tally :=
  match row with
  | [] => Some acc
  | v :: row' => acc' ← tally_cell acc v; tally_row acc' row'
  end.

(** [None] when a cell of the row makes [_numeric_has_decimal] raise. *)
Definition header_score (row : list cell) : option float :=
  let non_empty := non_empty_count row in
  if (non_empty <? 2)%nat then Some 0%float
  else
    t ← tally_row (Tally 0 0 0 0 ∅) row;
    let rate (k : nat) := (PyFloat.of_nat k / PyFloat.of_nat non_empty)%float in
    let unique_rate := rate (size (t_uniq t)) in
    let text_rate := rate (t_text t) in
    let numeric_rate := rate (t_numeric t) in
    let decimal_rate := rate (t_decimal t) in
    let date_rate := rate (t_date t) in
    let score :=
      (text_rate * 1.8 + unique_rate * 0.7 - numeric_rate * 0.8
       - decimal_rate * 2.5)%float in
    let score := if (0.3 <? date_rate)%float then (score + 0.2)%float else score in
    let score := if (0.2 <? decimal_rate)%float then (score - 0.5)%float else score in
    let score := if (0.7 <? numeric_rate)%float then (score - 0.5)%float else score in
    Some (py_max 0 (py_min 2 score)).

(** *** Header names *)

(** One turn of the loop of [_propagate_merged_header]: [result] is the
    list being rewritten in place, [last_value] the last raw value whose
    cell was not empty. *)
Definition propagate_step (st : list cell * option cell) (i : nat)
  : list cell * option cell :=
  let '(result, last_value) := st in
  match result !! i with
  | Some v =>
      if is_none (normalize_cell v)
      then match last_value with
           | Some lv => (<[i := lv]> result, last_value)
           | None => st
           end
      else (result, Some v)
  | None => st
  end.

Definition _propagate_merged_header (row : list cell) : list cell :=
  fst (fold_left propagate_step (seq 0 (length row)) (row, None)).

(** [grid[r] if r < len(grid) else []] *)
Definition row_at (grid : list (list cell)) (r : nat) : list cell :=
  default [] (grid !! r).

(** [row[c] if c < len(row) else None] *)
Definition cell_at (row : list cell) (c : nat) : cell :=
  default CNone (row !! c).

(** [list(dict.fromkeys(parts))]: duplicates dropped, first-seen order. *)
Fixpoint dict_fromkeys (parts : list string) : list string :=
  match parts with
  | [] => []
  | p :: parts' => p :: filter (fun q => q ≠ p) (dict_fromkeys parts')
  end.

(** The texts that the cells [a], [b], [d] of one column contribute. *)
Definition column_parts (cells : list cell) : list string :=
  filter (fun s => s ≠ "")
    (map (fun x => Py.strip (py_str x))
       (filter (fun x => is_none x = false) cells)).

Definition column_name (row0 row1 row2 : list cell) (c : nat) : string :=
  let a := normalize_cell (cell_at row0 c) in
  let b := normalize_cell (cell_at row1 c) in
  let d := normalize_cell (cell_at row2 c) in
  Py.join " " (dict_fromkeys (column_parts [a; b; d])).

(** The first loop of [build_header]: one name per column. *)
Definition header_names (grid : list (list cell)) (header_row_index span : nat)
  : list string :=
  let row0 := _propagate_merged_header (row_at grid header_row_index) in
  let row1 := _propagate_merged_header
                (if (2 <=? span)%nat then row_at grid (header_row_index + 1) else []) in
  let row2 := _propagate_merged_header
                (if (3 <=? span)%nat then row_at grid (header_row_index + 2) else []) in
  let max_cols := Nat.max (Nat.max (length row0) (length row1)) (length row2) in
  map (column_name row0 row1 row2) (seq 0 max_cols).

Definition nl_cr_tab (c : ascii) : bool :=
  Ascii.eqb c "010" || Ascii.eqb c "013" || Ascii.eqb c "009".

(** The name a header gets before it is compared with the others. *)
Definition base_name (idx : nat) (h : string) : string :=
  let base :=
    if String.eqb (Py.strip h) "" then "col_" +:+ Py.str_of_Z (Z.of_nat (idx + 1))
    else Py.strip h in
  let base := Py.sub_runs nl_cr_tab base in
  Py.strip (Py.sub_runs Py.isspace base).

(** One turn of the second loop of [build_header]. *)
Definition unique_step (st : gmap string nat * list string) (ih : nat * string)
  : gmap string nat * list string :=
  let '(seen, out) := st in
  let base := base_name ih.1 ih.2 in
  let key := Py.lower base in
  let n := default 0 (seen !! key) + 1 in
  (<[key := n]> seen,
   (out ++ [if (n =? 1)%nat then base
            else base +:+ "_" +:+ Py.str_of_Z (Z.of_nat n)])%list).

Definition unique_names (headers : list string) : list string :=
  snd (fold_left unique_step (zip (seq 0 (length headers)) headers) (∅, [])).

Definition build_header (grid : list (list cell)) (header_row_index span : nat)
  : list string :=
  unique_names (header_names grid header_row_index span).

(** *** Header search *)

Record header : Type := Header { rowIndex : nat; span : nat }.

Record candidate : Type := Candidate {
  c_rowIndex : nat;
  c_span : nat;
  c_score : float
}.

(** One turn of the loop of [find_next_header], at row [r]. *)
Definition header_step (grid : list (list cell)) (best : option candidate) (r : nat)
  : option (option candidate) :=
  let row := row_at grid r in
  if is_row_empty row then Some best
  else
    s0 ← header_score row;
    if (s0 <=? 0.40)%float then Some best
    else
      s1 ← header_score (row_at grid (r + 1));
      let span := if (0.45 <? s1)%float then 2 else 1 in
      s2 ← header_score (row_at grid (r + 2));
      let span := if (span =? 2)%nat && (0.45 <? s2)%float then 3 else span in
      let score :=
        (s0 + (if (2 <=? span)%nat then s1 * 0.3 else 0)
            + (if (span =? 3)%nat then s2 * 0.15 else 0))%float in
      match best with
      | Some b =>
          if (c_score b <? score)%float then Some (Some (Candidate r span score))
          else Some best
      | None => Some (Some (Candidate r span score))
      end.

Fixpoint header_scan (grid : list (list cell)) (best : option candidate)
  (rs : list nat) : option (option candidate) :=
  match rs with
  | [] => Some best
  | r :: rs' => best' ← header_step grid best r; header_scan grid best' rs'
  end.

(** The outer [option] is the exception, the inner one Python's
    [None] for no header found. *)
Definition find_next_header (grid : list (list cell)) (start_row : nat)
  : option (option header) :=
  let scan_limit := Nat.min (length grid) (start_row + 300) in
  best ← header_scan grid None (seq start_row (scan_limit - start_row));
  Some (match best with
        | Some b => Some (Header (c_rowIndex b) (c_span b))
        | None => None
        end).

(** The patterns of a section title, applied with [re.I].  The second
    one allows a hyphen or an en dash after the capitals; the en dash
    (code point 8211) is no character of the strings of this embedding,
    on which the class is the hyphen alone. *)
Definition title_patterns : list Re.regex :=
  let o_acute := String (ascii_of_N 243) "" in
  let c_cedil := String (ascii_of_N 231) "" in
  let a_tilde := String (ascii_of_N 227) "" in
  [ (* ^(módulo|modulo|seção|secao|parte|bloco)\s*\d *)
    Re.Seq Re.Bos (Re.Seq
      (Re.alts (map Re.lit_i
         ["m" +:+ o_acute +:+ "dulo"; "modulo";
          "se" +:+ c_cedil +:+ a_tilde +:+ "o"; "secao"; "parte"; "bloco"]))
      (Re.Seq (Re.Star Re.space) Re.digit));
    (* ^[A-Z]{2,}\s*[-–]\s* *)
    Re.Seq Re.Bos (Re.Seq
      (Re.at_least 2 (Re.Class (fun c => Py.isupper_ascii c || Py.islower_ascii c)))
      (Re.Seq (Re.Star Re.space) (Re.Seq (Re.chr "-") (Re.Star Re.space)))) ].

Definition looks_like_section_title_row (row : list cell) : bool :=
  let non_empty := filter (fun n => is_none n = false) (map normalize_cell row) in
  if (length non_empty =? 0)%nat then false
  else if (2 <? length non_empty)%nat then false
  else
    let first := normalize_cell (cell_at row 0) in
    if negb (is_text_like first) then false
    else
      let first_str := Py.lower (py_str first) in
      if existsb (fun p => Re.search p first_str) title_patterns then true
      else
        let rest := tail row in
        let rest_non_empty := non_empty_count rest in
        (rest_non_empty =? 0)%nat.

(** *** Block segmentation *)

(** How a loop of the detector can end: with a value, with the
    exception raised inside it, or (in the model only) because the
    iterations it was allowed are used up. *)
Inductive outcome (A : Type) : Type :=
| Finished (a : A)
| Raised
| OutOfFuel.

Arguments Finished {A} a.
Arguments Raised {A}.
Arguments OutOfFuel {A}.

Fixpoint skip_empty_rows (rows : list (list cell)) (i : nat) : nat :=
  match rows with
  | row :: rows' => if is_row_empty row then skip_empty_rows rows' (S i) else i
  | [] => i
  end.

(** [while i < len(grid) and is_row_empty(grid[i]): i += 1] *)
Definition skip_empty (grid : list (list cell)) (i : nat) : nat :=
  skip_empty_rows (drop i grid) i.

(** The variables of the data-extent loop. *)
Record scan_state : Type := Scan {
  s_r : nat;
  s_data_end : Z;
  s_blank_skips : nat
}.

Inductive scan_next : Type :=
| Continue (st : scan_state)
| Break (st : scan_state).

(** The score test on the row after a blank run; no row, no header. *)
Definition next_looks_header (grid : list (list cell)) (k : nat) : option bool :=
  if (k <? length grid)%nat
  then s ← header_score (row_at grid k); Some (0.65 <? s)%float
  else Some false.

(** The body of [while r < len(grid)], entered with [r < len(grid)]. *)
Definition scan_step (grid : list (list cell)) (data_start : nat) (st : scan_state)
  : option scan_next :=
  let r := s_r st in
  let row := row_at grid r in
  if looks_like_section_title_row row && (data_start + 1 <? r)%nat then
    Some (Break (Scan r (Z.of_nat r - 1) (s_blank_skips st)))
  else if is_row_empty row then
    let k := skip_empty grid r in
    looks ← next_looks_header grid k;
    let blank_span := k - r in
    if negb looks && (blank_span <=? 3)%nat && (s_blank_skips st <? 3)%nat
    then Some (Continue (Scan k (s_data_end st) (S (s_blank_skips st))))
    else Some (Break (Scan k (Z.of_nat r - 1) (s_blank_skips st)))
  else
    potential_header ← header_score row;
    if (1.0 <? potential_header)%float && (data_start + 2 <? r)%nat
    then Some (Break (Scan r (Z.of_nat r - 1) (s_blank_skips st)))
    else Some (Continue (Scan (S r) (Z.of_nat r) (s_blank_skips st))).

Fixpoint scan (fuel : nat) (grid : list (list cell)) (data_start : nat)
  (st : scan_state) : outcome scan_state :=
  if (length grid <=? s_r st)%nat then Finished st
  else
    match fuel with
    | O => OutOfFuel
    | S fuel' =>
        match scan_step grid data_start st with
        | None => Raised
        | Some (Break st') => Finished st'
        | Some (Continue st') => scan fuel' grid data_start st'
        end
    end.

(** [[normalize_cell(row[c] if c < len(row) else None)
      for c in range(len(columns))]] *)
Definition clean_row (columns : list string) (row : list cell) : list cell :=
  map (fun c => normalize_cell (cell_at row c)) (seq 0 (length columns)).

(** One turn of the loop over the rows of the data region. *)
Definition extract_step (columns : list string) (acc : list (list cell) * nat)
  (row : list cell) : list (list cell) * nat :=
  if is_row_empty row then acc
  else if looks_like_total_row row then (acc.1, S acc.2)
  else
    let cleaned := clean_row columns row in
    if (0 <? non_empty_count cleaned)%nat then ((acc.1 ++ [cleaned])%list, acc.2)
    else acc.

(** The rows of the region [data_start .. data_end]. *)
Definition region (grid : list (list cell)) (data_start : nat) (data_end : Z)
  : list (list cell) :=
  map (row_at grid)
      (seq data_start (Z.to_nat (data_end + 1 - Z.of_nat data_start))).

Definition extract_rows (grid : list (list cell)) (columns : list string)
  (data_start : nat) (data_end : Z) : list (list cell) * nat :=
  if (Z.of_nat data_start <=? data_end)%Z
  then fold_left (extract_step columns) (region grid data_start data_end) ([], 0)
  else ([], 0).

Record block : Type := Block {
  header_row : nat;
  header_span : nat;
  data_start : nat;
  data_end : Z;
  columns : list string;
  rows : list (list cell);
  removed_totals : nat
}.

(** What one turn of the outer loop does: leave the loop, or go on at a
    new cursor, with or without a block to append. *)
Inductive iteration : Type :=
| Stop
| Next (emitted : option block) (cursor : nat).

Definition detect_iteration (grid : list (list cell)) (cursor : nat)
  : outcome iteration :=
  let cursor := skip_empty grid cursor in
  if (length grid <=? cursor)%nat then Finished Stop
  else
    match find_next_header grid cursor with
    | None => Raised
    | Some None => Finished (Next None (S cursor))
    | Some (Some header) =>
        let header_row_index := rowIndex header in
        let header_span := span header in
        let columns := build_header grid header_row_index header_span in
        let data_start := skip_empty grid (header_row_index + header_span) in
        match scan (length grid) grid data_start
                (Scan data_start (Z.of_nat data_start - 1) 0) with
        | Finished st =>
            let data_end := s_data_end st in
            let '(rows, removed_totals) :=
              extract_rows grid columns data_start data_end in
            let emitted :=
              match rows with
              | [] => None
              | _ => Some (Block header_row_index header_span data_start data_end
                             columns rows removed_totals)
              end in
            Finished (Next emitted
                        (Z.to_nat (Z.max (Z.of_nat (s_r st)) (data_end + 1))))
        | Raised => Raised
        | OutOfFuel => OutOfFuel
        end
    end.

(** [while cursor < len(grid)] *)
Fixpoint detect_loop (fuel : nat) (grid : list (list cell)) (cursor : nat)
  (blocks : list block) : outcome (list block) :=
  if (length grid <=? cursor)%nat then Finished blocks
  else
    match fuel with
    | O => OutOfFuel
    | S fuel' =>
        match detect_iteration grid cursor with
        | Finished Stop => Finished blocks
        | Finished (Next emitted cursor') =>
            detect_loop fuel' grid cursor' (blocks ++ option_list emitted)
        | Raised => Raised
        | OutOfFuel => OutOfFuel
        end
    end.

(** The blocks of one sheet, given as its grid of rows; one turn of the
    outer loop is allowed per row. *)
Definition detect_sheet (grid : list (list cell)) : outcome (list block) :=
  detect_loop (length grid) grid 0 [].

(** [detect_blocks(sheets)], the sheets in the order of the dict. *)
Fixpoint detect_blocks (sheets : list (string * list (list cell)))
  : outcome (list (string * list block)) :=
  match sheets with
  | [] => Finished []
  | (sheet_name, grid) :: sheets' =>
      match detect_sheet grid with
      | Finished blocks =>
          match detect_blocks sheets' with
          | Finished result => Finished ((sheet_name, blocks) :: result)
          | Raised => Raised
          | OutOfFuel => OutOfFuel
          end
      | Raised => Raised
      | OutOfFuel => OutOfFuel
      end
  end.

End block_detector.

(** * [app/cleaner.py] *)

Module cleaner.

(** A DataFrame: the length of its index and its columns in order, each
    a label with its values.  The labels of a frame read with
    [header=None] are the column numbers; [df[col]] is a column only
    when the labels are distinct. *)
Record frame : Type := Frame {
  nrows : nat;
  cols : list (nat * list cell)
}.

(** [df.empty]: one of the axes has length 0. *)
Definition empty (df : frame) : bool :=
  (nrows df =? 0)%nat || (length (cols df) =? 0)%nat.

(** [df[col]] *)
Definition column (df : frame) (col : nat) : list cell :=
  match find (fun lc => (lc.1 =? col)%nat) (cols df) with
  | Some lc => lc.2
  | None => []
  end.

(** [df[col].notna().sum()] *)
Definition notna_count (values : list cell) : nat :=
  length (filter (fun v => isna v = false) values).

(** [non_null_pct > 0.02], the ratio taken exactly.  The double that
    the code computes decides the same way for every frame of fewer
    than 2^53 rows. *)
Definition dense (df : frame) (col : nat) : bool :=
  let non_null_pct :=
    (inject_Z (Z.of_nat (notna_count (column df col)))
     / inject_Z (Z.of_nat (nrows df)))%Q in
  negb (Qle_bool non_null_pct 0.02%Q).

(** [df[cols_to_keep]] *)
Definition select (df : frame) (labels : list nat) : frame :=
  Frame (nrows df) (map (fun col => (col, column df col)) labels).

Definition remove_empty_columns (df : frame) : frame :=
  if empty df then df
  else
    let cols_to_keep := filter (fun col => dense df col = true) (map fst (cols df)) in
    match cols_to_keep with
    | [] => df
    | _ => select df cols_to_keep
    end.

(** [df.iloc[i]]: the values of row [i], in the order of the columns. *)
Definition row (df : frame) (i : nat) : list cell :=
  map (fun lc => default CNone (lc.2 !! i)) (cols df).

(** [row.notna().any()] *)
Definition has_data (r : list cell) : bool :=
  existsb (fun v => negb (isna v)) r.

(** [df.iloc[idx:].reset_index(drop=True)] *)
Definition rows_from (df : frame) (idx : nat) : frame :=
  Frame (nrows df - idx) (map (fun lc => (lc.1, drop idx lc.2)) (cols df)).

(** [df.iloc[:cutoff].reset_index(drop=True)] *)
Definition rows_to (df : frame) (cutoff : nat) : frame :=
  Frame (Nat.min cutoff (nrows df)) (map (fun lc => (lc.1, take cutoff lc.2)) (cols df)).

(** The loop returns at the first row with a value; [pd.DataFrame()]
    is the frame without rows and columns. *)
Definition remove_top_empty_rows (df : frame) : frame :=
  if empty df then df
  else
    match find (fun idx => has_data (row df idx)) (seq 0 (nrows df)) with
    | Some idx => rows_from df idx
    | None => Frame 0 []
    end.

Definition footer_patterns : list string :=
  let c_cedil := String (ascii_of_N 231) "" in
  let a_tilde := String (ascii_of_N 227) "" in
  [ "obs:"; "obs."; "observa" +:+ c_cedil +:+ a_tilde +:+ "o:"; "observacao:";
    "nota:"; "notas:"; "aten" +:+ c_cedil +:+ a_tilde +:+ "o:"; "atencao:";
    "importante:"; "legenda:"; "*"; "fonte:";
    "elaborado"; "gerado"; "atualizado" ].

(** The first value of the row that is not null and not blank, trimmed
    and in lower case. *)
Definition first_value (r : list cell) : option string :=
  match find (fun v => negb (isna v)
                       && negb (String.eqb (Py.strip (py_str v)) "")) r with
  | Some val => Some (Py.lower (Py.strip (py_str val)))
  | None => None
  end.

(** [first_value.startswith(pattern)] for one of the patterns. *)
Definition is_footer (r : list cell) : bool :=
  match first_value r with
  | Some fv =>
      if String.eqb fv "" then false
      else existsb (fun pattern => Py.is_prefix (Py.chars pattern) (Py.chars fv))
                   footer_patterns
  | None => false
  end.

(** The loop from the last row upward: a footer row moves the cutoff to
    it, any other row ends the loop. *)
Fixpoint footer_scan (df : frame) (indices : list nat) (cutoff_idx : nat) : nat :=
  match indices with
  | [] => cutoff_idx
  | i :: indices' =>
      if is_footer (row df i) then footer_scan df indices' i else cutoff_idx
  end.

(** [range(len(df) - 1, max(0, len(df) - check_range - 1), -1)] *)
Definition footer_range (n : nat) : list nat :=
  let check_range := Nat.min 15 n in
  let stop := n - check_range - 1 in
  rev (seq (S stop) (n - 1 - stop)).

Definition remove_footer_rows (df : frame) : frame :=
  if empty df || (nrows df <? 3)%nat then df
  else rows_to df (footer_scan df (footer_range (nrows df)) (nrows df)).

End cleaner.

(** * [app/metrics_engine.py] *)

Module metrics_engine.

(** [[R$\s]] *)
Definition currency_or_space (c : ascii) : bool :=
  Ascii.eqb c "R" || Ascii.eqb c "$" || Py.isspace c.

(** [re.sub(r"[R$\s]", "", str(val).strip())] *)
Definition bare_text (val : cell) : string :=
  Py.delete_chars currency_or_space (Py.strip (py_str val)).

Definition numeric_shapes : list Re.regex :=
  let minus := Re.opt (Re.chr "-") in
  let digit_or c := Re.Class (fun x => Py.isdigit x || Ascii.eqb x c) in
  [ (* ^-?[\d.]+,\d{1,2}$ *)
    Re.Seq Re.Bos (Re.Seq minus (Re.Seq (Re.plus (digit_or "."%char)) (Re.Seq (Re.chr ",")
      (Re.Seq (Re.between 1 1 Re.digit) Re.Eos))));
    (* ^-?[\d,]+\.\d{1,2}$ *)
    Re.Seq Re.Bos (Re.Seq minus (Re.Seq (Re.plus (digit_or ","%char)) (Re.Seq (Re.chr ".")
      (Re.Seq (Re.between 1 1 Re.digit) Re.Eos))));
    (* ^-?\d+([.,]\d+)?$ *)
    Re.Seq Re.Bos (Re.Seq minus (Re.Seq (Re.plus Re.digit)
      (Re.Seq (Re.opt (Re.Seq (Re.Alt (Re.chr ".") (Re.chr ",")) (Re.plus Re.digit)))
         Re.Eos))) ].

(** The test of the counting loop on one value of the sample. *)
Definition looks_numeric (val : cell) : bool :=
  existsb (fun p => Re.matches p (bare_text val)) numeric_shapes.

(** [series.dropna().head(20)] *)
Definition sample (series : list cell) : list cell :=
  take 20 (filter (fun v => isna v = false) series).

(** The rewriting of the separators before [float(s)]. *)
Definition decimal_text (s : string) : string :=
  if Py.contains "," s && Py.contains "." s then
    if (Py.rindex "." s <? Py.rindex "," s)%nat
    then Py.replace "," "." (Py.replace "." "" s)
    else Py.replace "," "" s
  else if Py.contains "," s then Py.replace "," "." s
  else s.

Definition convert_value (val : cell) : float :=
  if isna val then nan
  else
    match PyFloat.parse (decimal_text (bare_text val)) with
    | Some f => f
    | None => nan
    end.

(** [None] is the Python [None] returned for a column that does not
    look numeric. *)
Definition convert_brazilian_numbers (series : list cell) : option (list float) :=
  let total := length (sample series) in
  let numeric_count := length (filter (fun v => looks_numeric v = true) (sample series)) in
  if (total =? 0)%nat
     || (PyFloat.of_nat numeric_count / PyFloat.of_nat total <? 0.5)%float
  then None
  else Some (map convert_value series).

(** The use of the conversion on a column of [normalize_dataframe]:
    [converted = convert_brazilian_numbers(df[col]);
     if converted is not None: df[col] = converted]. *)
Definition convert_column (series : list cell) : list cell :=
  match convert_brazilian_numbers series with
  | Some converted => map CFloat converted
  | None => series
  end.

End metrics_engine.

(** * [app/normalizer.py] *)

Module normalizer.

Import block_detector.

Record dataset : Type := Dataset {
  id : string;
  block_index : nat;
  n_rows : nat;
  ds_columns : list string;
  ds_header_span : nat;
  ds_removed_totals : nat
}.

Record sheet_entry : Type := SheetEntry {
  name : string;
  datasets : list dataset
}.

(** One turn of the loop over [enumerate(blocks)]: a block without
    rows is passed over. *)
Definition dataset_of (sheet : string) (i : nat) (b : block) : option dataset :=
  match rows b with
  | [] => None
  | _ =>
      Some (Dataset (sheet +:+ "_block_" +:+ Py.str_of_Z (Z.of_nat (i + 1)))
              i (length (rows b)) (columns b) (header_span b) (removed_totals b))
  end.

Definition sheet_datasets (sheet : string) (blocks : list block) : list dataset :=
  omap (fun ib => dataset_of sheet ib.1 ib.2) (zip (seq 0 (length blocks)) blocks).

(** A sheet without datasets is left out of the result. *)
Definition normalize_blocks (detected_blocks : list (string * list block))
  : list sheet_entry :=
  omap (fun sb =>
          match sheet_datasets sb.1 sb.2 with
          | [] => None
          | ds => Some (SheetEntry sb.1 ds)
          end) detected_blocks.

End normalizer.

(** * [app/main.py]: the helpers of the endpoints *)

Module main.

Definition _sanitize (value : cell) : cell :=
  match value with
  | CNone => CNone
  | CFloat f => if negb (PrimFloat.eqb f f) then CNone else value
  | CStr t =>
      let s := Py.strip t in
      if String.eqb (Py.lower s) "nan" then CNone
      else if String.eqb s "#DIV/0!" then CInt 0
      else if String.eqb s "-" then CNone
      else CStr s
  | _ => value
  end.

(** The loop of [_unique_columns] is the second loop of [build_header],
    run on [str(c)]. *)
Definition _unique_columns (cols : list cell) : list string :=
  snd (fold_left (fun st ic => block_detector.unique_step st (ic.1, py_str ic.2))
         (zip (seq 0 (length cols)) cols) (∅, [])).

End main.

(** * The vocabulary of the statements *)

Import block_detector.

(** [isinstance(v, (int, float))] *)
Definition is_number (v : cell) : bool :=
  match v with
  | CBool _ | CInt _ | CFloat _ => true
  | _ => false
  end.

(** The texts to which [normalize_cell] gives a meaning of their own. *)
Definition token (s : string) : bool :=
  String.eqb (Py.lower s) "nan" || String.eqb s "#DIV/0!" || String.eqb s "-".

(** A raw cell value: null, a number, a string, or an object (a date, a
    time) whose text is not one of the tokens. *)
Definition raw_cell (v : cell) : bool :=
  match v with
  | CObj t => negb (token (Py.strip t))
  | _ => true
  end.

(** C4, as it is written: the division-error token becomes a number. *)
Definition div_error_becomes_number : Prop :=
  exists n, is_number n = true /\ normalize_cell (CStr "#DIV/0!") = n.

(** Merged-cell propagation in the words of the specification: along
    the row, a cell that is not empty keeps its value, which then fills
    the empty cells that follow it up to the next cell that is not
    empty; [last] is the value being carried. *)
Fixpoint fill_forward (last : option cell) (row : list cell) : list cell :=
  match row with
  | [] => []
  | v :: row' =>
      if non_empty v then v :: fill_forward (Some v) row'
      else default v last :: fill_forward last row'
  end.

(** The text that a cell gives to the name of its column: the trimmed
    text of its normalized value, when it has one. *)
Definition cell_text (v : cell) : option string :=
  match normalize_cell v with
  | CNone => None
  | n =>
      if String.eqb (Py.strip (py_str n)) "" then None
      else Some (Py.strip (py_str n))
  end.

(** The texts of a list that were not met before, in their order. *)
Fixpoint distinct_texts (met texts : list string) : list string :=
  match texts with
  | [] => []
  | t :: rest =>
      if existsb (String.eqb t) met then distinct_texts met rest
      else t :: distinct_texts (t :: met) rest
  end.

(** Texts put one after the other with one space between two of them. *)
Definition with_spaces (texts : list string) : string :=
  match texts with
  | [] => ""
  | t :: rest => fold_left (fun acc x => acc +:+ " " +:+ x) rest t
  end.

(** The header names in the words of the specification: the [span] rows
    from [i] on are filled forward, and the name of a column joins with
    a space the distinct texts that the rows have in it. *)
Definition spec_header_names (grid : list (list cell)) (i span : nat)
  : list string :=
  let hrows := map (fun r => fill_forward None (row_at grid r)) (seq i span) in
  let width := foldr Nat.max 0 (map length hrows) in
  map (fun c =>
         with_spaces
           (distinct_texts [] (omap (fun row => cell_text (cell_at row c)) hrows)))
      (seq 0 width).

(** The grid of scenario B: a merged label over three columns. *)
Definition c_cedilla : string := String (ascii_of_N 231) "".

Definition merged_header_grid : list (list cell) :=
  [ [CStr "Vendas"; CNone; CNone];
    [CStr "Qtd"; CStr ("Pre" +:+ c_cedilla +:+ "o"); CStr "Total"] ].

(** A header of three rows: a column that repeats the merged label of
    the first row, one that gets the same unit from two rows, and one
    with three different values. *)
Definition stacked_header_grid : list (list cell) :=
  [ [CStr "Vendas"; CNone; CStr "Custos"];
    [CStr "Vendas"; CStr "Qtd"; CStr "Ano"];
    [CStr "Total"; CStr " Qtd "; CInt 2024] ].

(** Rows of a small sales sheet: a header, two rows of data whose
    numbers keep them from scoring as headers, an empty row, a total. *)
Definition sales_header : list cell := [CStr "Produto"; CStr "Qtd"; CStr "Valor"].
Definition sale_1 : list cell := [CStr "Caneta"; CInt 10; CFloat 150.5].
Definition sale_2 : list cell := [CStr "Lapis"; CInt 20; CFloat 299.5].
Definition blank_row : list cell := [CNone; CNone; CNone].
Definition total_row : list cell := [CStr "Total"; CStr ""; CInt 450].

(** Scenario D: two empty rows inside the data. *)
Definition gap_grid : list (list cell) :=
  [sales_header; sale_1; blank_row; blank_row; sale_2].

(** Four separate empty rows inside the data. *)
Definition four_gaps_grid : list (list cell) :=
  [sales_header; sale_1; blank_row; sale_2; blank_row; sale_1; blank_row;
   sale_2; blank_row; sale_1].

(** A second header after two rows of data, and after three. *)
Definition header_after_two_grid : list (list cell) :=
  [sales_header; sale_1; sale_2; sales_header; sale_1].

Definition header_after_three_grid : list (list cell) :=
  [sales_header; sale_1; sale_2; sale_1; sales_header; sale_1].

(** Scenario C: a total line among the sales. *)
Definition sales_grid : list (list cell) :=
  [sales_header; sale_1; sale_2; total_row].

(** The state in which [detect_blocks] enters the data-extent loop of a
    block whose data start at [ds]. *)
Definition first_turn (ds : nat) : scan_state := Scan ds (Z.of_nat ds - 1) 0.

(** The state of the data-extent loop after [n] turns from the state
    [st], when none of them left the loop. *)
Fixpoint turns (grid : list (list cell)) (ds n : nat) (st : scan_state)
  : option scan_state :=
  match n with
  | O => Some st
  | S n' =>
      if (length grid <=? s_r st)%nat then None
      else
        match scan_step grid ds st with
        | Some (Continue st') => turns grid ds n' st'
        | _ => None
        end
  end.

(** What a turn of [detect_blocks] emits for the header [h] when the
    data region runs from [ds] to [de]: the block of the rows kept from
    the region, and no block when no row is kept. *)
Definition block_ends_at (grid : list (list cell)) (h : header) (ds : nat) (de : Z)
  (emitted : option block) : Prop :=
  let names := build_header grid (rowIndex h) (span h) in
  let kept := extract_rows grid names ds de in
  match emitted with
  | Some b =>
      header_row b = rowIndex h /\ header_span b = span h
      /\ data_start b = ds /\ data_end b = de
      /\ columns b = names /\ rows b = kept.1 /\ removed_totals b = kept.2
      /\ kept.1 <> []
  | None => kept.1 = []
  end.

(** The state in which a turn of the data-extent loop leaves the loop
    when it meets an empty row at [r]. *)
Definition after_blank_run (grid : list (list cell)) (st : scan_state)
  (tolerated : bool) : scan_next :=
  let k := skip_empty grid (s_r st) in
  if tolerated
  then Continue (Scan k (s_data_end st) (S (s_blank_skips st)))
  else Break (Scan k (Z.of_nat (s_r st) - 1) (s_blank_skips st)).

(** C1, as it is written: the run is tolerated when no more than 3
    tolerances have been granted before. *)
Definition blank_run_tolerated_up_to_three_grants : Prop :=
  forall grid data_start st s,
    s_r st < length grid ->
    is_row_empty (row_at grid (s_r st)) = true ->
    header_score (row_at grid (skip_empty grid (s_r st))) = Some s ->
    scan_step grid data_start st
    = Some (after_blank_run grid st
              (negb (0.65 <? s)%float
               && (skip_empty grid (s_r st) - s_r st <=? 3)%nat
               && (s_blank_skips st <=? 3)%nat)).

(** The turn of the data-extent loop that ends the block before row
    [r] and leaves [r] to the next table. *)
Definition ends_block_before (st : scan_state) : scan_next :=
  Break (Scan (s_r st) (Z.of_nat (s_r st) - 1) (s_blank_skips st)).

(** C5, as it is written: two rows of data before the strong header are
    enough. *)
Definition strong_header_after_two_rows_ends_block : Prop :=
  forall grid data_start st s,
    s_r st < length grid ->
    data_start + 2 <= s_r st ->
    header_score (row_at grid (s_r st)) = Some s ->
    (1.0 <? s)%float = true ->
    scan_step grid data_start st = Some (ends_block_before st).

(** C5, as it is written: the row that ends the block is the header of
    the next table. *)
Definition strong_header_starts_new_table : Prop :=
  forall grid cursor h n st s h',
    find_next_header grid (skip_empty grid cursor) = Some (Some h) ->
    turns grid (skip_empty grid (rowIndex h + span h)) n
      (first_turn (skip_empty grid (rowIndex h + span h))) = Some st ->
    s_r st < length grid ->
    skip_empty grid (rowIndex h + span h) + 2 < s_r st ->
    header_score (row_at grid (s_r st)) = Some s ->
    (1.0 <? s)%float = true ->
    find_next_header grid (s_r st) = Some (Some h') ->
    rowIndex h' = s_r st.

(** A strong header after three rows of data, weaker than the header
    two rows below it. *)
Definition weaker_header : list cell := [CStr "Marca"; CStr "Modelo"; CInt 5].

Definition passed_over_grid : list (list cell) :=
  [sales_header; sale_1; sale_2; sale_1; weaker_header; sale_2; sales_header; sale_1].

(** C2, as it is written: the names of a header are distinct. *)
Definition header_names_are_distinct : Prop :=
  forall grid i span, NoDup (build_header grid i span).

(** A header row in which a name is already the suffixed form of
    another. *)
Definition colliding_header_grid : list (list cell) :=
  [[CStr "A"; CStr "A"; CStr "A_2"]].

(** A row of the data region that [detect_blocks] counts as a total and
    leaves out. *)
Definition dropped_total (src : list cell) : bool :=
  negb (is_row_empty src) && looks_like_total_row src.

(** What C7 says of a row of an emitted block: it is as long as the
    list of columns, it has a cell that is not empty, and it is the
    cleaned form of a row of the region, itself neither empty nor a
    total. *)
Definition row_invariant (grid : list (list cell)) (b : block) (row : list cell)
  : Prop :=
  length row = length (columns b)
  /\ 0 < non_empty_count row
  /\ is_row_empty row = false
  /\ exists rr src,
       data_start b <= rr /\ (Z.of_nat rr <= data_end b)%Z
       /\ grid !! rr = Some src
       /\ is_row_empty src = false
       /\ looks_like_total_row src = false
       /\ row = clean_row (columns b) src.

(** C9, as it is written: a column stays exactly when more than 2% of
    its cells are not null. *)
Definition populated (df : cleaner.frame) (lc : nat * list cell) : Prop :=
  2 * cleaner.nrows df < 100 * cleaner.notna_count lc.2.

#[global] Instance populated_dec df lc : Decision (populated df lc).
Proof. unfold populated. apply _. Defined.

Definition well_formed (df : cleaner.frame) : Prop :=
  NoDup (map fst (cleaner.cols df))
  /\ Forall (fun lc => length lc.2 = cleaner.nrows df) (cleaner.cols df).

Definition keeps_exactly_the_populated_columns : Prop :=
  forall df, well_formed df ->
    cleaner.cols (cleaner.remove_empty_columns df)
    = filter (populated df) (cleaner.cols df).

(** A frame of one row whose two columns are null. *)
Definition null_frame : cleaner.frame :=
  cleaner.Frame 1 [(0, [CNone]); (1, [CNone])].

(** A frame of two rows with a null column between two others. *)
Definition padded_frame : cleaner.frame :=
  cleaner.Frame 2 [(0, [CStr "a"; CNone]); (1, [CNone; CNone]); (2, [CInt 1; CInt 2])].

(** ** What a regular expression matches

    [denotes r prev m rest]: the expression [r] matches the characters
    [m] at a place of the input where [prev] is the character before
    [m] and [rest] is what follows [m]. *)
Definition last_of (prev : option ascii) (m : list ascii) : option ascii :=
  match last m with
  | Some c => Some c
  | None => prev
  end.

Inductive denotes : Re.regex -> option ascii -> list ascii -> list ascii -> Prop :=
| denotes_Empty prev rest : denotes Re.Empty prev [] rest
| denotes_Class p c prev rest :
    p c = true -> denotes (Re.Class p) prev [c] rest
| denotes_Seq r1 r2 prev m1 m2 rest :
    denotes r1 prev m1 (m2 ++ rest) ->
    denotes r2 (last_of prev m1) m2 rest ->
    denotes (Re.Seq r1 r2) prev (m1 ++ m2) rest
| denotes_Alt_l r1 r2 prev m rest :
    denotes r1 prev m rest -> denotes (Re.Alt r1 r2) prev m rest
| denotes_Alt_r r1 r2 prev m rest :
    denotes r2 prev m rest -> denotes (Re.Alt r1 r2) prev m rest
| denotes_Star_none r prev rest : denotes (Re.Star r) prev [] rest
| denotes_Star_more r prev c m1 m2 rest :
    denotes r prev (c :: m1) (m2 ++ rest) ->
    denotes (Re.Star r) (last_of prev (c :: m1)) m2 rest ->
    denotes (Re.Star r) prev ((c :: m1) ++ m2) rest
| denotes_Bos rest : denotes Re.Bos None [] rest
| denotes_Eos prev rest :
    rest = [] \/ rest = ["010"%char] -> denotes Re.Eos prev [] rest
| denotes_WordBoundary prev rest :
    xorb (Re.word_before prev) (Re.word_after rest) = true ->
    denotes Re.WordBoundary prev [] rest.

(** ** The numeric shape of a text, in the words of the specification *)

(** The first [n] values of a column that are not null. *)
Fixpoint first_values (n : nat) (series : list cell) : list cell :=
  match n, series with
  | O, _ => []
  | _, [] => []
  | S n', v :: rest =>
      if isna v then first_values n rest else v :: first_values n' rest
  end.

(** The characters of the text of a value, without the currency signs
    [R] and [$] and without white space. *)
Definition bare_chars (val : cell) : list ascii :=
  filter (fun c => negb (existsb (Ascii.eqb c) (Py.chars "R$") || Py.isspace c))
         (Py.chars (py_str val)).

Definition decimal_digit (c : ascii) : bool :=
  existsb (Ascii.eqb c) (Py.chars "0123456789").

(** One decimal digit or more. *)
Definition digits (l : list ascii) : bool :=
  match l with
  | [] => false
  | _ => forallb decimal_digit l
  end.

(** The text without its minus sign, if it has one. *)
Definition unsigned (l : list ascii) : list ascii :=
  match l with
  | c :: l' => if Ascii.eqb c "-" then l' else l
  | [] => []
  end.

(** The text before the first [sep] and the text after it. *)
Fixpoint split_on (sep : ascii) (l : list ascii) : option (list ascii * list ascii) :=
  match l with
  | [] => None
  | c :: l' =>
      if Ascii.eqb c sep then Some ([], l')
      else
        match split_on sep l' with
        | Some (a, b) => Some (c :: a, b)
        | None => None
        end
  end.

(** Digits and group separators, one or more, then the decimal
    separator and one or two digits: [1.234,56] for the group separator
    ["."] and the decimal separator [","]. *)
Definition grouped_decimal (group decimal : ascii) (body : list ascii) : bool :=
  match split_on decimal body with
  | Some (a, b) =>
      match a with [] => false | _ => true end
      && forallb (fun c => decimal_digit c || Ascii.eqb c group) a
      && digits b && (length b <=? 2)%nat
  | None => false
  end.

(** Digits, or digits, a separator and digits: [1234], [1234.5],
    [1234,567]. *)
Definition plain_decimal (body : list ascii) : bool :=
  digits body
  || existsb (fun sep =>
                match split_on sep body with
                | Some (a, b) => digits a && digits b
                | None => false
                end) ["."%char; ","%char].

Definition numeric_shape (l : list ascii) : bool :=
  let body := unsigned l in
  grouped_decimal "." "," body || grouped_decimal "," "." body || plain_decimal body.

(** The test [numeric_count / total < 0.5] on doubles against the same
    test on integers, for every sample of up to 20 values. *)
Definition half_table : bool :=
  forallb (fun t =>
             forallb (fun n =>
                        Bool.eqb (PyFloat.of_nat n / PyFloat.of_nat t <? 0.5)%float
                                 (2 * n <? t)%nat)
                     (seq 0 (S t)))
          (seq 1 20).

(** The columns of scenario E. *)
Definition brazilian_column : list cell :=
  [CStr "1.234,56"; CStr "1,234.56"; CStr "R$ 45,00"].

(** What [s.replace(o, new)] puts for one character of [s], for a
    one-character [o]. *)
Definition swap (o : ascii) (new : list ascii) (c : ascii) : list ascii :=
  if Ascii.eqb o c then new else [c].

(** The character [c] does not occur in [l]. *)
Definition absent (c : ascii) (l : list ascii) : Prop :=
  existsb (Ascii.eqb c) l = false.

(** A list that does not start with a character of the class [p]: what
    is left of a list stripped on the left. *)
Definition starts_clean (p : ascii -> bool) (l : list ascii) : Prop :=
  match l with
  | c :: _ => p c = false
  | [] => True
  end.

(** The last cell of a list that is not empty. *)
Definition last_non_empty (l : list cell) : option cell :=
  head (filter (fun v => non_empty v = true) (rev l)).

(** A candidate header in the window of [len] rows from [start], with a
    span of one to three rows. *)
Definition candidate_within (start : nat) (len : nat) (b : candidate) : Prop :=
  start <= c_rowIndex b < start + len /\ 1 <= c_span b <= 3.

Definition best_within (start len : nat) (best : option candidate) : Prop :=
  match best with
  | Some b => candidate_within start len b
  | None => True
  end.

(** What C7 says of an emitted block: it has rows, each with the
    invariant above, and its count of totals is the number of total
    rows of its region. *)
Definition block_invariant (grid : list (list cell)) (b : block) : Prop :=
  rows b <> []
  /\ Forall (row_invariant grid b) (rows b)
  /\ removed_totals b
     = length (filter (fun src => dropped_total src = true)
                 (region grid (data_start b) (data_end b))).

(** A cell that is not an infinite float, and a grid of such cells:
    the grids on which [int(v)] cannot raise. *)
Definition finite_cell (v : cell) : bool :=
  match v with
  | CFloat f => negb (PrimFloat.is_infinity f)
  | _ => true
  end.

Definition finite_row (row : list cell) : Prop :=
  Forall (fun v => finite_cell v = true) row.

Definition finite_grid (grid : list (list cell)) : Prop :=
  Forall finite_row grid.

(** The second loop of [build_header] without its dict: [earlier] lists
    the keys met so far, and a name that was met [n - 1] times before
    gets the suffix [_n]. *)
Fixpoint suffix_names (earlier : list string) (items : list (nat * string))
  : list string :=
  match items with
  | [] => []
  | ih :: items' =>
      let base := base_name ih.1 ih.2 in
      let key := Py.lower base in
      let n := S (length (filter (fun k => k = key) earlier)) in
      (if (n =? 1)%nat then base
       else base +:+ "_" +:+ Py.str_of_Z (Z.of_nat n))
      :: suffix_names (key :: earlier) items'
  end.

(** A candidate header that [find_next_header] can keep: a row of the
    grid that scores above 0.40, with the rows of its span inside the
    grid. *)
Definition candidate_sound (grid : list (list cell)) (b : candidate) : Prop :=
  (exists s0, header_score (row_at grid (c_rowIndex b)) = Some s0
              /\ (s0 <=? 0.40)%float = false)
  /\ is_row_empty (row_at grid (c_rowIndex b)) = false
  /\ 1 <= c_span b <= 3
  /\ c_rowIndex b + c_span b <= length grid.

Definition best_sound (grid : list (list cell)) (best : option candidate) : Prop :=
  match best with
  | Some b => candidate_sound grid b
  | None => True
  end.

(** A text with a character that is not white space. *)
Definition has_ink (s : string) : bool :=
  existsb (fun c => negb (Py.isspace c)) (Py.chars s).

(** The items of the second loop of [build_header]. *)
Definition header_items (headers : list string) : list (nat * string) :=
  zip (seq 0 (length headers)) headers.

Definition item_base (ih : nat * string) : string := base_name ih.1 ih.2.
Definition item_key (ih : nat * string) : string := Py.lower (item_base ih).

(** The bounds of an emitted block inside its grid. *)
Definition block_bounds (grid : list (list cell)) (b : block) : Prop :=
  1 <= header_span b <= 3
  /\ header_row b + header_span b <= data_start b
  /\ (Z.of_nat (data_start b) <= data_end b)%Z
  /\ (data_end b < Z.of_nat (length grid))%Z.

(** Each block of the list ends before the header of the next ones. *)
Definition blocks_in_order (blocks : list block) : Prop :=
  forall i j b1 b2,
    i < j -> blocks !! i = Some b1 -> blocks !! j = Some b2 ->
    (data_end b1 < Z.of_nat (header_row b2))%Z.

(** The dataset that [normalize_blocks] writes for the block at
    position [ib.1] of a sheet, when it writes one. *)
Definition dataset_entry (sheet : string) (ib : nat * block) : normalizer.dataset :=
  normalizer.Dataset
    (sheet +:+ "_block_" +:+ Py.str_of_Z (Z.of_nat (ib.1 + 1)))
    ib.1 (length (rows ib.2)) (columns ib.2) (header_span ib.2)
    (removed_totals ib.2).

(** A list of characters in which white space only occurs as single
    spaces; [after_space] tells that the character before the list is
    one. *)
Fixpoint spaced (after_space : bool) (l : list ascii) : Prop :=
  match l with
  | [] => True
  | c :: l' =>
      if Py.isspace c
      then c = " "%char /\ after_space = false /\ spaced true l'
      else spaced false l'
  end.

(** The characters of a cleaned header name: single spaces inside, none
    at the ends, and at least one character. *)
Definition tidy (l : list ascii) : Prop :=
  spaced false l
  /\ starts_clean Py.isspace l
  /\ starts_clean Py.isspace (rev l)
  /\ l <> [].

(** * Facts about the string layer *)

Section StringFacts.

Lemma chars_text (l : list ascii) : Py.chars (Py.text l) = l.
Proof. apply list_ascii_of_string_of_list_ascii. Qed.

Lemma text_chars (s : string) : Py.text (Py.chars s) = s.
Proof. apply string_of_list_ascii_of_string. Qed.

Lemma chars_inj (s t : string) : Py.chars s = Py.chars t -> s = t.
Proof. intros H. rewrite <- (text_chars s), <- (text_chars t). now rewrite H. Qed.

Lemma chars_append (s t : string) : Py.chars (s +:+ t) = Py.chars s ++ Py.chars t.
Proof. induction s as [|c s IH]; simpl; [reflexivity | now rewrite <- IH]. Qed.

Lemma text_app (l1 l2 : list ascii) : Py.text (l1 ++ l2) = Py.text l1 +:+ Py.text l2.
Proof. apply chars_inj. now rewrite chars_append, !chars_text. Qed.

Variable p : ascii -> bool.

Lemma lstrip_starts_clean l : starts_clean p (Py.lstrip_chars p l).
Proof.
  induction l as [|c l IH]; simpl; [exact I|].
  destruct (p c) eqn:E; [exact IH | exact E].
Qed.

Lemma lstrip_clean l : starts_clean p l -> Py.lstrip_chars p l = l.
Proof. destruct l as [|c l]; simpl; [reflexivity|]. now intros ->. Qed.

Lemma lstrip_snoc_keep l c :
  p c = false -> Py.lstrip_chars p (l ++ [c]) = Py.lstrip_chars p l ++ [c].
Proof.
  intros Hc. induction l as [|a l IH]; simpl.
  - now rewrite Hc.
  - destruct (p a); [exact IH | reflexivity].
Qed.

Lemma rstrip_cons_keep l c :
  p c = false -> Py.rstrip_chars p (c :: l) = c :: Py.rstrip_chars p l.
Proof.
  intros Hc. unfold Py.rstrip_chars. simpl rev at 2.
  rewrite lstrip_snoc_keep by exact Hc. now rewrite rev_app_distr.
Qed.

Lemma rstrip_starts_clean l : starts_clean p l -> starts_clean p (Py.rstrip_chars p l).
Proof.
  destruct l as [|c l]; simpl; intros H.
  - exact I.
  - rewrite rstrip_cons_keep by exact H. exact H.
Qed.

Lemma rstrip_idem l :
  Py.rstrip_chars p (Py.rstrip_chars p l) = Py.rstrip_chars p l.
Proof.
  unfold Py.rstrip_chars. rewrite rev_involutive.
  now rewrite (lstrip_clean _ (lstrip_starts_clean _)).
Qed.

(** The parts taken off are made of characters of the class. *)
Lemma lstrip_split l :
  exists pre, l = pre ++ Py.lstrip_chars p l /\ Forall (fun c => p c = true) pre.
Proof.
  induction l as [|c l [pre [H1 H2]]]; simpl.
  - exists []. split; [reflexivity | constructor].
  - destruct (p c) eqn:E.
    + exists (c :: pre). split; [simpl; now f_equal | now constructor].
    + exists []. split; [reflexivity | constructor].
Qed.

Lemma rstrip_split l :
  exists post, l = Py.rstrip_chars p l ++ post /\ Forall (fun c => p c = true) post.
Proof.
  destruct (lstrip_split (rev l)) as [pre [H1 H2]].
  exists (rev pre). split.
  - unfold Py.rstrip_chars. rewrite <- rev_app_distr, <- H1. now rewrite rev_involutive.
  - now apply Forall_rev.
Qed.

End StringFacts.

Lemma strip_idempotent (s : string) : Py.strip (Py.strip s) = Py.strip s.
Proof.
  unfold Py.strip. rewrite chars_text. f_equal.
  rewrite lstrip_clean.
  - apply rstrip_idem.
  - apply rstrip_starts_clean, lstrip_starts_clean.
Qed.

(** [s.strip()] takes white space off both ends of [s], and nothing else. *)
Lemma strip_spec (s : string) :
  exists pre post,
    Py.chars s = pre ++ Py.chars (Py.strip s) ++ post
    /\ Forall (fun c => Py.isspace c = true) pre
    /\ Forall (fun c => Py.isspace c = true) post.
Proof.
  destruct (lstrip_split Py.isspace (Py.chars s)) as [pre [H1 H2]].
  destruct (rstrip_split Py.isspace (Py.lstrip_chars Py.isspace (Py.chars s)))
    as [post [H3 H4]].
  exists pre, post. unfold Py.strip. rewrite chars_text.
  split; [|split; assumption].
  rewrite <- H3. exact H1.
Qed.

(** * The cell classifier *)

Lemma normalize_cell_str_fixed (s : string) :
  Py.strip s = s -> s <> "" -> token s = false ->
  normalize_cell (CStr s) = CStr s.
Proof.
  intros Hs Hne Ht. unfold normalize_cell. rewrite Hs.
  unfold token in Ht. apply orb_false_iff in Ht as [Ht H3].
  apply orb_false_iff in Ht as [H1 H2].
  rewrite H1, H2, H3.
  destruct (String.eqb_spec s ""); [contradiction | reflexivity].
Qed.

(** What [normalize_cell] makes of a string. *)
Lemma normalize_cell_str (t : string) :
  normalize_cell (CStr t) = CNone
  \/ normalize_cell (CStr t) = CStr "0"
  \/ (normalize_cell (CStr t) = CStr (Py.strip t)
      /\ Py.strip t <> "" /\ token (Py.strip t) = false).
Proof.
  unfold normalize_cell, token.
  destruct (String.eqb_spec (Py.strip t) ""); [now left|].
  destruct (String.eqb (Py.lower (Py.strip t)) "nan"); [now left|].
  destruct (String.eqb (Py.strip t) "#DIV/0!"); [now right; left|].
  destruct (String.eqb (Py.strip t) "-"); [now left|].
  right; right. now repeat split.
Qed.

(** C8 -- Normalizing a raw cell value twice gives what normalizing it
    once gives: [normalize_cell (normalize_cell x) = normalize_cell x]
    for every raw cell value [x], the tokens ["#DIV/0!"] and ["-"]
    included. *)
Theorem normalize_cell_idempotent (x : cell) :
  raw_cell x = true ->
  normalize_cell (normalize_cell x) = normalize_cell x.
Proof.
  intros Hraw. destruct x as [|b|z|f|t|t]; try reflexivity.
  - (* float *)
    simpl. destruct (PrimFloat.eqb f f) eqn:E; simpl; [|reflexivity].
    now rewrite E.
  - (* string *)
    destruct (normalize_cell_str t) as [-> | [-> | (-> & Hne & Ht)]];
      try reflexivity.
    apply normalize_cell_str_fixed; [apply strip_idempotent | assumption..].
  - (* another object *)
    simpl in Hraw. apply negb_true_iff in Hraw.
    simpl. destruct (String.eqb_spec (Py.strip t) ""); [reflexivity|].
    apply normalize_cell_str_fixed; [apply strip_idempotent | assumption..].
Qed.

Lemma normalize_cell_idempotent_witness :
  raw_cell (CStr " #DIV/0! ") = true
  /\ normalize_cell (normalize_cell (CStr " #DIV/0! ")) = normalize_cell (CStr " #DIV/0! ").
Proof.
  split; [reflexivity|].
  apply (normalize_cell_idempotent (CStr " #DIV/0! ")). reflexivity.
Defined.

(** The bound of the statement: an object that prints as a token is
    first turned into the token, then into nothing. *)
Remark normalize_cell_twice_on_token_object :
  normalize_cell (CObj "-") = CStr "-"
  /\ normalize_cell (normalize_cell (CObj "-")) = CNone.
Proof. split; reflexivity. Qed.

Lemma div_error_is_not_a_number : ~ div_error_becomes_number.
Proof.
  intros [n [Hn H]]. vm_compute in H. subst n. discriminate Hn.
Qed.

(** C4 -- Cell normalization is to turn the division-error token
    ["#DIV/0!"] into the number 0.  [normalize_cell] returns the text
    ["0"] for it, which is not a number, while [_sanitize] of
    [main.py], which is applied to the cells that [normalize_cell]
    returned, gives the number 0 for the same token. *)
Theorem normalize_cell_div_error_is_text :
  normalize_cell (CStr "#DIV/0!") = CStr "0"
  /\ is_number (normalize_cell (CStr "#DIV/0!")) = false
  /\ main._sanitize (CStr "#DIV/0!") = CInt 0
  /\ ~ div_error_becomes_number.
Proof.
  split; [reflexivity|]. split; [reflexivity|]. split; [reflexivity|].
  exact div_error_is_not_a_number.
Qed.

(** The other cases of the normalization: [normalize_cell] maps null,
    NaN, strings that are blank once trimmed, the text ["nan"] and the
    placeholder ["-"] to empty; every string that trims to ["#DIV/0!"]
    becomes the string ["0"]; every other string is trimmed; numbers
    other than NaN pass through unchanged. *)
Theorem normalize_cell_cases :
  normalize_cell CNone = CNone
  /\ (forall f, PrimFloat.eqb f f = false -> normalize_cell (CFloat f) = CNone)
  /\ (forall s, Py.strip s = "" -> normalize_cell (CStr s) = CNone)
  /\ (forall s, Py.lower (Py.strip s) = "nan" -> normalize_cell (CStr s) = CNone)
  /\ (forall s, Py.strip s = "-" -> normalize_cell (CStr s) = CNone)
  /\ (forall s, Py.strip s = "#DIV/0!" -> normalize_cell (CStr s) = CStr "0")
  /\ (forall s, Py.strip s <> "" -> token (Py.strip s) = false ->
                normalize_cell (CStr s) = CStr (Py.strip s))
  /\ (forall v, is_number v = true -> isna v = false -> normalize_cell v = v).
Proof.
  repeat split.
  - intros f Hf. simpl. now rewrite Hf.
  - intros s Hs. unfold normalize_cell. now rewrite Hs.
  - intros s Hs. unfold normalize_cell. rewrite Hs.
    now destruct (String.eqb (Py.strip s) "").
  - intros s Hs. unfold normalize_cell. now rewrite Hs.
  - intros s Hs. unfold normalize_cell. now rewrite Hs.
  - intros s Hne Ht. unfold normalize_cell.
    unfold token in Ht. apply orb_false_iff in Ht as [Ht H3].
    apply orb_false_iff in Ht as [H1 H2]. rewrite H1, H2, H3.
    destruct (String.eqb_spec (Py.strip s) ""); [contradiction | reflexivity].
  - intros v Hv Hna. destruct v; try discriminate Hv; try reflexivity.
    simpl in *. now rewrite Hna.
Qed.

Lemma normalize_cell_cases_witness :
  normalize_cell (CStr "  - ") = CNone
  /\ normalize_cell (CStr " #DIV/0!") = CStr "0"
  /\ normalize_cell (CStr " Ana ") = CStr "Ana"
  /\ normalize_cell (CFloat 2.5) = CFloat 2.5.
Proof.
  destruct normalize_cell_cases as (_ & _ & _ & _ & Hdash & Hdiv & Htrim & Hnum).
  split; [apply Hdash; reflexivity|].
  split; [apply Hdiv; reflexivity|].
  split; [apply (Htrim " Ana "); [discriminate | reflexivity]|].
  apply Hnum; reflexivity.
Defined.

(** * Header names *)

Lemma fill_forward_length last row : length (fill_forward last row) = length row.
Proof.
  revert last. induction row as [|v row IH]; intros last; simpl; [reflexivity|].
  destruct (non_empty v); simpl; now rewrite IH.
Qed.

(** The loop that rewrites the row in place, started at column
    [length pre], computes the filled row. *)
Lemma propagate_loop (row pre : list cell) (last : option cell) :
  (fold_left propagate_step (seq (length pre) (length row)) (pre ++ row, last)).1
  = pre ++ fill_forward last row.
Proof.
  revert pre last. induction row as [|v row IH]; intros pre last; [reflexivity|].
  cbn [length seq fold_left fill_forward].
  assert (Hat : (pre ++ v :: row) !! length pre = Some v).
  { rewrite lookup_app_r by lia. now rewrite Nat.sub_diag. }
  unfold propagate_step at 2. rewrite Hat. unfold non_empty.
  assert (Hnext : forall w l, fold_left propagate_step (seq (S (length pre)) (length row))
                     (pre ++ w :: row, l)
                   = fold_left propagate_step (seq (length (pre ++ [w])) (length row))
                     ((pre ++ [w]) ++ row, l)).
  { intros w l. rewrite length_app, <- app_assoc. simpl.
    now replace (length pre + 1) with (S (length pre)) by lia. }
  destruct (is_none (normalize_cell v)); simpl negb; cbv iota.
  - destruct last as [lv|]; simpl default.
    + replace (<[length pre := lv]> (pre ++ v :: row)) with (pre ++ lv :: row).
      * rewrite Hnext, IH. now rewrite <- app_assoc.
      * rewrite insert_app_r_alt by lia. now rewrite Nat.sub_diag.
    + rewrite Hnext, IH. now rewrite <- app_assoc.
  - rewrite Hnext, IH. now rewrite <- app_assoc.
Qed.

Lemma propagate_fill_forward (row : list cell) :
  _propagate_merged_header row = fill_forward None row.
Proof. exact (propagate_loop row [] None). Qed.

(** Column by column: the filled row has, at [i], the value of the
    nearest cell at or left of [i] that is not empty, and the value of
    the row itself when there is none. *)
Lemma last_non_empty_cons (w : cell) (l : list cell) :
  last_non_empty (w :: l)
  = match last_non_empty l with
    | Some u => Some u
    | None => if non_empty w then Some w else None
    end.
Proof.
  unfold last_non_empty. simpl rev. rewrite filter_app.
  destruct (filter _ (rev l)) as [|u l']; [|reflexivity].
  simpl. rewrite filter_cons, filter_nil.
  destruct (non_empty w); case_decide; try reflexivity; congruence.
Qed.

Lemma fill_forward_lookup (row : list cell) (last : option cell) (i : nat) (v : cell) :
  row !! i = Some v ->
  fill_forward last row !! i
  = Some (default (default v last) (last_non_empty (take (S i) row))).
Proof.
  revert last i v. induction row as [|w row IH]; intros last i v Hi; [discriminate|].
  change (take (S i) (w :: row)) with (w :: take i row).
  rewrite last_non_empty_cons.
  destruct i as [|i]; simpl in Hi.
  - injection Hi as ->. rewrite take_0. cbn [fill_forward last_non_empty].
    unfold last_non_empty. simpl.
    destruct (non_empty v); reflexivity.
  - cbn [fill_forward]. destruct (non_empty w) eqn:E.
    + change ((w :: fill_forward (Some w) row) !! S i)
        with (fill_forward (Some w) row !! i).
      rewrite (IH _ _ _ Hi).
      destruct (last_non_empty (take (S i) row)); reflexivity.
    + change ((default w last :: fill_forward last row) !! S i)
        with (fill_forward last row !! i).
      rewrite (IH _ _ _ Hi).
      destruct (last_non_empty (take (S i) row)); reflexivity.
Qed.

Lemma column_parts_none (cells : list cell) :
  column_parts (cells ++ [CNone]) = column_parts cells.
Proof.
  unfold column_parts. rewrite filter_app. simpl.
  rewrite filter_cons, decide_False by discriminate.
  now rewrite filter_nil, app_nil_r.
Qed.

(** The texts of the cells of a column, as the comprehension of
    [build_header] and as the specification words them. *)
Lemma column_parts_texts (cells : list cell) :
  column_parts (map normalize_cell cells) = omap cell_text cells.
Proof.
  unfold column_parts. induction cells as [|v cells IH]; [reflexivity|].
  cbn [map omap list_omap]. rewrite filter_cons. unfold cell_text at 1.
  destruct (normalize_cell v) eqn:E; simpl is_none;
    (case_decide as Hn; [|congruence]); try discriminate Hn;
    cbn [map]; rewrite filter_cons, IH;
    match goal with
    | |- context [String.eqb ?t ""] => destruct (String.eqb_spec t "")
    end;
    case_decide; try contradiction; reflexivity.
Qed.

Lemma met_before (t : string) (met : list string) :
  existsb (String.eqb t) met = true <-> t ∈ met.
Proof.
  rewrite existsb_exists. split.
  - intros (x & Hin & ->%String.eqb_eq). now apply list_elem_of_In.
  - intros Hin. exists t. split; [now apply list_elem_of_In | apply String.eqb_refl].
Qed.

(** [dict.fromkeys] keeps the first occurrence of each text. *)
Lemma dict_fromkeys_distinct (met texts : list string) :
  filter (fun q => q ∉ met) (dict_fromkeys texts) = distinct_texts met texts.
Proof.
  revert met. induction texts as [|t texts IH]; intros met; [reflexivity|].
  cbn [dict_fromkeys distinct_texts]. rewrite filter_cons, list_filter_filter.
  destruct (existsb (String.eqb t) met) eqn:E.
  - apply met_before in E. rewrite decide_False by tauto.
    rewrite <- IH. apply list_filter_iff. intros q. split; [tauto|].
    intros Hq. split; [exact Hq|]. now intros ->.
  - rewrite decide_True by (rewrite <- met_before; congruence).
    f_equal. rewrite <- IH. apply list_filter_iff. intros q.
    rewrite not_elem_of_cons. tauto.
Qed.

Lemma with_spaces_shift (a b : string) (rest : list string) :
  fold_left (fun acc x => acc +:+ " " +:+ x) rest (a +:+ b)
  = a +:+ fold_left (fun acc x => acc +:+ " " +:+ x) rest b.
Proof.
  revert b. induction rest as [|x rest IH]; intros b; [reflexivity|].
  cbn [fold_left]. rewrite <- IH. f_equal.
  apply chars_inj. rewrite !chars_append. now rewrite <- List.app_assoc.
Qed.

(** [" ".join] puts one space between two texts. *)
Lemma join_with_spaces (texts : list string) :
  Py.join " " texts = with_spaces texts.
Proof.
  induction texts as [|t [|u texts] IH]; [reflexivity | reflexivity |].
  change (Py.join " " (t :: u :: texts)) with (t +:+ " " +:+ Py.join " " (u :: texts)).
  rewrite IH. cbn [with_spaces fold_left].
  change (t +:+ " " +:+ u) with (t +:+ (" " +:+ u)).
  rewrite with_spaces_shift.
  change (" " +:+ u) with (String " " u).
  change (String " " u) with (" " +:+ u).
  rewrite with_spaces_shift. reflexivity.
Qed.

Lemma filter_all_texts (texts : list string) :
  filter (fun q => q ∉ @nil string) texts = texts.
Proof.
  induction texts as [|t texts IH]; [reflexivity|].
  rewrite filter_cons, decide_True by apply not_elem_of_nil. now rewrite IH.
Qed.

Lemma column_name_spec (cells : list cell) :
  Py.join " " (dict_fromkeys (column_parts (map normalize_cell cells)))
  = with_spaces (distinct_texts [] (omap cell_text cells)).
Proof.
  rewrite join_with_spaces, column_parts_texts, <- dict_fromkeys_distinct.
  f_equal. symmetry. apply filter_all_texts.
Qed.

Lemma header_names_spec (grid : list (list cell)) (i span : nat) :
  1 <= span <= 3 ->
  header_names grid i span = spec_header_names grid i span.
Proof.
  intros Hspan. unfold header_names, spec_header_names.
  assert (Hnil : _propagate_merged_header [] = []) by reflexivity.
  assert (Hcell : forall c, normalize_cell (cell_at [] c) = CNone) by reflexivity.
  destruct span as [|[|[|[|span]]]]; try lia; simpl Nat.leb; cbv iota;
    rewrite ?Hnil, !propagate_fill_forward; simpl seq; simpl map; simpl foldr.
  - rewrite !Nat.max_0_r. apply map_ext. intros c. unfold column_name.
    rewrite !Hcell.
    change [?a; CNone; CNone] with (([a] ++ [CNone]) ++ [CNone]).
    rewrite !column_parts_none.
    exact (column_name_spec [cell_at (fill_forward None (row_at grid i)) c]).
  - replace (i + 1) with (S i) by lia.
    rewrite !Nat.max_0_r. apply map_ext. intros c. unfold column_name.
    rewrite !Hcell.
    change [?a; ?b; CNone] with ([a; b] ++ [CNone]).
    rewrite column_parts_none.
    exact (column_name_spec [cell_at (fill_forward None (row_at grid i)) c;
                             cell_at (fill_forward None (row_at grid (S i))) c]).
  - replace (i + 1) with (S i) by lia. replace (i + 2) with (S (S i)) by lia.
    rewrite Nat.max_0_r, Nat.max_assoc. apply map_ext. intros c. unfold column_name.
    exact (column_name_spec [cell_at (fill_forward None (row_at grid i)) c;
                             cell_at (fill_forward None (row_at grid (S i))) c;
                             cell_at (fill_forward None (row_at grid (S (S i)))) c]).
Qed.

(** C6 -- [build_header] first fills every header row forward (the value
    of a cell that is not empty fills the empty cells that follow it up
    to the next cell that is not empty), then names each column by the
    distinct texts of the rows in it, joined by a space, and makes the
    names unique; for the header rows [["Vendas", None, None]] and
    [["Qtd", "Preço", "Total"]] the result is
    [["Vendas Qtd", "Vendas Preço", "Vendas Total"]].  In a header of
    three rows a text that a column repeats is taken once. *)
Theorem build_header_merged_cells :
  (forall row, _propagate_merged_header row = fill_forward None row)
  /\ (forall grid i span,
        1 <= span <= 3 ->
        header_names grid i span = spec_header_names grid i span
        /\ build_header grid i span = unique_names (spec_header_names grid i span))
  /\ build_header merged_header_grid 0 2
     = ["Vendas Qtd"; "Vendas Pre" +:+ c_cedilla +:+ "o"; "Vendas Total"]
  /\ build_header stacked_header_grid 0 3
     = ["Vendas Total"; "Vendas Qtd"; "Custos Ano 2024"].
Proof.
  split; [exact propagate_fill_forward|]. split; [|split].
  - intros grid i span Hspan. unfold build_header.
    now rewrite header_names_spec.
  - vm_compute. reflexivity.
  - vm_compute. reflexivity.
Qed.

Lemma build_header_merged_cells_witness :
  header_names stacked_header_grid 0 3 = spec_header_names stacked_header_grid 0 3
  /\ build_header stacked_header_grid 0 3
     = unique_names (spec_header_names stacked_header_grid 0 3).
Proof.
  apply (proj1 (proj2 build_header_merged_cells) stacked_header_grid 0 3). lia.
Defined.

(** C2 -- The names [build_header] returns are meant to be distinct: a
    column without a contributing value is called [col_<n>] and a
    repeated name gets the suffixes [_2], [_3], ... in the order of
    occurrence.  The suffixed name is not itself compared with the
    names of the header: for the header row [["A", "A", "A_2"]] the
    code returns [["A", "A_2", "A_2"]]. *)
Theorem build_header_repeats_a_name :
  build_header colliding_header_grid 0 1 = ["A"; "A_2"; "A_2"]
  /\ ~ header_names_are_distinct.
Proof.
  assert (H : build_header colliding_header_grid 0 1 = ["A"; "A_2"; "A_2"])
    by (vm_compute; reflexivity).
  split; [exact H|].
  intros Hd. specialize (Hd colliding_header_grid 0 1). rewrite H in Hd.
  apply NoDup_cons in Hd as [_ Hd]. apply NoDup_cons in Hd as [Hd _].
  apply Hd. left.
Qed.

(** The dict [seen] of the second loop holds, for each key, how many
    times it was met. *)
Lemma unique_names_loop (items : list (nat * string)) (earlier : list string)
  (seen : gmap string nat) (out : list string) :
  (forall k, default 0 (seen !! k) = length (filter (fun k' => k' = k) earlier)) ->
  (fold_left unique_step items (seen, out)).2 = out ++ suffix_names earlier items.
Proof.
  revert earlier seen out. induction items as [|ih items IH];
    intros earlier seen out Hseen.
  - cbn [fold_left suffix_names snd]. now rewrite app_nil_r.
  - cbn [fold_left suffix_names]. unfold unique_step at 2.
    set (base := base_name ih.1 ih.2). set (key := Py.lower base).
    rewrite (IH (key :: earlier)).
    + rewrite <- app_assoc. cbn [app]. now rewrite Hseen, Nat.add_1_r.
    + intros k. rewrite filter_cons. destruct (decide (key = k)) as [->|Hne].
      * rewrite lookup_insert_eq. cbn [default length].
        now rewrite Hseen, Nat.add_1_r.
      * rewrite lookup_insert_ne by exact Hne. apply Hseen.
Qed.

(** The suffix rule of [build_header]: the first header with a given
    name (compared without case) keeps it, the [n]-th gets [_n]. *)
Lemma unique_names_suffixes (headers : list string) :
  unique_names headers
  = suffix_names [] (zip (seq 0 (length headers)) headers).
Proof.
  unfold unique_names. rewrite (unique_names_loop _ [] ∅ []); [reflexivity|].
  intros k. now rewrite lookup_empty.
Qed.

(** * The loops of the detector *)

Lemma row_at_lookup (grid : list (list cell)) (r : nat) (row : list cell) :
  grid !! r = Some row -> row_at grid r = row.
Proof. unfold row_at. now intros ->. Qed.

Lemma row_at_beyond (grid : list (list cell)) (r : nat) :
  length grid <= r -> row_at grid r = [].
Proof. intros H. unfold row_at. now rewrite (lookup_ge_None_2 _ _ H). Qed.

Lemma is_row_empty_in_range (grid : list (list cell)) (r : nat) :
  is_row_empty (row_at grid r) = false ->
  r < length grid /\ grid !! r = Some (row_at grid r).
Proof.
  intros H. destruct (grid !! r) as [row|] eqn:E.
  - split; [now apply lookup_lt_Some in E | now rewrite (row_at_lookup _ _ _ E)].
  - unfold row_at in H. rewrite E in H. discriminate H.
Qed.

(** ** Skipping empty rows *)

Lemma skip_empty_rows_ge rows i : i <= skip_empty_rows rows i.
Proof.
  revert i. induction rows as [|row rows IH]; intros i; simpl; [lia|].
  destruct (is_row_empty row); [specialize (IH (S i))|]; lia.
Qed.

Lemma skip_empty_rows_le rows i : skip_empty_rows rows i <= i + length rows.
Proof.
  revert i. induction rows as [|row rows IH]; intros i; simpl; [lia|].
  destruct (is_row_empty row); [specialize (IH (S i))|]; lia.
Qed.

Lemma skip_empty_rows_stop rows i :
  skip_empty_rows rows i < i + length rows ->
  exists row, rows !! (skip_empty_rows rows i - i) = Some row
              /\ is_row_empty row = false.
Proof.
  revert i. induction rows as [|row rows IH]; intros i; simpl; [lia|].
  destruct (is_row_empty row) eqn:E.
  - intros H. destruct (IH (S i)) as [row' [H1 H2]]; [lia|].
    exists row'. split; [|exact H2].
    pose proof (skip_empty_rows_ge rows (S i)).
    replace (skip_empty_rows rows (S i) - i)
      with (S (skip_empty_rows rows (S i) - S i)) by lia.
    exact H1.
  - intros _. exists row. rewrite Nat.sub_diag. now split.
Qed.

Lemma skip_empty_ge grid i : i <= skip_empty grid i.
Proof. apply skip_empty_rows_ge. Qed.

Lemma skip_empty_le grid i : i <= length grid -> skip_empty grid i <= length grid.
Proof.
  intros H. unfold skip_empty.
  pose proof (skip_empty_rows_le (drop i grid) i) as H'.
  rewrite length_drop in H'. lia.
Qed.

Lemma skip_empty_gt grid i :
  i < length grid -> is_row_empty (row_at grid i) = true -> i < skip_empty grid i.
Proof.
  intros Hi He. unfold skip_empty.
  destruct (lookup_lt_is_Some_2 grid i Hi) as [row Hrow].
  rewrite (drop_S _ _ _ Hrow). simpl.
  rewrite (row_at_lookup _ _ _ Hrow) in He. rewrite He.
  pose proof (skip_empty_rows_ge (drop (S i) grid) (S i)). lia.
Qed.

Lemma skip_empty_stop grid i :
  skip_empty grid i < length grid ->
  is_row_empty (row_at grid (skip_empty grid i)) = false.
Proof.
  intros H. unfold skip_empty in *.
  pose proof (skip_empty_rows_ge (drop i grid) i) as Hge.
  destruct (skip_empty_rows_stop (drop i grid) i) as [row [H1 H2]].
  { rewrite length_drop. lia. }
  rewrite lookup_drop in H1.
  replace (i + (skip_empty_rows (drop i grid) i - i))
    with (skip_empty_rows (drop i grid) i) in H1 by lia.
  now rewrite (row_at_lookup _ _ _ H1).
Qed.

(** ** The header score *)

Lemma header_score_few (row : list cell) (s : float) :
  non_empty_count row < 2 -> header_score row = Some s -> s = 0%float.
Proof.
  intros Hn. unfold header_score.
  destruct (Nat.ltb_spec (non_empty_count row) 2); [|lia].
  now intros [= <-].
Qed.

Lemma header_score_empty (row : list cell) :
  is_row_empty row = true -> header_score row = Some 0%float.
Proof.
  unfold is_row_empty, header_score. intros H%Nat.eqb_eq. now rewrite H.
Qed.

(** A row that scores above a positive threshold is not empty. *)
Lemma strong_row_not_empty (row : list cell) (s threshold : float) :
  header_score row = Some s ->
  (threshold <? 0)%float = false ->
  (threshold <? s)%float = true ->
  is_row_empty row = false.
Proof.
  intros Hs H0 Hlt. destruct (is_row_empty row) eqn:E; [|reflexivity].
  rewrite (header_score_empty _ E) in Hs. injection Hs as <-. congruence.
Qed.

(** ** The header search *)

Lemma header_step_within grid start len best r best' :
  best_within start len best ->
  start <= r < start + len ->
  header_step grid best r = Some best' ->
  best_within start len best'.
Proof.
  intros Hb Hr. unfold header_step.
  destruct (is_row_empty (row_at grid r)); [now intros [= <-]|].
  destruct (header_score (row_at grid r)) as [s0|]; [simpl|discriminate].
  destruct (s0 <=? 0.4)%float; [now intros [= <-]|].
  destruct (header_score (row_at grid (r + 1))) as [s1|]; [simpl|discriminate].
  destruct (header_score (row_at grid (r + 2))) as [s2|]; [simpl|discriminate].
  set (sp := if ((if (0.45 <? s1)%float then 2 else 1) =? 2)%nat && (0.45 <? s2)%float
             then 3 else if (0.45 <? s1)%float then 2 else 1).
  assert (Hsp : 1 <= sp <= 3).
  { unfold sp. destruct (0.45 <? s1)%float, (0.45 <? s2)%float; simpl; lia. }
  destruct best as [b|].
  - destruct (c_score b <? _)%float; intros [= <-]; [|exact Hb].
    split; simpl; [lia | exact Hsp].
  - intros [= <-]. split; simpl; [lia | exact Hsp].
Qed.

Lemma header_scan_within grid start len rs best best' :
  best_within start len best ->
  Forall (fun r => start <= r < start + len) rs ->
  header_scan grid best rs = Some best' ->
  best_within start len best'.
Proof.
  revert best. induction rs as [|r rs IH]; intros best Hb Hrs; simpl.
  - now intros [= <-].
  - destruct (header_step grid best r) as [b1|] eqn:E; [simpl|discriminate].
    inversion Hrs; subst. apply IH; [|assumption].
    eapply header_step_within; eassumption.
Qed.

(** The header found lies in the window of 300 rows that starts at the
    cursor, inside the grid, and spans one to three rows. *)
Lemma find_next_header_within grid start h :
  find_next_header grid start = Some (Some h) ->
  start <= rowIndex h < length grid
  /\ rowIndex h < start + 300
  /\ 1 <= span h <= 3.
Proof.
  unfold find_next_header.
  set (len := Nat.min (length grid) (start + 300) - start).
  destruct (header_scan grid None (seq start len)) as [best|] eqn:E;
    [simpl|discriminate].
  destruct best as [b|]; [|discriminate]. intros [= <-]. simpl.
  assert (H : best_within start len (Some b)).
  { apply (header_scan_within grid start len (seq start len) None); [exact I| |exact E].
    apply Forall_forall. intros r Hr%elem_of_seq. lia. }
  destruct H as [H1 H2]. unfold len in H1. lia.
Qed.

Lemma scored_row_in_grid grid r s threshold :
  header_score (row_at grid r) = Some s ->
  (threshold <? 0)%float = false ->
  (threshold <? s)%float = true ->
  r < length grid.
Proof.
  intros Hs H0 Hlt.
  pose proof (strong_row_not_empty _ _ _ Hs H0 Hlt) as He.
  now apply is_row_empty_in_range in He.
Qed.

Lemma header_step_sound grid best r best' :
  best_sound grid best ->
  header_step grid best r = Some best' ->
  best_sound grid best'.
Proof.
  intros Hb. unfold header_step.
  destruct (is_row_empty (row_at grid r)) eqn:He; [now intros [= <-]|].
  destruct (header_score (row_at grid r)) as [s0|] eqn:E0; [simpl|discriminate].
  destruct (s0 <=? 0.4)%float eqn:Es0; [now intros [= <-]|].
  destruct (header_score (row_at grid (r + 1))) as [s1|] eqn:E1; [simpl|discriminate].
  destruct (header_score (row_at grid (r + 2))) as [s2|] eqn:E2; [simpl|discriminate].
  pose proof (is_row_empty_in_range grid r He) as [Hr _].
  set (sp := if ((if (0.45 <? s1)%float then 2 else 1) =? 2)%nat && (0.45 <? s2)%float
             then 3 else if (0.45 <? s1)%float then 2 else 1).
  assert (Hnew : candidate_sound grid
                   (Candidate r sp
                      (s0 + (if (2 <=? sp)%nat then s1 * 0.3 else 0)
                       + (if (sp =? 3)%nat then s2 * 0.15 else 0))%float)).
  { unfold candidate_sound. simpl.
    split; [exists s0; now split|]. split; [exact He|].
    unfold sp. destruct (0.45 <? s1)%float eqn:L1; simpl.
    - pose proof (scored_row_in_grid grid (r + 1) s1 0.45%float E1 eq_refl L1).
      destruct (0.45 <? s2)%float eqn:L2; simpl.
      + pose proof (scored_row_in_grid grid (r + 2) s2 0.45%float E2 eq_refl L2). lia.
      + lia.
    - lia. }
  destruct best as [b|].
  - destruct (c_score b <? _)%float; intros [= <-]; [exact Hnew | exact Hb].
  - intros [= <-]. exact Hnew.
Qed.

Lemma header_scan_sound grid rs best best' :
  best_sound grid best ->
  header_scan grid best rs = Some best' ->
  best_sound grid best'.
Proof.
  revert best. induction rs as [|r rs IH]; intros best Hb; simpl.
  - now intros [= <-].
  - destruct (header_step grid best r) as [b1|] eqn:E; [simpl|discriminate].
    apply IH. eapply header_step_sound; eassumption.
Qed.

Lemma find_next_header_found grid start h :
  find_next_header grid start = Some (Some h) ->
  start <= rowIndex h /\ 1 <= span h <= 3 /\ rowIndex h + span h <= length grid.
Proof.
  intros Hf. pose proof (find_next_header_within grid start h Hf) as (Hs & _ & _).
  unfold find_next_header in Hf.
  destruct (header_scan grid None _) as [best|] eqn:E; [simpl in Hf|discriminate].
  destruct best as [b|]; [|discriminate]. injection Hf as <-. simpl in *.
  pose proof (header_scan_sound grid _ None (Some b) I E) as (_ & _ & H3 & H4).
  repeat split; try assumption; lia.
Qed.

(** ** The data-extent loop *)

Lemma non_empty_cells_count (row : list cell) :
  length (filter (fun n => is_none n = false) (map normalize_cell row))
  = non_empty_count row.
Proof.
  unfold non_empty_count, non_empty.
  induction row as [|v row IH]; [reflexivity|].
  simpl map. rewrite !filter_cons. 
  destruct (is_none (normalize_cell v)); simpl negb;
    repeat case_decide; try congruence; simpl; now rewrite IH.
Qed.

Lemma empty_row_is_no_title (row : list cell) :
  is_row_empty row = true -> looks_like_section_title_row row = false.
Proof.
  unfold is_row_empty, looks_like_section_title_row. intros H%Nat.eqb_eq.
  now rewrite non_empty_cells_count, H.
Qed.

(** A turn of the loop on an empty row. *)
Lemma scan_step_blank grid data_start st looks :
  is_row_empty (row_at grid (s_r st)) = true ->
  next_looks_header grid (skip_empty grid (s_r st)) = Some looks ->
  scan_step grid data_start st
  = Some (after_blank_run grid st
            (negb looks
             && (skip_empty grid (s_r st) - s_r st <=? 3)%nat
             && (s_blank_skips st <? 3)%nat)).
Proof.
  intros He Hl. unfold scan_step, after_blank_run.
  rewrite (empty_row_is_no_title _ He), He, Hl. simpl.
  now destruct (negb looks && _ && _).
Qed.

(** A turn of the loop on a row that scores above 1.0. *)
Lemma scan_step_strong_header grid data_start st s :
  header_score (row_at grid (s_r st)) = Some s ->
  (1.0 <? s)%float = true ->
  scan_step grid data_start st
  = Some (if (data_start + 2 <? s_r st)%nat then ends_block_before st
          else if looks_like_section_title_row (row_at grid (s_r st))
                  && (data_start + 1 <? s_r st)%nat
               then ends_block_before st
               else Continue (Scan (S (s_r st)) (Z.of_nat (s_r st)) (s_blank_skips st))).
Proof.
  intros Hs Hlt. unfold scan_step, ends_block_before.
  rewrite (strong_row_not_empty _ s 1%float Hs eq_refl Hlt), Hs. simpl. rewrite Hlt.
  destruct (looks_like_section_title_row _); simpl;
    destruct (Nat.ltb_spec (data_start + 2) (s_r st));
    destruct (Nat.ltb_spec (data_start + 1) (s_r st)); try reflexivity; lia.
Qed.

Lemma scan_step_advances grid data_start st st' :
  s_r st < length grid ->
  scan_step grid data_start st = Some (Continue st') ->
  s_r st < s_r st'.
Proof.
  intros Hr. unfold scan_step.
  destruct (looks_like_section_title_row _ && _); [discriminate|].
  destruct (is_row_empty (row_at grid (s_r st))) eqn:He.
  - destruct (next_looks_header _ _) as [looks|]; [simpl|discriminate].
    destruct (negb looks && _ && _); intros [= <-]. simpl.
    now apply skip_empty_gt.
  - destruct (header_score _) as [s|]; [simpl|discriminate].
    destruct ((1 <? s)%float && _); intros [= <-]. simpl. lia.
Qed.

Lemma scan_step_final grid data_start st st' :
  scan_step grid data_start st = Some (Break st') ->
  s_r st <= s_r st' /\ s_data_end st' = (Z.of_nat (s_r st) - 1)%Z.
Proof.
  unfold scan_step.
  destruct (looks_like_section_title_row _ && _).
  { intros [= <-]. simpl. lia. }
  destruct (is_row_empty (row_at grid (s_r st))) eqn:He.
  - destruct (next_looks_header _ _) as [looks|]; [simpl|discriminate].
    destruct (negb looks && _ && _); intros [= <-]. simpl.
    split; [apply skip_empty_ge | reflexivity].
  - destruct (header_score _) as [s|]; [simpl|discriminate].
    destruct ((1 <? s)%float && _); intros [= <-]. simpl. lia.
Qed.

(** The loop never uses up the turns it is given when there is one for
    each row still to be read. *)
Lemma scan_has_fuel fuel grid data_start st :
  length grid - s_r st <= fuel ->
  scan fuel grid data_start st <> OutOfFuel.
Proof.
  revert st. induction fuel as [|fuel IH]; intros st Hf; simpl.
  - destruct (Nat.leb_spec (length grid) (s_r st)); [discriminate | lia].
  - destruct (Nat.leb_spec (length grid) (s_r st)); [discriminate|].
    destruct (scan_step grid data_start st) as [[st'|st']|] eqn:E; try discriminate.
    apply IH. pose proof (scan_step_advances _ _ _ _ H E). lia.
Qed.

(** The row at which the loop stops is not before the one it started
    at. *)
Lemma scan_forward fuel grid data_start st st' :
  scan fuel grid data_start st = Finished st' -> s_r st <= s_r st'.
Proof.
  revert st. induction fuel as [|fuel IH]; intros st; simpl.
  - destruct (Nat.leb_spec (length grid) (s_r st)); [|discriminate].
    now intros [= <-].
  - destruct (Nat.leb_spec (length grid) (s_r st)); [now intros [= <-]|].
    destruct (scan_step grid data_start st) as [[st1|st1]|] eqn:E; try discriminate.
    + intros Hs. apply IH in Hs.
      pose proof (scan_step_advances _ _ _ _ H E). lia.
    + intros [= <-]. now apply scan_step_final in E.
Qed.

Lemma skip_empty_rows_between rows i j row :
  i <= j < skip_empty_rows rows i ->
  rows !! (j - i) = Some row -> is_row_empty row = true.
Proof.
  revert i. induction rows as [|w rows IH]; intros i; simpl; [lia|].
  destruct (is_row_empty w) eqn:E; [|lia].
  intros Hj. destruct (decide (j = i)) as [->|Hne].
  - rewrite Nat.sub_diag. now intros [= <-].
  - replace (j - i) with (S (j - S i)) by lia. simpl.
    apply IH. lia.
Qed.

(** The rows passed over are empty. *)
Lemma skip_empty_between grid i j :
  i <= j < skip_empty grid i -> is_row_empty (row_at grid j) = true.
Proof.
  intros Hj. unfold row_at. destruct (grid !! j) as [row|] eqn:E; [|reflexivity].
  simpl. apply (skip_empty_rows_between (drop i grid) i j); [exact Hj|].
  rewrite lookup_drop. now replace (i + (j - i)) with j by lia.
Qed.

(** ** The turns of the data-extent loop inside [detect_blocks] *)

(** The test on the row after a run of empty rows, from the score of
    that row; past the end of the grid there is no row, and the empty
    row read there scores 0. *)
Lemma next_looks_header_score grid k s :
  header_score (row_at grid k) = Some s ->
  next_looks_header grid k = Some (0.65 <? s)%float.
Proof.
  intros Hs. unfold next_looks_header.
  destruct (Nat.ltb_spec k (length grid)) as [Hk|Hk]; [now rewrite Hs|].
  rewrite (row_at_beyond _ _ Hk) in Hs. injection Hs as <-. reflexivity.
Qed.

Lemma turns_next grid ds n st0 :
  turns grid ds (S n) st0
  = if (length grid <=? s_r st0)%nat then None
    else match scan_step grid ds st0 with
         | Some (Continue st1) => turns grid ds n st1
         | _ => None
         end.
Proof. reflexivity. Qed.

Lemma turns_more grid ds n st0 st :
  turns grid ds n st0 = Some st ->
  turns grid ds (S n) st0 = turns grid ds 1 st.
Proof.
  revert st0. induction n as [|n IH]; intros st0.
  - now intros [= <-].
  - rewrite (turns_next grid ds n st0), (turns_next grid ds (S n) st0).
    destruct (length grid <=? s_r st0)%nat; [discriminate|].
    destruct (scan_step grid ds st0) as [[st1|st1]|]; try discriminate.
    apply IH.
Qed.

Lemma turns_rows grid ds n st0 st :
  turns grid ds n st0 = Some st -> s_r st0 + n <= s_r st.
Proof.
  revert st0. induction n as [|n IH]; intros st0.
  - intros [= <-]. lia.
  - cbn [turns]. destruct (Nat.leb_spec (length grid) (s_r st0)); [discriminate|].
    destruct (scan_step grid ds st0) as [[st1|st1]|] eqn:E; try discriminate.
    intros Ht. apply IH in Ht.
    pose proof (scan_step_advances _ _ _ _ H E). lia.
Qed.

(** The turns that go on are turns of the loop. *)
Lemma turns_scan grid ds n st0 st fuel :
  turns grid ds n st0 = Some st ->
  scan (n + fuel) grid ds st0 = scan fuel grid ds st.
Proof.
  revert st0. induction n as [|n IH]; intros st0.
  - now intros [= <-].
  - cbn [turns Nat.add scan].
    destruct (length grid <=? s_r st0)%nat; [discriminate|].
    destruct (scan_step grid ds st0) as [[st1|st1]|]; try discriminate.
    apply IH.
Qed.

(** A turn that leaves the data-extent loop ends the turn of the outer
    loop: the block found, if it has rows, ends at [data_end], and the
    cursor moves to [max(r, data_end + 1)]. *)
Lemma detect_iteration_ends grid cursor h n st st' :
  find_next_header grid (skip_empty grid cursor) = Some (Some h) ->
  turns grid (skip_empty grid (rowIndex h + span h)) n
    (first_turn (skip_empty grid (rowIndex h + span h))) = Some st ->
  s_r st < length grid ->
  scan_step grid (skip_empty grid (rowIndex h + span h)) st = Some (Break st') ->
  exists emitted,
    detect_iteration grid cursor
    = Finished (Next emitted
                  (Z.to_nat (Z.max (Z.of_nat (s_r st')) (s_data_end st' + 1))))
    /\ block_ends_at grid h (skip_empty grid (rowIndex h + span h))
         (s_data_end st') emitted.
Proof.
  intros Hh Ht Hr Hstep.
  pose proof (find_next_header_found _ _ _ Hh) as (Hc & Hspan & Hin).
  set (ds := skip_empty grid (rowIndex h + span h)) in *.
  pose proof (turns_rows _ _ _ _ _ Ht) as Hn. cbn [first_turn s_r] in Hn.
  assert (Hscan : scan (length grid) grid ds (first_turn ds) = Finished st').
  { replace (length grid) with (n + S (length grid - S n)) by lia.
    rewrite (turns_scan _ _ _ _ _ _ Ht). cbn [scan].
    destruct (Nat.leb_spec (length grid) (s_r st)); [lia|]. now rewrite Hstep. }
  unfold detect_iteration, block_ends_at.
  destruct (Nat.leb_spec (length grid) (skip_empty grid cursor)); [lia|].
  rewrite Hh. fold ds. unfold first_turn in Hscan. rewrite Hscan. cbv zeta.
  destruct (extract_rows _ _ _ _) as [[|row rs] removed].
  - exists None. split; reflexivity.
  - eexists. split; [reflexivity|]. cbn [header_row header_span data_start data_end
      columns rows removed_totals fst snd]. repeat split. discriminate.
Qed.




(** The turns of the data-extent loop that lead to that state. *)
Example four_gaps_turns :
  let turn := scan_step four_gaps_grid 1 in
  turn (Scan 1 0 0) = Some (Continue (Scan 2 1 0))
  /\ turn (Scan 2 1 0) = Some (Continue (Scan 3 1 1))
  /\ turn (Scan 3 1 1) = Some (Continue (Scan 4 3 1))
  /\ turn (Scan 4 3 1) = Some (Continue (Scan 5 3 2))
  /\ turn (Scan 5 3 2) = Some (Continue (Scan 6 5 2))
  /\ turn (Scan 6 5 2) = Some (Continue (Scan 7 5 3))
  /\ turn (Scan 7 5 3) = Some (Continue (Scan 8 7 3))
  /\ turn (Scan 8 7 3) = Some (Break (Scan 9 7 3)).
Proof. vm_compute. repeat split. Qed.

(** The run of the detector on that grid: the block stops before the
    fourth empty row, and the row after it is in no block. *)
Example four_gaps_block :
  detect_sheet four_gaps_grid
  = Finished [Block 0 1 1 7 ["Produto"; "Qtd"; "Valor"]
                [sale_1; sale_2; sale_1; sale_2] 0].
Proof. vm_compute. reflexivity. Qed.

Lemma skip_empty_here grid r :
  r < length grid -> is_row_empty (row_at grid r) = false -> skip_empty grid r = r.
Proof.
  intros Hr He. unfold skip_empty.
  destruct (lookup_lt_is_Some_2 grid r Hr) as [row Hrow].
  rewrite (drop_S _ _ _ Hrow). cbn [skip_empty_rows].
  rewrite (row_at_lookup _ _ _ Hrow) in He. now rewrite He.
Qed.



(** After two rows of data only, the strong header is read as data. *)
Lemma second_header_after_two_rows_is_data :
  ~ strong_header_after_two_rows_ends_block.
Proof.
  intros H.
  specialize (H header_after_two_grid 1 (Scan 3 2 0) 2%float
                ltac:(simpl; lia) ltac:(simpl; lia)
                ltac:(vm_compute; reflexivity) ltac:(vm_compute; reflexivity)).
  vm_compute in H. discriminate H.
Qed.

(** A strong header with a stronger one below it ends the block and is
    passed over by the search that starts at it. *)
Lemma strong_header_passed_over : ~ strong_header_starts_new_table.
Proof.
  intros H.
  specialize (H passed_over_grid 0 (Header 0 1) 3 (Scan 4 3 0)
                1.2333333333333332%float (Header 6 1)
                ltac:(vm_compute; reflexivity) ltac:(vm_compute; reflexivity)
                ltac:(simpl; lia) ltac:(simpl; lia)
                ltac:(vm_compute; reflexivity) ltac:(vm_compute; reflexivity)
                ltac:(vm_compute; reflexivity)).
  discriminate H.
Qed.


(** The turns of the data-extent loop that lead to that state, and the
    one after it. *)
Example header_after_two_turns :
  let turn := scan_step header_after_two_grid 1 in
  turn (Scan 1 0 0) = Some (Continue (Scan 2 1 0))
  /\ turn (Scan 2 1 0) = Some (Continue (Scan 3 2 0))
  /\ turn (Scan 3 2 0) = Some (Continue (Scan 4 3 0))
  /\ header_score sales_header = Some 2%float.
Proof. vm_compute. repeat split. Qed.

(** The run of the detector on that grid: the second header and the
    row under it are rows of the first block. *)
Example header_after_two_block :
  detect_sheet header_after_two_grid
  = Finished [Block 0 1 1 4 ["Produto"; "Qtd"; "Valor"]
                [sale_1; sale_2; sales_header; sale_1] 0].
Proof. vm_compute. reflexivity. Qed.

(** ** Grids on which nothing is raised *)

Lemma to_int_defined (f : float) :
  PrimFloat.eqb f f = true -> PrimFloat.is_infinity f = false ->
  exists z, PyFloat.to_int f = Some z.
Proof.
  intros Hnan Hinf. unfold PyFloat.to_int, Prim2SF, PrimFloat.is_nan.
  rewrite Hnan. cbn [negb].
  destruct (PrimFloat.is_zero f); [eauto|]. rewrite Hinf.
  destruct (Z.frexp f) as [r e].
  destruct (shr_fexp _ _ _ _ _) as [shr e'].
  destruct (shr_m shr); eauto.
Qed.

Lemma normalize_cell_finite (v : cell) :
  finite_cell v = true -> finite_cell (normalize_cell v) = true.
Proof.
  destruct v as [|b|z|f|t|t]; try reflexivity; simpl.
  - intros H. now destruct (PrimFloat.eqb f f).
  - intros _. now repeat match goal with |- context [if ?c then _ else _] => destruct c end.
  - intros _. now destruct (String.eqb _ _).
Qed.

Lemma numeric_has_decimal_defined (v : cell) :
  finite_cell v = true -> exists b, _numeric_has_decimal v = Some b.
Proof.
  intros Hv. unfold _numeric_has_decimal.
  destruct v as [|b|z|f|t|t]; try (simpl; eauto; fail).
  - simpl. destruct (PrimFloat.eqb f f) eqn:E; simpl; [|eauto].
    simpl in Hv. apply negb_true_iff in Hv.
    destruct (to_int_defined f E Hv) as [z ->]. simpl. eauto.
  - destruct (normalize_cell_str t) as [-> | [-> | (-> & _)]]; eauto.
  - simpl. destruct (String.eqb _ _); eauto.
Qed.

Lemma tally_row_defined (row : list cell) (acc : tally) :
  finite_row row -> exists t, tally_row acc row = Some t.
Proof.
  intros Hrow. revert acc. induction Hrow as [|v row Hv _ IH]; intros acc.
  - simpl. eauto.
  - cbn [tally_row]. unfold tally_cell.
    destruct (is_none (normalize_cell v)); [simpl; apply IH|].
    destruct (numeric_has_decimal_defined (normalize_cell v)
                (normalize_cell_finite v Hv)) as [b ->].
    simpl. apply IH.
Qed.

Lemma header_score_defined (row : list cell) :
  finite_row row -> exists s, header_score row = Some s.
Proof.
  intros Hrow. unfold header_score.
  destruct (non_empty_count row <? 2)%nat; [eauto|].
  destruct (tally_row_defined row (Tally 0 0 0 0 ∅) Hrow) as [t ->].
  simpl. eauto.
Qed.

Lemma row_at_finite (grid : list (list cell)) (r : nat) :
  finite_grid grid -> finite_row (row_at grid r).
Proof.
  intros Hg. unfold row_at. destruct (grid !! r) as [row|] eqn:E; simpl.
  - unfold finite_grid in Hg. rewrite Forall_forall in Hg.
    apply Hg. eapply list_elem_of_lookup_2, E.
  - constructor.
Qed.

Lemma header_step_defined grid best r :
  finite_grid grid -> exists best', header_step grid best r = Some best'.
Proof.
  intros Hg. unfold header_step.
  destruct (is_row_empty _); [eauto|].
  destruct (header_score_defined _ (row_at_finite grid r Hg)) as [s0 ->]. simpl.
  destruct (s0 <=? 0.4)%float; [eauto|].
  destruct (header_score_defined _ (row_at_finite grid (r + 1) Hg)) as [s1 ->].
  destruct (header_score_defined _ (row_at_finite grid (r + 2) Hg)) as [s2 ->].
  simpl. destruct best as [b|]; [|eauto].
  destruct (c_score b <? _)%float; eauto.
Qed.

Lemma header_scan_defined grid rs best :
  finite_grid grid -> exists best', header_scan grid best rs = Some best'.
Proof.
  intros Hg. revert best. induction rs as [|r rs IH]; intros best; simpl; [eauto|].
  destruct (header_step_defined grid best r Hg) as [b ->]. simpl. apply IH.
Qed.

Lemma find_next_header_defined grid start :
  finite_grid grid -> exists h, find_next_header grid start = Some h.
Proof.
  intros Hg. unfold find_next_header.
  destruct (header_scan_defined grid
              (seq start (Nat.min (length grid) (start + 300) - start)) None Hg)
    as [b ->].
  simpl. eauto.
Qed.

Lemma scan_step_defined grid data_start st :
  finite_grid grid -> exists next, scan_step grid data_start st = Some next.
Proof.
  intros Hg. unfold scan_step, next_looks_header.
  destruct (looks_like_section_title_row _ && _); [eauto|].
  destruct (is_row_empty _).
  - destruct (_ <? length grid)%nat.
    + destruct (header_score_defined _
                  (row_at_finite grid (skip_empty grid (s_r st)) Hg)) as [s ->].
      simpl. destruct (negb _ && _ && _); eauto.
    + simpl. destruct (_ && _); eauto.
  - destruct (header_score_defined _ (row_at_finite grid (s_r st) Hg)) as [s ->].
    simpl. destruct (_ && _); eauto.
Qed.

Lemma scan_not_raised fuel grid data_start st :
  finite_grid grid -> scan fuel grid data_start st <> Raised.
Proof.
  intros Hg. revert st. induction fuel as [|fuel IH]; intros st; simpl.
  - destruct (length grid <=? s_r st)%nat; discriminate.
  - destruct (length grid <=? s_r st)%nat; [discriminate|].
    destruct (scan_step_defined grid data_start st Hg) as [[st'|st'] ->];
      [apply IH | discriminate].
Qed.

Lemma detect_iteration_not_raised grid cursor :
  finite_grid grid -> detect_iteration grid cursor <> Raised.
Proof.
  intros Hg. unfold detect_iteration.
  destruct (length grid <=? _)%nat; [discriminate|].
  destruct (find_next_header_defined grid (skip_empty grid cursor) Hg) as [[h|] ->];
    [|discriminate].
  destruct (scan _ _ _ _) as [st| |] eqn:Es; try discriminate.
  - now destruct (extract_rows _ _ _ _).
  - now apply scan_not_raised in Es.
Qed.

Lemma detect_loop_not_raised fuel grid cursor blocks :
  finite_grid grid -> detect_loop fuel grid cursor blocks <> Raised.
Proof.
  intros Hg. revert cursor blocks. induction fuel as [|fuel IH];
    intros cursor blocks; simpl.
  - destruct (length grid <=? cursor)%nat; discriminate.
  - destruct (length grid <=? cursor)%nat; [discriminate|].
    destruct (detect_iteration grid cursor) as [[|emitted cursor']| |] eqn:E;
      try discriminate; [apply IH|].
    now apply detect_iteration_not_raised in E.
Qed.

(** ** The outer loop *)

Lemma detect_iteration_advances grid cursor emitted cursor' :
  detect_iteration grid cursor = Finished (Next emitted cursor') ->
  cursor < cursor'.
Proof.
  unfold detect_iteration.
  pose proof (skip_empty_ge grid cursor) as Hc.
  set (c := skip_empty grid cursor) in *.
  destruct (length grid <=? c)%nat; [discriminate|].
  destruct (find_next_header grid c) as [[h|]|] eqn:Eh; try discriminate.
  - apply find_next_header_within in Eh as (Hrow & _ & Hspan).
    pose proof (skip_empty_ge grid (rowIndex h + span h)) as Hds.
    set (ds := skip_empty grid (rowIndex h + span h)) in *.
    destruct (scan _ _ _ _) as [st| |] eqn:Es; try discriminate.
    apply scan_forward in Es. simpl in Es.
    destruct (extract_rows _ _ _ _) as [rows removed].
    intros [= _ <-]. lia.
  - intros [= _ <-]. lia.
Qed.

Lemma detect_iteration_has_fuel grid cursor :
  detect_iteration grid cursor <> OutOfFuel.
Proof.
  unfold detect_iteration.
  destruct (length grid <=? _)%nat; [discriminate|].
  destruct (find_next_header grid _) as [[h|]|]; try discriminate.
  destruct (scan _ _ _ _) as [st| |] eqn:Es; try discriminate.
  - now destruct (extract_rows _ _ _ _).
  - apply scan_has_fuel in Es; [contradiction | simpl; lia].
Qed.

Lemma detect_loop_has_fuel fuel grid cursor blocks :
  length grid - cursor <= fuel ->
  detect_loop fuel grid cursor blocks <> OutOfFuel.
Proof.
  revert cursor blocks. induction fuel as [|fuel IH]; intros cursor blocks Hf; simpl.
  - destruct (Nat.leb_spec (length grid) cursor); [discriminate | lia].
  - destruct (Nat.leb_spec (length grid) cursor); [discriminate|].
    destruct (detect_iteration grid cursor) as [[|emitted cursor']| |] eqn:E;
      try discriminate.
    + apply IH. apply detect_iteration_advances in E. lia.
    + now apply detect_iteration_has_fuel in E.
Qed.

Lemma detect_blocks_has_fuel sheets : detect_blocks sheets <> OutOfFuel.
Proof.
  induction sheets as [|[sheet_name grid] sheets IH]; simpl; [discriminate|].
  destruct (detect_sheet grid) eqn:E; try discriminate.
  - destruct (detect_blocks sheets); try discriminate. contradiction.
  - unfold detect_sheet in E. apply detect_loop_has_fuel in E; [contradiction | lia].
Qed.

(** C10 -- [detect_blocks] terminates on every grid: each turn of the
    segmentation loop moves the cursor forward (by one row past the
    empty rows when no header is found in the window of 300 rows, past
    the region read when a block region is scanned), so one turn for
    each row of the grid is enough to reach its end; the run ends with
    the list of blocks, or with the exception that an infinite float
    raises in [header_score]. *)
Theorem detect_blocks_terminates :
  (forall grid cursor emitted cursor',
      detect_iteration grid cursor = Finished (Next emitted cursor') ->
      cursor < cursor')
  /\ (forall grid cursor,
        skip_empty grid cursor < length grid ->
        find_next_header grid (skip_empty grid cursor) = Some None ->
        detect_iteration grid cursor
        = Finished (Next None (S (skip_empty grid cursor))))
  /\ (forall grid start h,
        find_next_header grid start = Some (Some h) ->
        start <= rowIndex h < start + 300)
  /\ (forall grid, detect_sheet grid <> OutOfFuel)
  /\ (forall sheets, detect_blocks sheets <> OutOfFuel)
  /\ (forall grid, finite_grid grid ->
                   exists blocks, detect_sheet grid = Finished blocks).
Proof.
  split; [exact detect_iteration_advances|].
  split; [|split; [|split; [|split]]].
  - intros grid cursor Hc Hh. unfold detect_iteration.
    destruct (Nat.leb_spec (length grid) (skip_empty grid cursor)); [lia|].
    now rewrite Hh.
  - intros grid start h Hh. apply find_next_header_within in Hh. lia.
  - intros grid. apply detect_loop_has_fuel. lia.
  - exact detect_blocks_has_fuel.
  - intros grid Hg. destruct (detect_sheet grid) as [blocks| |] eqn:E; [eauto| |].
    + now apply detect_loop_not_raised in E.
    + apply detect_loop_has_fuel in E; [contradiction | lia].
Qed.

Lemma detect_blocks_terminates_witness :
  detect_iteration four_gaps_grid 9 = Finished (Next None 10)
  /\ 9 < 10.
Proof.
  assert (H : detect_iteration four_gaps_grid 9 = Finished (Next None 10))
    by (vm_compute; reflexivity).
  split; [exact H|].
  exact (proj1 detect_blocks_terminates four_gaps_grid 9 None 10 H).
Defined.

(** ** The rows of a block *)

Lemma extract_fold (cols : list string) (l : list (list cell))
  (acc : list (list cell) * nat) :
  fold_left (extract_step cols) l acc
  = (acc.1 ++ filter (fun row => (0 <? non_empty_count row)%nat = true)
               (map (clean_row cols)
                  (filter (fun src => is_row_empty src = false
                                      /\ looks_like_total_row src = false) l)),
     acc.2 + length (filter (fun src => dropped_total src = true) l)).
Proof.
  revert acc. induction l as [|src l IH]; intros [rows n]; simpl.
  - now rewrite app_nil_r, Nat.add_0_r.
  - rewrite IH. unfold extract_step, dropped_total.
    rewrite !filter_cons. simpl map.
    destruct (is_row_empty src) eqn:E1, (looks_like_total_row src) eqn:E2;
      cbn [negb andb fst snd];
      repeat case_decide;
      try match goal with H : _ /\ _ |- _ => destruct H end;
      try match goal with H : ~ (_ /\ _) |- _ => exfalso; apply H; now split end;
      try discriminate; try congruence; try reflexivity.
    + cbn [length]. f_equal. lia.
    + simpl map. rewrite filter_cons.
      destruct (0 <? non_empty_count (clean_row cols src))%nat eqn:E3;
        cbn [fst snd]; case_decide; try congruence.
      now rewrite <- app_assoc.
Qed.

Lemma clean_row_length cols row : length (clean_row cols row) = length cols.
Proof. unfold clean_row. now rewrite length_map, length_seq. Qed.

Lemma region_empty grid ds de : (de < Z.of_nat ds)%Z -> region grid ds de = [].
Proof.
  intros H. unfold region.
  now replace (Z.to_nat (de + 1 - Z.of_nat ds)) with 0 by lia.
Qed.

Lemma extract_rows_spec grid cols ds de :
  extract_rows grid cols ds de
  = (filter (fun row => (0 <? non_empty_count row)%nat = true)
       (map (clean_row cols)
          (filter (fun src => is_row_empty src = false
                              /\ looks_like_total_row src = false)
             (region grid ds de))),
     length (filter (fun src => dropped_total src = true) (region grid ds de))).
Proof.
  unfold extract_rows. destruct (Z.leb_spec (Z.of_nat ds) de).
  - now rewrite extract_fold.
  - now rewrite region_empty by lia.
Qed.

Lemma extract_rows_invariant grid b rows removed :
  extract_rows grid (columns b) (data_start b) (data_end b) = (rows, removed) ->
  Forall (row_invariant grid b) rows
  /\ removed = length (filter (fun src => dropped_total src = true)
                         (region grid (data_start b) (data_end b))).
Proof.
  rewrite extract_rows_spec. intros [= <- <-]. split; [|reflexivity].
  apply Forall_forall. intros row Hrow.
  apply list_elem_of_filter in Hrow as [Hne Hrow].
  apply list_elem_of_fmap in Hrow as [src [-> Hsrc]].
  apply list_elem_of_filter in Hsrc as [[He Ht] Hsrc].
  unfold region in Hsrc.
  apply list_elem_of_fmap in Hsrc as [rr [-> Hrr]].
  apply elem_of_seq in Hrr.
  apply Nat.ltb_lt in Hne.
  destruct (is_row_empty_in_range _ _ He) as [Hlt Hlook].
  unfold row_invariant. rewrite clean_row_length.
  split; [reflexivity|]. split; [exact Hne|]. split.
  - unfold is_row_empty. apply Nat.eqb_neq. lia.
  - exists rr, (row_at grid rr). repeat split; try assumption; lia.
Qed.

Lemma detect_iteration_invariant grid cursor b cursor' :
  detect_iteration grid cursor = Finished (Next (Some b) cursor') ->
  block_invariant grid b.
Proof.
  unfold detect_iteration.
  destruct (length grid <=? _)%nat; [discriminate|].
  destruct (find_next_header grid _) as [[h|]|]; try discriminate.
  destruct (scan _ _ _ _) as [st| |]; try discriminate.
  destruct (extract_rows _ _ _ _) as [rs removed] eqn:E.
  destruct rs as [|row rs]; [discriminate|].
  intros [= <- _].
  apply (extract_rows_invariant grid
           (Block (rowIndex h) (span h) (skip_empty grid (rowIndex h + span h))
              (s_data_end st) (build_header grid (rowIndex h) (span h))
              (row :: rs) removed)) in E as [H1 H2].
  split; [discriminate | split; assumption].
Qed.

Lemma detect_loop_invariant fuel grid cursor blocks result :
  Forall (block_invariant grid) blocks ->
  detect_loop fuel grid cursor blocks = Finished result ->
  Forall (block_invariant grid) result.
Proof.
  revert cursor blocks. induction fuel as [|fuel IH]; intros cursor blocks Hb; simpl.
  - destruct (length grid <=? cursor)%nat; [|discriminate]. now intros [= <-].
  - destruct (length grid <=? cursor)%nat; [now intros [= <-]|].
    destruct (detect_iteration grid cursor) as [[|emitted cursor']| |] eqn:E;
      try discriminate.
    + now intros [= <-].
    + apply IH. apply Forall_app. split; [exact Hb|].
      destruct emitted as [b|]; simpl; [|constructor].
      constructor; [|constructor]. eapply detect_iteration_invariant, E.
Qed.

(** The blocks of a sheet of the result are those of its grid. *)
Lemma detect_blocks_sheet sheets result sheet_name blocks :
  detect_blocks sheets = Finished result ->
  (sheet_name, blocks) ∈ result ->
  exists grid, (sheet_name, grid) ∈ sheets /\ detect_sheet grid = Finished blocks.
Proof.
  revert result. induction sheets as [|[name grid] sheets IH]; intros result; simpl.
  - intros [= <-] Hin. inversion Hin.
  - destruct (detect_sheet grid) as [bs| |] eqn:E; try discriminate.
    destruct (detect_blocks sheets) as [res| |]; try discriminate.
    intros [= <-] Hin. apply elem_of_cons in Hin as [[= -> ->]|Hin].
    + exists grid. split; [left | exact E].
    + destruct (IH res eq_refl Hin) as [g [H1 H2]].
      exists g. split; [now right | exact H2].
Qed.

(** C7 -- In every block that [detect_blocks] emits, each row is as
    long as the list of columns and keeps a cell that is not empty (so
    no row is fully empty); each row comes from a row of the region
    that is not classified as a total, and [removed_totals] counts the
    rows of the region that are, one for each, as for the row
    [["Total", "", 450]] among sales. *)
Theorem emitted_rows_invariant sheets result sheet_name blocks b :
  detect_blocks sheets = Finished result ->
  (sheet_name, blocks) ∈ result ->
  b ∈ blocks ->
  (exists grid,
      (sheet_name, grid) ∈ sheets
      /\ rows b <> []
      /\ Forall (row_invariant grid b) (rows b)
      /\ removed_totals b
         = length (filter (fun src => dropped_total src = true)
                     (region grid (data_start b) (data_end b))))
  /\ detect_blocks [("Vendas", sales_grid)]
     = Finished [("Vendas",
                  [Block 0 1 1 3 ["Produto"; "Qtd"; "Valor"] [sale_1; sale_2] 1])].
Proof.
  intros Hd Hs Hb. split; [|vm_compute; reflexivity].
  destruct (detect_blocks_sheet _ _ _ _ Hd Hs) as [grid [Hin Hg]].
  exists grid. split; [exact Hin|].
  apply detect_loop_invariant in Hg; [|constructor].
  rewrite Forall_forall in Hg. exact (Hg b Hb).
Qed.

Lemma emitted_rows_invariant_witness :
  exists grid,
    ("Vendas", grid) ∈ [("Vendas", sales_grid)]
    /\ [sale_1; sale_2] <> []
    /\ Forall (row_invariant grid
                 (Block 0 1 1 3 ["Produto"; "Qtd"; "Valor"] [sale_1; sale_2] 1))
              [sale_1; sale_2]
    /\ 1 = length (filter (fun src => dropped_total src = true) (region grid 1 3)).
Proof.
  apply (emitted_rows_invariant [("Vendas", sales_grid)]
           [("Vendas", [Block 0 1 1 3 ["Produto"; "Qtd"; "Valor"] [sale_1; sale_2] 1])]
           "Vendas"
           [Block 0 1 1 3 ["Produto"; "Qtd"; "Valor"] [sale_1; sale_2] 1]
           (Block 0 1 1 3 ["Produto"; "Qtd"; "Valor"] [sale_1; sale_2] 1)).
  - vm_compute. reflexivity.
  - apply list_elem_of_here.
  - apply list_elem_of_here.
Defined.

(** * The column pass of the pre-cleaner *)

Section Columns.

Import cleaner.

Lemma column_of (df : frame) (lc : nat * list cell) :
  NoDup (map fst (cols df)) -> lc ∈ cols df -> column df lc.1 = lc.2.
Proof.
  unfold column. induction (cols df) as [|x l IH]; intros Hnd Hin.
  - inversion Hin.
  - simpl in *. apply NoDup_cons in Hnd as [Hx Hnd].
    apply elem_of_cons in Hin as [->|Hin].
    + now rewrite Nat.eqb_refl.
    + destruct (Nat.eqb_spec x.1 lc.1) as [E|E].
      * exfalso. apply Hx. rewrite E. apply list_elem_of_fmap. now exists lc.
      * now apply IH.
Qed.

(** The exact ratio is above 0.02 when 100 times the count is above
    twice the number of rows. *)
Lemma ratio_above (count n : nat) :
  0 < n ->
  negb (Qle_bool (inject_Z (Z.of_nat count) / inject_Z (Z.of_nat n)) 0.02) = true
  <-> 2 * n < 100 * count.
Proof.
  intros Hn. rewrite negb_true_iff, <- not_true_iff_false, Qle_bool_iff.
  unfold Qle, Qdiv, Qmult, Qinv, inject_Z. simpl Qnum. simpl Qden.
  destruct n as [|n]; [lia|].
  change (Z.of_nat (S n)) with (Z.pos (Pos.of_succ_nat n)). cbn [Qnum Qden].
  rewrite Pos.mul_1_l, Zpos_P_of_succ_nat. lia.
Qed.

Lemma dense_populated (df : frame) (lc : nat * list cell) :
  NoDup (map fst (cols df)) -> 0 < nrows df -> lc ∈ cols df ->
  dense df lc.1 = true <-> populated df lc.
Proof.
  intros Hnd Hn Hin. unfold dense, populated.
  rewrite (column_of df lc Hnd Hin). now apply ratio_above.
Qed.

Lemma select_filter (df : frame) (l : list (nat * list cell)) :
  NoDup (map fst (cols df)) -> 0 < nrows df -> l ⊆ cols df ->
  map (fun col => (col, column df col))
      (filter (fun col => dense df col = true) (map fst l))
  = filter (populated df) l.
Proof.
  intros Hnd Hn. induction l as [|lc l IH]; intros Hsub; [reflexivity|].
  assert (Hin : lc ∈ cols df) by (apply Hsub; left).
  assert (Hl : l ⊆ cols df) by (intros x Hx; apply Hsub; now right).
  simpl map. rewrite !filter_cons.
  pose proof (dense_populated df lc Hnd Hn Hin) as Hd.
  repeat case_decide; try tauto.
  simpl. rewrite (column_of df lc Hnd Hin), IH by exact Hl. now destruct lc.
Qed.

Lemma notna_count_le (values : list cell) : notna_count values <= length values.
Proof. apply length_filter. Qed.

End Columns.

(** C9 (amended) -- When some column of the frame has more than 2% of
    its cells not null, [remove_empty_columns] keeps exactly the columns
    that do, in their order, and drops those whose ratio is at most 2%;
    when no column has (or the frame has no row or no column), it
    returns the frame as it is. *)
Theorem remove_empty_columns_keeps_populated (df : cleaner.frame) :
  well_formed df ->
  (Exists (populated df) (cleaner.cols df) ->
   cleaner.remove_empty_columns df
   = cleaner.Frame (cleaner.nrows df) (filter (populated df) (cleaner.cols df)))
  /\ (~ Exists (populated df) (cleaner.cols df) ->
      cleaner.remove_empty_columns df = df).
Proof.
  intros [Hnd Hlen]. unfold cleaner.remove_empty_columns, cleaner.empty.
  destruct (Nat.eqb_spec (cleaner.nrows df) 0) as [H0|H0]; simpl.
  { (* no row: no column is populated *)
    split; [|reflexivity]. intros Hex. exfalso.
    apply Exists_exists in Hex as [lc [Hin Hp]].
    rewrite Forall_forall in Hlen. specialize (Hlen lc Hin).
    pose proof (notna_count_le lc.2). unfold populated in Hp. lia. }
  destruct (Nat.eqb_spec (length (cleaner.cols df)) 0) as [Hc|Hc]; simpl.
  { split; [|reflexivity]. intros Hex. exfalso.
    apply Exists_exists in Hex as [lc [Hin _]].
    destruct (cleaner.cols df); [inversion Hin | discriminate Hc]. }
  assert (Hsel := select_filter df (cleaner.cols df) Hnd ltac:(lia) ltac:(reflexivity)).
  destruct (filter _ (map fst (cleaner.cols df))) as [|col keep] eqn:E.
  - simpl in Hsel. split; [|reflexivity]. intros Hex. exfalso.
    apply Exists_exists in Hex as [lc [Hin Hp]].
    assert (Hm : lc ∈ filter (populated df) (cleaner.cols df))
      by (apply list_elem_of_filter; now split).
    rewrite <- Hsel in Hm. inversion Hm.
  - split.
    + intros _. unfold cleaner.select. now rewrite Hsel.
    + intros Hno. exfalso. apply Hno.
      assert (Hm : (col, cleaner.column df col) ∈ filter (populated df) (cleaner.cols df))
        by (rewrite <- Hsel; left).
      apply list_elem_of_filter in Hm as [Hp Hin].
      apply Exists_exists. eauto.
Qed.

Lemma remove_empty_columns_keeps_populated_witness :
  cleaner.remove_empty_columns padded_frame
  = cleaner.Frame 2 (filter (populated padded_frame) (cleaner.cols padded_frame)).
Proof.
  assert (Hwf : well_formed padded_frame).
  { split.
    - apply (bool_decide_unpack _). vm_compute. exact I.
    - repeat constructor. }
  apply (proj1 (remove_empty_columns_keeps_populated padded_frame Hwf)).
  apply Exists_cons_hd. unfold populated. simpl. vm_compute. lia.
Defined.

(** A frame none of whose columns is populated is returned with all of
    them. *)
Lemma null_columns_are_kept : ~ keeps_exactly_the_populated_columns.
Proof.
  intros H. specialize (H null_frame).
  assert (Hwf : well_formed null_frame).
  { split.
    - apply (bool_decide_unpack _). vm_compute. exact I.
    - repeat constructor. }
  specialize (H Hwf).
  assert (Hout : cleaner.cols (cleaner.remove_empty_columns null_frame)
                 = [(0, [CNone]); (1, [CNone])]) by (vm_compute; reflexivity).
  rewrite Hout in H.
  assert (Hin : (0, [CNone]) ∈ filter (populated null_frame) (cleaner.cols null_frame))
    by (rewrite <- H; left).
  apply list_elem_of_filter in Hin as [Hp _].
  unfold populated in Hp. simpl in Hp. vm_compute in Hp. lia.
Qed.

(** * What the matcher of regular expressions accepts *)

Section Matcher.

Lemma last_of_cons (prev : option ascii) (c : ascii) (m : list ascii) :
  last_of prev (c :: m) = last_of (Some c) m.
Proof.
  unfold last_of. destruct m as [|d m]; [reflexivity|].
  change (last (c :: d :: m)) with (last (d :: m)).
  destruct (last (d :: m)) eqn:E; [reflexivity|].
  apply last_None in E. discriminate E.
Qed.

Lemma denotes_Fail prev m rest : ~ denotes Re.Fail prev m rest.
Proof. intros H. inversion H. Qed.

Lemma nullable_denotes (r : Re.regex) (prev : option ascii) (rest : list ascii) :
  Re.nullable prev rest r = true <-> denotes r prev [] rest.
Proof.
  induction r as [| |p|r1 IH1 r2 IH2|r1 IH1 r2 IH2|r IH| | |]; simpl; split; intros H;
    try discriminate H; try (now constructor); try (now inversion H).
  - apply andb_true_iff in H as [H1 H2].
    exact (denotes_Seq r1 r2 prev [] [] rest (proj1 IH1 H1) (proj1 IH2 H2)).
  - inversion H as [| |? ? ? m1 m2 ? Ha Hb Hr Hp Hm| | | | | | |]; subst.
    apply app_eq_nil in Hm as [-> ->].
    apply andb_true_iff. split; [now apply IH1 | now apply IH2].
  - apply orb_true_iff in H as [H|H];
      [apply denotes_Alt_l; now apply IH1 | apply denotes_Alt_r; now apply IH2].
  - apply orb_true_iff. inversion H; subst; [left; now apply IH1 | right; now apply IH2].
  - destruct prev; [discriminate | constructor].
  - destruct rest as [|c [|d rest]]; try discriminate H.
    + constructor. now left.
    + apply Ascii.eqb_eq in H as ->. constructor. now right.
  - inversion H as [| | | | | | | |? ? [->| ->]|]; reflexivity.
Qed.

Lemma denotes_alt (a b : Re.regex) prev m rest :
  denotes (Re.alt a b) prev m rest <-> denotes a prev m rest \/ denotes b prev m rest.
Proof.
  split.
  - intros H. destruct a; simpl in H; try (right; exact H);
      destruct b; simpl in H; try (left; exact H); inversion H; subst; auto.
  - intros [H|H]; destruct a; try (inversion H; fail); simpl; try exact H;
      destruct b; try (inversion H; fail); simpl; try exact H;
      first [apply denotes_Alt_l; exact H | apply denotes_Alt_r; exact H].
Qed.

Lemma denotes_Seq_iff (a b : Re.regex) prev m rest :
  denotes (Re.Seq a b) prev m rest
  <-> exists m1 m2, m = m1 ++ m2
                    /\ denotes a prev m1 (m2 ++ rest)
                    /\ denotes b (last_of prev m1) m2 rest.
Proof.
  split.
  - intros H. inversion H; subst. eauto.
  - intros (m1 & m2 & -> & Ha & Hb). now constructor.
Qed.

Lemma denotes_Empty_iff prev m rest : denotes Re.Empty prev m rest <-> m = [].
Proof. split; [now inversion 1 | intros ->; constructor]. Qed.

Lemma denotes_seq (a b : Re.regex) prev m rest :
  denotes (Re.seq a b) prev m rest <-> denotes (Re.Seq a b) prev m rest.
Proof.
  rewrite denotes_Seq_iff.
  assert (Hfail_l : forall x, Re.seq Re.Fail x = Re.Fail) by reflexivity.
  assert (Hfail_r : forall x, Re.seq x Re.Fail = Re.Fail) by (now intros []).
  destruct (match b with Re.Fail => true | _ => false end) eqn:Eb.
  { destruct b; try discriminate Eb. rewrite Hfail_r. split.
    - intros H. now apply denotes_Fail in H.
    - intros (m1 & m2 & _ & _ & H). now apply denotes_Fail in H. }
  destruct a; try (destruct b; try discriminate Eb; simpl; now rewrite denotes_Seq_iff).
  - split.
    + intros H. now apply denotes_Fail in H.
    + intros (m1 & m2 & _ & H & _). now apply denotes_Fail in H.
  - assert (Hs : Re.seq Re.Empty b = b) by (destruct b; try discriminate Eb; reflexivity).
    rewrite Hs. split.
    + intros H. exists [], m. split; [reflexivity|]. split; [constructor | exact H].
    + intros (m1 & m2 & -> & H1 & H2). apply denotes_Empty_iff in H1 as ->. exact H2.
Qed.

(** The derivative by [c] matches what the expression matches after a
    first character [c]. *)
Lemma deriv_denotes (r : Re.regex) prev c m rest :
  denotes (Re.deriv prev c (m ++ rest) r) (Some c) m rest
  <-> denotes r prev (c :: m) rest.
Proof.
  revert prev m rest.
  induction r as [| |p|r1 IH1 r2 IH2|r1 IH1 r2 IH2|r IH| | |]; intros prev m rest;
    cbn [Re.deriv];
    try (split; intros H; [now apply denotes_Fail in H | now inversion H]).
  - (* a class *)
    destruct (p c) eqn:Ep; split; intros H.
    + apply denotes_Empty_iff in H as ->. now constructor.
    + inversion H; subst. constructor.
    + now apply denotes_Fail in H.
    + inversion H; subst. congruence.
  - (* a sequence *)
    rewrite denotes_alt, denotes_seq, !denotes_Seq_iff. split.
    + intros [(m1 & m2 & -> & Ha & Hb) | H].
      * exists (c :: m1), m2. split; [reflexivity|]. split.
        -- apply IH1. now rewrite <- app_assoc in Ha.
        -- now rewrite last_of_cons.
      * destruct (Re.nullable prev (c :: m ++ rest) r1) eqn:En;
          [|now apply denotes_Fail in H].
        exists [], (c :: m). split; [reflexivity|]. split.
        -- now apply nullable_denotes.
        -- now apply IH2.
    + intros (m1 & m2 & Hm & Ha & Hb). destruct m1 as [|c' m1].
      * right. simpl in Hm. subst m2. apply nullable_denotes in Ha.
        simpl in Ha. rewrite Ha. now apply IH2.
      * left. injection Hm as <- ->. exists m1, m2. split; [reflexivity|]. split.
        -- rewrite <- app_assoc. now apply IH1.
        -- now rewrite <- (last_of_cons prev).
  - (* an alternative *)
    rewrite denotes_alt, IH1, IH2. split.
    + intros [H|H]; [now apply denotes_Alt_l | now apply denotes_Alt_r].
    + intros H. inversion H; subst; auto.
  - (* a repetition *)
    rewrite denotes_seq, denotes_Seq_iff. split.
    + intros (m1 & m2 & -> & Ha & Hb).
      apply (denotes_Star_more r prev c m1 m2 rest).
      * apply IH. now rewrite <- app_assoc in Ha.
      * now rewrite last_of_cons.
    + intros H. inversion H; subst.
      match goal with
      | Ha : denotes r prev (c :: ?m1) (?m2 ++ rest),
        Hb : denotes (Re.Star r) _ ?m2 rest |- _ =>
          exists m1, m2; split; [reflexivity|]; split;
          [rewrite <- app_assoc; now apply IH | now rewrite <- (last_of_cons prev)]
      end.
Qed.

(** [match_at] finds a prefix of the input that the expression
    matches. *)
Theorem match_at_denotes (r : Re.regex) prev l :
  Re.match_at prev l r = true
  <-> exists m rest, l = m ++ rest /\ denotes r prev m rest.
Proof.
  revert prev r. induction l as [|c l IH]; intros prev r; cbn [Re.match_at].
  - rewrite orb_false_r, nullable_denotes. split.
    + intros H. now exists [], [].
    + intros (m & rest & Hm & H). symmetry in Hm.
      apply app_eq_nil in Hm as [-> ->]. exact H.
  - rewrite orb_true_iff, nullable_denotes, IH. split.
    + intros [H | (m & rest & -> & H)].
      * now exists [], (c :: l).
      * exists (c :: m), rest. split; [reflexivity|]. now apply deriv_denotes.
    + intros (m & rest & Hm & H). destruct m as [|c' m].
      * left. simpl in Hm. now subst rest.
      * right. injection Hm as <- ->. exists m, rest. split; [reflexivity|].
        now apply deriv_denotes.
Qed.

End Matcher.

(** * The numeric shapes of [convert_brazilian_numbers] *)

Section Shapes.

Lemma denotes_Class_iff p prev m rest :
  denotes (Re.Class p) prev m rest <-> exists c, m = [c] /\ p c = true.
Proof.
  split.
  - intros H. inversion H; subst. eauto.
  - intros (c & -> & Hc). now constructor.
Qed.

Lemma denotes_Alt_iff a b prev m rest :
  denotes (Re.Alt a b) prev m rest <-> denotes a prev m rest \/ denotes b prev m rest.
Proof.
  split.
  - intros H. inversion H; subst; auto.
  - intros [H|H]; [now apply denotes_Alt_l | now apply denotes_Alt_r].
Qed.

Lemma denotes_Bos_iff prev m rest :
  denotes Re.Bos prev m rest <-> prev = None /\ m = [].
Proof.
  split.
  - intros H. now inversion H.
  - intros [-> ->]. constructor.
Qed.

Lemma denotes_Eos_iff prev m rest :
  denotes Re.Eos prev m rest <-> m = [] /\ (rest = [] \/ rest = ["010"%char]).
Proof.
  split.
  - intros H. inversion H; subst. now split.
  - intros [-> H]. now constructor.
Qed.

Lemma denotes_Star_Class p prev m rest :
  denotes (Re.Star (Re.Class p)) prev m rest <-> Forall (fun c => p c = true) m.
Proof.
  split.
  - intros H. remember (Re.Star (Re.Class p)) as r eqn:Er.
    induction H; try discriminate Er; [constructor|].
    injection Er as ->.
    match goal with H1 : denotes (Re.Class p) _ (_ :: _) _ |- _ =>
      apply denotes_Class_iff in H1 as (c' & [= -> ->] & Hc) end.
    constructor; [exact Hc | now apply IHdenotes2].
  - intros H. revert prev. induction H as [|c m Hc _ IH]; intros prev; [constructor|].
    apply (denotes_Star_more (Re.Class p) prev c [] m rest); [now constructor | apply IH].
Qed.

Lemma denotes_plus_Class p prev m rest :
  denotes (Re.plus (Re.Class p)) prev m rest
  <-> m <> [] /\ Forall (fun c => p c = true) m.
Proof.
  unfold Re.plus. rewrite denotes_Seq_iff. split.
  - intros (m1 & m2 & -> & H1 & H2). apply denotes_Class_iff in H1 as (c & -> & Hc).
    apply denotes_Star_Class in H2. split; [discriminate | now constructor].
  - intros [Hne H]. destruct H as [|c m Hc H]; [contradiction|].
    exists [c], m. split; [reflexivity|]. split.
    + apply denotes_Class_iff. eauto.
    + now apply denotes_Star_Class.
Qed.

Lemma denotes_chr c prev m rest : denotes (Re.chr c) prev m rest <-> m = [c].
Proof.
  unfold Re.chr. rewrite denotes_Class_iff. split.
  - intros (x & -> & Hx). apply Ascii.eqb_eq in Hx. now subst.
  - intros ->. exists c. split; [reflexivity | apply Ascii.eqb_refl].
Qed.

Lemma denotes_opt r prev m rest :
  denotes (Re.opt r) prev m rest <-> denotes r prev m rest \/ m = [].
Proof. unfold Re.opt. now rewrite denotes_Alt_iff, denotes_Empty_iff. Qed.

(** [p{1,2}] *)
Lemma denotes_one_or_two p prev m rest :
  denotes (Re.between 1 1 (Re.Class p)) prev m rest
  <-> Forall (fun c => p c = true) m /\ 1 <= length m <= 2.
Proof.
  unfold Re.between. cbn [Re.times Re.upto]. rewrite denotes_Seq_iff. split.
  - intros (m1 & m2 & -> & H1 & H2).
    apply denotes_Seq_iff in H1 as (a & e & -> & Ha & He).
    apply denotes_Class_iff in Ha as (c & -> & Hc).
    apply denotes_Empty_iff in He as ->.
    apply denotes_opt in H2 as [H2 | ->].
    + apply denotes_Seq_iff in H2 as (a & e & -> & Ha & He).
      apply denotes_Class_iff in Ha as (d & -> & Hd).
      apply denotes_Empty_iff in He as ->.
      split; [now repeat constructor | simpl; lia].
    + split; [now repeat constructor | simpl; lia].
  - intros [H Hlen]. destruct m as [|c [|d [|e m]]]; simpl in Hlen; try lia.
    + apply Forall_cons in H as [Hc _].
      exists [c], []. split; [reflexivity|]. split.
      * apply denotes_Seq_iff. exists [c], []. split; [reflexivity|].
        split; [apply denotes_Class_iff; eauto | constructor].
      * apply denotes_opt. now right.
    + apply Forall_cons in H as [Hc H]. apply Forall_cons in H as [Hd _].
      exists [c], [d]. split; [reflexivity|]. split.
      * apply denotes_Seq_iff. exists [c], []. split; [reflexivity|].
        split; [apply denotes_Class_iff; eauto | constructor].
      * apply denotes_opt. left.
        apply denotes_Seq_iff. exists [d], []. split; [reflexivity|].
        split; [apply denotes_Class_iff; eauto | constructor].
Qed.

(** [^-?T] for a [T] that ends the match at the end of the text, on a
    text without a line feed. *)
Lemma signed_anchor (T : Re.regex) (shape : list ascii -> Prop) (l : list ascii) :
  (forall prev m rest,
      denotes T prev m rest <-> shape m /\ (rest = [] \/ rest = ["010"%char])) ->
  "010"%char ∉ l ->
  Re.match_at None l (Re.Seq Re.Bos (Re.Seq (Re.opt (Re.chr "-")) T)) = true
  <-> exists sign body,
        l = sign ++ body /\ (sign = [] \/ sign = ["-"%char]) /\ shape body.
Proof.
  intros HT Hnl. rewrite match_at_denotes. split.
  - intros (m & rest & -> & H).
    apply denotes_Seq_iff in H as (m1 & m2 & -> & H1 & H2).
    apply denotes_Bos_iff in H1 as [_ ->].
    apply denotes_Seq_iff in H2 as (sign & body & -> & Hs & Hb).
    apply HT in Hb as [Hb Hrest].
    destruct Hrest as [-> | ->].
    + exists sign, body. rewrite app_nil_r. split; [reflexivity|].
      split; [|exact Hb].
      apply denotes_opt in Hs as [Hs | ->]; [|now left].
      apply denotes_chr in Hs. now right.
    + exfalso. apply Hnl. simpl. rewrite !elem_of_app. right. left.
  - intros (sign & body & -> & Hs & Hb).
    exists (sign ++ body), []. split; [now rewrite app_nil_r|].
    apply denotes_Seq_iff. exists [], (sign ++ body). split; [reflexivity|].
    split; [constructor|].
    apply denotes_Seq_iff. exists sign, body. split; [reflexivity|]. split.
    + apply denotes_opt. destruct Hs as [-> | ->]; [now right | left].
      now apply denotes_chr.
    + apply HT. split; [exact Hb | now left].
Qed.

(** [[cls]+ sep \d{1,2} $] *)
Lemma grouped_tail (cls : ascii -> bool) (sep : ascii) prev m rest :
  denotes (Re.Seq (Re.plus (Re.Class cls))
             (Re.Seq (Re.chr sep) (Re.Seq (Re.between 1 1 Re.digit) Re.Eos)))
          prev m rest
  <-> (exists a b,
          m = a ++ sep :: b /\ a <> []
          /\ Forall (fun c => cls c = true) a
          /\ Forall (fun c => Py.isdigit c = true) b /\ 1 <= length b <= 2)
      /\ (rest = [] \/ rest = ["010"%char]).
Proof.
  split.
  - intros H. apply denotes_Seq_iff in H as (a & m2 & -> & Ha & H).
    apply denotes_plus_Class in Ha as [Hne Ha].
    apply denotes_Seq_iff in H as (s1 & m3 & -> & Hs & H).
    apply denotes_chr in Hs as ->.
    apply denotes_Seq_iff in H as (b & e & -> & Hb & He).
    apply denotes_one_or_two in Hb as [Hb Hlen].
    apply denotes_Eos_iff in He as [-> Hrest].
    split; [|exact Hrest]. exists a, b. rewrite app_nil_r. now repeat split.
  - intros [(a & b & -> & Hne & Ha & Hb & Hlen) Hrest].
    apply denotes_Seq_iff. exists a, (sep :: b). split; [reflexivity|]. split.
    { now apply denotes_plus_Class. }
    apply denotes_Seq_iff. exists [sep], b. split; [reflexivity|]. split.
    { now apply denotes_chr. }
    apply denotes_Seq_iff. exists b, []. split; [now rewrite app_nil_r|]. split.
    { now apply denotes_one_or_two. }
    now apply denotes_Eos_iff.
Qed.

(** [\d+ ([.,]\d+)? $] *)
Lemma plain_tail prev m rest :
  denotes (Re.Seq (Re.plus Re.digit)
             (Re.Seq (Re.opt (Re.Seq (Re.Alt (Re.chr ".") (Re.chr ","))
                                (Re.plus Re.digit)))
                Re.Eos))
          prev m rest
  <-> (exists a t,
          m = a ++ t /\ a <> []
          /\ Forall (fun c => Py.isdigit c = true) a
          /\ (t = []
              \/ exists sep b,
                   t = sep :: b /\ (sep = "."%char \/ sep = ","%char)
                   /\ b <> [] /\ Forall (fun c => Py.isdigit c = true) b))
      /\ (rest = [] \/ rest = ["010"%char]).
Proof.
  split.
  - intros H. apply denotes_Seq_iff in H as (a & m2 & -> & Ha & H).
    apply denotes_plus_Class in Ha as [Hne Ha].
    apply denotes_Seq_iff in H as (t & e & -> & Ht & He).
    apply denotes_Eos_iff in He as [-> Hrest].
    split; [|exact Hrest]. exists a, t. rewrite app_nil_r.
    split; [reflexivity|]. split; [exact Hne|]. split; [exact Ha|].
    apply denotes_opt in Ht as [Ht | ->]; [right | now left].
    apply denotes_Seq_iff in Ht as (s1 & b & -> & Hs & Hb).
    apply denotes_plus_Class in Hb as [Hbne Hb].
    apply denotes_Alt_iff in Hs as [Hs|Hs]; apply denotes_chr in Hs as ->;
      eexists _, b; (split; [reflexivity|]); (split; [|now split]); auto.
  - intros [(a & t & -> & Hne & Ha & Ht) Hrest].
    apply denotes_Seq_iff. exists a, t. split; [reflexivity|]. split.
    { now apply denotes_plus_Class. }
    apply denotes_Seq_iff. exists t, []. split; [now rewrite app_nil_r|]. split.
    2:{ now apply denotes_Eos_iff. }
    apply denotes_opt. destruct Ht as [-> | (sep & b & -> & Hsep & Hbne & Hb)];
      [now right | left].
    apply denotes_Seq_iff. exists [sep], b. split; [reflexivity|]. split.
    + apply denotes_Alt_iff.
      destruct Hsep as [-> | ->]; [left | right]; now apply denotes_chr.
    + now apply denotes_plus_Class.
Qed.

(** ** The shapes as the specification words them *)

Lemma decimal_digit_isdigit (c : ascii) : decimal_digit c = Py.isdigit c.
Proof. destruct c as [[] [] [] [] [] [] [] []]; reflexivity. Qed.

Lemma digit_is_not (c x : ascii) :
  Py.isdigit c = true -> Py.isdigit x = false -> Ascii.eqb c x = false.
Proof.
  intros Hc Hx. destruct (Ascii.eqb_spec c x) as [->|]; [congruence | reflexivity].
Qed.

Lemma digits_spec (l : list ascii) :
  digits l = true <-> l <> [] /\ Forall (fun c => Py.isdigit c = true) l.
Proof.
  destruct l as [|c l]; [split; [discriminate | now intros [H _]]|].
  unfold digits. rewrite forallb_forall, Forall_forall. split.
  - intros H. split; [discriminate|]. intros x Hx%list_elem_of_In.
    rewrite <- decimal_digit_isdigit. now apply H.
  - intros [_ H] x Hx%list_elem_of_In. rewrite decimal_digit_isdigit. now apply H.
Qed.

Lemma split_on_Some (sep : ascii) (l a b : list ascii) :
  split_on sep l = Some (a, b) -> l = a ++ sep :: b.
Proof.
  revert a. induction l as [|c l IH]; intros a; [discriminate|].
  cbn [split_on]. destruct (Ascii.eqb_spec c sep) as [->|_].
  - now intros [= <- <-].
  - destruct (split_on sep l) as [[a' b']|]; [|discriminate].
    intros [= <- <-]. simpl. f_equal. now apply IH.
Qed.

Lemma split_on_app (sep : ascii) (a b : list ascii) :
  Forall (fun c => Ascii.eqb c sep = false) a ->
  split_on sep (a ++ sep :: b) = Some (a, b).
Proof.
  induction 1 as [|c a Hc _ IH]; cbn [app split_on].
  - now rewrite Ascii.eqb_refl.
  - now rewrite Hc, IH.
Qed.

Lemma grouped_decimal_shape (group dec : ascii) (body : list ascii) :
  Py.isdigit dec = false -> Ascii.eqb group dec = false ->
  grouped_decimal group dec body = true
  <-> exists a b,
        body = a ++ dec :: b /\ a <> []
        /\ Forall (fun c => Py.isdigit c || Ascii.eqb c group = true) a
        /\ Forall (fun c => Py.isdigit c = true) b /\ 1 <= length b <= 2.
Proof.
  intros Hdec Hgroup. unfold grouped_decimal. split.
  - destruct (split_on dec body) as [[a b]|] eqn:E; [|discriminate].
    apply split_on_Some in E as ->.
    rewrite !andb_true_iff, forallb_forall, digits_spec, Nat.leb_le.
    intros [[[Hne Ha] [Hbne Hb]] Hlen]. exists a, b.
    split; [reflexivity|]. split; [now destruct a|]. split.
    + apply Forall_forall. intros c Hc%list_elem_of_In.
      rewrite <- decimal_digit_isdigit. now apply Ha.
    + split; [exact Hb|]. destruct b; [contradiction | simpl in *; lia].
  - intros (a & b & -> & Hne & Ha & Hb & Hlen).
    rewrite split_on_app.
    + rewrite !andb_true_iff, forallb_forall, digits_spec, Nat.leb_le.
      split; [split; [split|]|lia].
      * now destruct a.
      * rewrite Forall_forall in Ha. intros c Hc%list_elem_of_In.
        rewrite decimal_digit_isdigit. now apply Ha.
      * split; [destruct b; [simpl in Hlen; lia | discriminate] | exact Hb].
    + eapply Forall_impl; [exact Ha|]. intros c Hc. simpl in Hc.
      apply orb_true_iff in Hc as [Hc | Hc].
      * now apply digit_is_not.
      * apply Ascii.eqb_eq in Hc as ->. exact Hgroup.
Qed.

Lemma plain_decimal_shape (body : list ascii) :
  plain_decimal body = true
  <-> exists a t,
        body = a ++ t /\ a <> []
        /\ Forall (fun c => Py.isdigit c = true) a
        /\ (t = []
            \/ exists sep b,
                 t = sep :: b /\ (sep = "."%char \/ sep = ","%char)
                 /\ b <> [] /\ Forall (fun c => Py.isdigit c = true) b).
Proof.
  unfold plain_decimal. cbn [existsb]. rewrite orb_false_r, !orb_true_iff. split.
  - intros [H | [H | H]].
    + apply digits_spec in H as [Hne H]. exists body, []. rewrite app_nil_r.
      split; [reflexivity|]. split; [exact Hne|]. split; [exact H | now left].
    + destruct (split_on "." body) as [[a b]|] eqn:E; [|discriminate].
      apply split_on_Some in E as ->. apply andb_true_iff in H as [Ha Hb].
      apply digits_spec in Ha as [Hane Ha]. apply digits_spec in Hb as [Hbne Hb].
      exists a, ("."%char :: b). split; [reflexivity|]. split; [exact Hane|].
      split; [exact Ha|]. right. exists "."%char, b. auto.
    + destruct (split_on "," body) as [[a b]|] eqn:E; [|discriminate].
      apply split_on_Some in E as ->. apply andb_true_iff in H as [Ha Hb].
      apply digits_spec in Ha as [Hane Ha]. apply digits_spec in Hb as [Hbne Hb].
      exists a, (","%char :: b). split; [reflexivity|]. split; [exact Hane|].
      split; [exact Ha|]. right. exists ","%char, b. auto.
  - intros (a & t & -> & Hane & Ha & [-> | (sep & b & -> & Hsep & Hbne & Hb)]).
    + left. rewrite app_nil_r. now apply digits_spec.
    + assert (Hda : digits a = true) by now apply digits_spec.
      assert (Hdb : digits b = true) by now apply digits_spec.
      assert (Hsplit : split_on sep (a ++ sep :: b) = Some (a, b)).
      { apply split_on_app. eapply Forall_impl; [exact Ha|].
        intros c Hc. simpl. apply digit_is_not; [exact Hc|].
        now destruct Hsep as [-> | ->]. }
      right. destruct Hsep as [-> | ->]; [left | right]; now rewrite Hsplit, Hda, Hdb.
Qed.

(** The sign is the first character of the text, or there is none. *)
Lemma signed_shape (shape : list ascii -> Prop) (l : list ascii) :
  (forall body, shape body ->
     exists c rest, body = c :: rest /\ Ascii.eqb c "-" = false) ->
  (exists sign body, l = sign ++ body /\ (sign = [] \/ sign = ["-"%char]) /\ shape body)
  <-> shape (unsigned l).
Proof.
  intros Hfirst. split.
  - intros (sign & body & -> & [-> | ->] & Hb).
    + destruct (Hfirst body Hb) as (c & rest & -> & Hc). simpl. now rewrite Hc.
    + exact Hb.
  - intros H. destruct (Hfirst _ H) as (c & rest & Hu & Hc).
    destruct l as [|x l]; [discriminate Hu|]. simpl in *.
    destruct (Ascii.eqb_spec x "-") as [->|Hx].
    + exists ["-"%char], l. split; [reflexivity|]. split; [now right | exact H].
    + exists [], (x :: l). split; [reflexivity|]. split; [now left | exact H].
Qed.

End Shapes.

(** * Brazilian numbers *)

Section Separators.

(** Replacing a one-character text works character by character. *)
Lemma replace_char (o : ascii) (new l : list ascii) :
  Py.replace_from [o] new 0 l
  = flat_map (swap o new) l.
Proof.
  induction l as [|c l IH]; [reflexivity|].
  cbn [Py.replace_from Py.is_prefix flat_map length Nat.sub].
  rewrite andb_true_r, IH. unfold swap at 3. now destruct (Ascii.eqb o c).
Qed.

Lemma absent_app c l1 l2 : absent c (l1 ++ l2) <-> absent c l1 /\ absent c l2.
Proof. unfold absent. rewrite existsb_app. apply orb_false_iff. Qed.

Lemma absent_cons c a l : absent c (a :: l) <-> Ascii.eqb c a = false /\ absent c l.
Proof. unfold absent. simpl. apply orb_false_iff. Qed.

Lemma replace_absent o new l :
  absent o l -> flat_map (swap o new) l = l.
Proof.
  induction l as [|c l IH]; [reflexivity|].
  intros [Hc Hl]%absent_cons. simpl. unfold swap at 1. now rewrite Hc, IH.
Qed.

Lemma flat_map_split {A B : Type} (f : A -> list B) pre sep post :
  flat_map f (pre ++ sep :: post) = flat_map f pre ++ f sep ++ flat_map f post.
Proof. now rewrite flat_map_app. Qed.

(** What a replacement leaves of a character other than the two it
    exchanges. *)
Lemma absent_replace c o new l :
  absent c l -> absent c new ->
  absent c (flat_map (swap o new) l).
Proof.
  intros Hl Hn. induction l as [|a l IH]; [reflexivity|].
  apply absent_cons in Hl as [Ha Hl]. simpl. apply absent_app. split; [|now apply IH].
  unfold swap. destruct (Ascii.eqb o a); [exact Hn|]. apply absent_cons. now split.
Qed.

Lemma rindex_from_absent c l i last :
  absent c l -> Py.rindex_from c l i last = last.
Proof.
  revert i last. induction l as [|a l IH]; intros i last; [reflexivity|].
  intros [Ha Hl]%absent_cons. simpl. now rewrite Ha, IH.
Qed.

Lemma rindex_from_app c l1 l2 i last :
  Py.rindex_from c (l1 ++ l2) i last
  = Py.rindex_from c l2 (i + length l1) (Py.rindex_from c l1 i last).
Proof.
  revert i last. induction l1 as [|a l1 IH]; intros i last; simpl.
  - now rewrite Nat.add_0_r.
  - rewrite IH. now replace (S i + length l1) with (i + S (length l1)) by lia.
Qed.

Lemma rindex_from_bound c l i last :
  existsb (Ascii.eqb c) l = true ->
  i <= Py.rindex_from c l i last < i + length l.
Proof.
  revert i last. induction l as [|a l IH]; intros i last; [discriminate|].
  simpl. destruct (Ascii.eqb c a) eqn:E; simpl.
  - intros _. destruct (existsb (Ascii.eqb c) l) eqn:El.
    + specialize (IH (S i) i eq_refl). lia.
    + rewrite rindex_from_absent by exact El. lia.
  - intros El. specialize (IH (S i) last El). lia.
Qed.

(** The position of the last separator of [pre ++ [sep] ++ post], and
    of the last occurrence of another character that [post] does not
    have. *)
Lemma rindex_split sep pre post :
  absent sep post ->
  Py.rindex_from sep (pre ++ sep :: post) 0 0 = length pre.
Proof.
  intros Hp. rewrite rindex_from_app. simpl. rewrite Ascii.eqb_refl.
  now apply rindex_from_absent.
Qed.

Lemma rindex_before sep c pre post :
  Ascii.eqb c sep = false -> absent c post ->
  existsb (Ascii.eqb c) pre = true ->
  Py.rindex_from c (pre ++ sep :: post) 0 0 < length pre.
Proof.
  intros Hne Hp Hin. rewrite rindex_from_app. simpl. rewrite Hne.
  rewrite rindex_from_absent by exact Hp.
  pose proof (rindex_from_bound c pre 0 0 Hin). lia.
Qed.

Lemma contains_split c sep pre post :
  Py.contains c (Py.text (pre ++ sep :: post))
  = existsb (Ascii.eqb c) pre || Ascii.eqb c sep || existsb (Ascii.eqb c) post.
Proof.
  unfold Py.contains. rewrite chars_text, existsb_app. simpl.
  now rewrite orb_assoc.
Qed.

End Separators.

Import metrics_engine.

Lemma replace_one (o : ascii) (new s : string) :
  Py.replace (String o "") new s
  = Py.text (flat_map (swap o (Py.chars new))
               (Py.chars s)).
Proof. unfold Py.replace. simpl Py.chars at 1. now rewrite replace_char. Qed.

Lemma chars_split (pre post : string) (sep : ascii) :
  Py.chars (pre +:+ String sep "" +:+ post) = Py.chars pre ++ sep :: Py.chars post.
Proof. now rewrite !chars_append. Qed.

Section DecimalText.

Variables pre post : string.
Hypothesis post_no_comma : Py.contains "," post = false.
Hypothesis post_no_dot : Py.contains "." post = false.

Lemma split_text (sep : ascii) :
  pre +:+ String sep "" +:+ post
  = Py.text (Py.chars pre ++ sep :: Py.chars post).
Proof. apply chars_inj. now rewrite chars_text, chars_split. Qed.

(** With both separators and the comma last, the dots are taken out
    and the comma becomes the decimal point. *)
Lemma decimal_text_comma_last :
  Py.contains "," pre = false -> Py.contains "." pre = true ->
  decimal_text (pre +:+ "," +:+ post) = Py.replace "." "" pre +:+ "." +:+ post.
Proof.
  intros Hc Hd. unfold decimal_text.
  set (s := pre +:+ "," +:+ post).
  assert (Hs : s = Py.text (Py.chars pre ++ ","%char :: Py.chars post))
    by apply split_text.
  assert (H1 : Py.contains "," s = true).
  { rewrite Hs, contains_split. now rewrite orb_true_r. }
  assert (H2 : Py.contains "." s = true).
  { rewrite Hs, contains_split. unfold Py.contains in Hd. now rewrite Hd. }
  assert (H3 : (Py.rindex "." s <? Py.rindex "," s)%nat = true).
  { apply Nat.ltb_lt. unfold Py.rindex. rewrite Hs, chars_text.
    rewrite (rindex_split ","%char) by exact post_no_comma.
    now apply rindex_before. }
  rewrite H1, H2, H3. simpl andb. cbv iota.
  apply chars_inj.
  rewrite (replace_one "," "."), (replace_one "." ""), Hs, !chars_text.
  rewrite flat_map_split, (replace_absent "."%char _ (Py.chars post))
    by exact post_no_dot.
  change (swap "." (Py.chars "") "," ++ Py.chars post)
    with (","%char :: Py.chars post).
  rewrite flat_map_split, (replace_absent ","%char _ (Py.chars post))
    by exact post_no_comma.
  rewrite replace_absent by (apply absent_replace; [exact Hc | reflexivity]).
  rewrite (replace_one "." ""), chars_split, chars_text. reflexivity.
Qed.

(** With both separators and the dot last, the commas are taken out
    and the dot stays the decimal point. *)
Lemma decimal_text_dot_last :
  Py.contains "." pre = false -> Py.contains "," pre = true ->
  decimal_text (pre +:+ "." +:+ post) = Py.replace "," "" pre +:+ "." +:+ post.
Proof.
  intros Hd Hc. unfold decimal_text.
  set (s := pre +:+ "." +:+ post).
  assert (Hs : s = Py.text (Py.chars pre ++ "."%char :: Py.chars post))
    by apply split_text.
  assert (H1 : Py.contains "," s = true).
  { rewrite Hs, contains_split. unfold Py.contains in Hc. now rewrite Hc. }
  assert (H2 : Py.contains "." s = true).
  { rewrite Hs, contains_split. now rewrite orb_true_r. }
  assert (H3 : (Py.rindex "." s <? Py.rindex "," s)%nat = false).
  { apply Nat.ltb_ge. unfold Py.rindex. rewrite Hs, chars_text.
    rewrite (rindex_split "."%char) by exact post_no_dot.
    apply Nat.lt_le_incl. now apply rindex_before. }
  rewrite H1, H2, H3. simpl andb. cbv iota.
  apply chars_inj.
  rewrite (replace_one "," ""), Hs, !chars_text.
  rewrite flat_map_split, (replace_absent ","%char _ (Py.chars post))
    by exact post_no_comma.
  rewrite (replace_one "," ""), chars_split, chars_text. reflexivity.
Qed.

(** With commas only, each becomes a dot. *)
Lemma decimal_text_comma_only :
  Py.contains "." pre = false -> Py.contains "," pre = false ->
  decimal_text (pre +:+ "," +:+ post) = pre +:+ "." +:+ post.
Proof.
  intros Hd Hc. unfold decimal_text.
  set (s := pre +:+ "," +:+ post).
  assert (Hs : s = Py.text (Py.chars pre ++ ","%char :: Py.chars post))
    by apply split_text.
  assert (H1 : Py.contains "," s = true).
  { rewrite Hs, contains_split. now rewrite orb_true_r. }
  assert (H2 : Py.contains "." s = false).
  { rewrite Hs, contains_split. unfold Py.contains in *.
    now rewrite Hd, post_no_dot. }
  rewrite H1, H2. simpl andb. cbv iota.
  apply chars_inj.
  rewrite (replace_one "," "."), Hs, !chars_text.
  rewrite flat_map_split, (replace_absent ","%char _ (Py.chars post))
    by exact post_no_comma.
  rewrite replace_absent by exact Hc.
  rewrite chars_split. reflexivity.
Qed.

End DecimalText.

(** ** The sample and the numeric shapes *)

Lemma sample_first_values (n : nat) (series : list cell) :
  take n (filter (fun v => isna v = false) series) = first_values n series.
Proof.
  revert n. induction series as [|v series IH]; intros n; [now destruct n|].
  rewrite filter_cons. destruct n as [|n]; [now rewrite take_0|].
  cbn [first_values]. destruct (isna v); case_decide as Hd;
    try (exfalso; congruence).
  - apply IH.
  - cbn [take]. f_equal. apply IH.
Qed.

Lemma filter_spaces (f : ascii -> bool) (l : list ascii) :
  Forall (fun c => Py.isspace c = true) l ->
  filter (fun c => negb (f c || Py.isspace c)) l = [].
Proof.
  induction 1 as [|c l Hc _ IH]; [reflexivity|].
  rewrite filter_cons, Hc, orb_true_r. simpl. exact IH.
Qed.

(** Trimming first changes nothing to what is left once the white
    space is taken out. *)
Lemma bare_text_chars (val : cell) : Py.chars (bare_text val) = bare_chars val.
Proof.
  unfold bare_text, Py.delete_chars, bare_chars. rewrite chars_text.
  destruct (strip_spec (py_str val)) as (pre & post & Hs & Hpre & Hpost).
  rewrite Hs, !filter_app.
  rewrite (filter_spaces _ pre Hpre), (filter_spaces _ post Hpost), app_nil_r.
  cbn [app]. apply list_filter_iff. intros c. unfold currency_or_space.
  cbn [Py.chars list_ascii_of_string existsb]. now rewrite orb_false_r.
Qed.

Lemma bare_chars_no_newline (val : cell) : "010"%char ∉ bare_chars val.
Proof.
  unfold bare_chars. rewrite list_elem_of_filter. intros [H _]. exact H.
Qed.

Lemma grouped_first (group dec : ascii) (body : list ascii) :
  Ascii.eqb group "-" = false ->
  (exists a b,
      body = a ++ dec :: b /\ a <> []
      /\ Forall (fun c => Py.isdigit c || Ascii.eqb c group = true) a
      /\ Forall (fun c => Py.isdigit c = true) b /\ 1 <= length b <= 2) ->
  exists c rest, body = c :: rest /\ Ascii.eqb c "-" = false.
Proof.
  intros Hg (a & b & -> & Hne & Ha & _). destruct a as [|c a]; [contradiction|].
  exists c, (a ++ dec :: b). split; [reflexivity|].
  apply Forall_cons in Ha as [Hc _]. apply orb_true_iff in Hc as [Hc|Hc].
  - now apply digit_is_not.
  - apply Ascii.eqb_eq in Hc as ->. exact Hg.
Qed.

Lemma plain_first (body : list ascii) :
  (exists a t,
      body = a ++ t /\ a <> []
      /\ Forall (fun c => Py.isdigit c = true) a
      /\ (t = []
          \/ exists sep b,
               t = sep :: b /\ (sep = "."%char \/ sep = ","%char)
               /\ b <> [] /\ Forall (fun c => Py.isdigit c = true) b)) ->
  exists c rest, body = c :: rest /\ Ascii.eqb c "-" = false.
Proof.
  intros (a & t & -> & Hne & Ha & _). destruct a as [|c a]; [contradiction|].
  exists c, (a ++ t). split; [reflexivity|].
  apply Forall_cons in Ha as [Hc _]. now apply digit_is_not.
Qed.

(** The three patterns of the counting loop accept the texts of
    numeric shape, and no other. *)
Lemma looks_numeric_shape (val : cell) :
  looks_numeric val = numeric_shape (bare_chars val).
Proof.
  apply eq_true_iff_eq. unfold looks_numeric, numeric_shapes, numeric_shape.
  cbn [existsb]. unfold Re.matches. rewrite bare_text_chars, orb_false_r.
  pose proof (bare_chars_no_newline val) as Hnl.
  set (l := bare_chars val) in *.
  rewrite !orb_true_iff.
  rewrite (signed_anchor _ _ l (grouped_tail _ ","%char) Hnl).
  rewrite (signed_anchor _ _ l (grouped_tail _ "."%char) Hnl).
  rewrite (signed_anchor _ _ l plain_tail Hnl).
  rewrite (signed_shape _ l (fun body => grouped_first "." "," body eq_refl)).
  rewrite (signed_shape _ l (fun body => grouped_first "," "." body eq_refl)).
  rewrite (signed_shape _ l plain_first).
  rewrite <- (grouped_decimal_shape "." "," (unsigned l) eq_refl eq_refl).
  rewrite <- (grouped_decimal_shape "," "." (unsigned l) eq_refl eq_refl).
  rewrite <- plain_decimal_shape. tauto.
Qed.

Lemma half_table_holds : half_table = true.
Proof. vm_compute. reflexivity. Qed.

(** On a sample of up to 20 values the double [numeric_count / total]
    is below 0.5 exactly when fewer than half of the values count. *)
Lemma ratio_below_half (n t : nat) :
  0 < t <= 20 -> n <= t ->
  (PyFloat.of_nat n / PyFloat.of_nat t <? 0.5)%float = (2 * n <? t)%nat.
Proof.
  intros Ht Hn. pose proof half_table_holds as H. unfold half_table in H.
  rewrite forallb_forall in H. specialize (H t ltac:(apply in_seq; lia)).
  rewrite forallb_forall in H. specialize (H n ltac:(apply in_seq; lia)).
  now apply eqb_prop in H.
Qed.

Lemma sample_length (series : list cell) : length (sample series) <= 20.
Proof. unfold sample. rewrite length_take. lia. Qed.

Lemma convert_threshold (series : list cell) :
  let total := length (sample series) in
  let numeric_count :=
    length (filter (fun v => looks_numeric v = true) (sample series)) in
  convert_brazilian_numbers series
  = if (total =? 0)%nat || (2 * numeric_count <? total)%nat then None
    else Some (map convert_value series).
Proof.
  intros total numeric_count. unfold convert_brazilian_numbers.
  fold total numeric_count.
  destruct (Nat.eqb_spec total 0) as [H0|H0]; [reflexivity|]. simpl orb.
  rewrite ratio_below_half; [reflexivity| |].
  - pose proof (sample_length series). unfold total. lia.
  - apply length_filter.
Qed.

Lemma numeric_count_shape (series : list cell) :
  filter (fun v => looks_numeric v = true) (sample series)
  = filter (fun v => numeric_shape (bare_chars v) = true) (first_values 20 series).
Proof.
  unfold sample. rewrite sample_first_values. apply list_filter_iff.
  intros v. now rewrite looks_numeric_shape.
Qed.



(** * More on the cell classifier and the header score *)

(** What [normalize_cell] returns is empty, a number that is not NaN, or
    a text that is trimmed and not blank; it is never another object. *)
Theorem normalize_cell_shape (v : cell) :
  match normalize_cell v with
  | CNone | CBool _ | CInt _ => True
  | CFloat f => PrimFloat.eqb f f = true
  | CStr s => s <> "" /\ Py.strip s = s
  | CObj _ => False
  end.
Proof.
  destruct v as [|b|z|f|t|t]; try exact I.
  - simpl. now destruct (PrimFloat.eqb f f) eqn:E.
  - destruct (normalize_cell_str t) as [-> | [-> | (-> & Hne & _)]];
      [exact I | split; [discriminate | reflexivity] |].
    split; [exact Hne | apply strip_idempotent].
  - simpl. destruct (String.eqb_spec (Py.strip t) ""); [exact I|].
    split; [assumption | apply strip_idempotent].
Qed.

Lemma no_parts_of_empty_row (row : list cell) :
  is_row_empty row = true ->
  filter (fun n => is_none n = false) (map normalize_cell row) = [].
Proof.
  unfold is_row_empty. intros H%Nat.eqb_eq.
  rewrite <- non_empty_cells_count in H.
  now destruct (filter _ (map normalize_cell row)).
Qed.

(** A row without a cell that is not empty scores 0 as a header and is
    neither a total line nor a section title. *)
Theorem empty_row_is_nothing (row : list cell) :
  is_row_empty row = true ->
  header_score row = Some 0%float
  /\ looks_like_total_row row = false
  /\ looks_like_section_title_row row = false.
Proof.
  intros He. split; [now apply header_score_empty|].
  split; [|now apply empty_row_is_no_title].
  unfold looks_like_total_row. now rewrite (no_parts_of_empty_row row He).
Qed.

Lemma empty_row_is_nothing_witness :
  header_score blank_row = Some 0%float
  /\ looks_like_total_row blank_row = false
  /\ looks_like_section_title_row blank_row = false.
Proof. apply (empty_row_is_nothing blank_row). reflexivity. Defined.

Lemma ltb_leb (x y : float) : (x <? y)%float = true -> (x <=? y)%float = true.
Proof.
  rewrite FloatAxioms.ltb_spec, FloatAxioms.leb_spec.
  unfold SFltb, SFleb. now destruct (SFcompare _ _) as [[]|].
Qed.

Lemma clamp_range (x : float) :
  (0 <=? py_max 0 (py_min 2 x))%float = true
  /\ (py_max 0 (py_min 2 x) <=? 2)%float = true.
Proof.
  unfold py_min, py_max. destruct (x <? 2)%float eqn:E2.
  - destruct (0 <? x)%float eqn:E0.
    + split; now apply ltb_leb.
    + split; reflexivity.
  - split; reflexivity.
Qed.

(** The header score of a row, when it is computed, lies between 0 and
    2. *)
Theorem header_score_range (row : list cell) (s : float) :
  header_score row = Some s ->
  (0 <=? s)%float = true /\ (s <=? 2)%float = true.
Proof.
  unfold header_score. destruct (non_empty_count row <? 2)%nat.
  - intros [= <-]. split; reflexivity.
  - destruct (tally_row _ row) as [t|]; [simpl|discriminate].
    intros [= <-]. apply clamp_range.
Qed.

Lemma header_score_range_witness :
  (0 <=? 2)%float = true /\ (2 <=? 2)%float = true.
Proof.
  apply (header_score_range sales_header 2%float). vm_compute. reflexivity.
Defined.

(** * More on header search and header names *)

(** The header that [find_next_header] returns is a row of the grid at
    or after the start row that is not empty and scores above 0.40; its
    span is of one to three rows, all inside the grid. *)
Theorem find_next_header_sound grid start h :
  find_next_header grid start = Some (Some h) ->
  start <= rowIndex h
  /\ is_row_empty (row_at grid (rowIndex h)) = false
  /\ (exists s0, header_score (row_at grid (rowIndex h)) = Some s0
                 /\ (s0 <=? 0.40)%float = false)
  /\ 1 <= span h <= 3
  /\ rowIndex h + span h <= length grid.
Proof.
  intros Hf. pose proof (find_next_header_within grid start h Hf) as (Hs & _ & _).
  unfold find_next_header in Hf.
  destruct (header_scan grid None _) as [best|] eqn:E; [simpl in Hf|discriminate].
  destruct best as [b|]; [|discriminate]. injection Hf as <-. simpl in *.
  pose proof (header_scan_sound grid _ None (Some b) I E) as (H1 & H2 & H3 & H4).
  repeat split; try assumption; lia.
Qed.

Lemma find_next_header_sound_witness :
  0 <= 0
  /\ is_row_empty (row_at sales_grid 0) = false
  /\ (exists s0, header_score (row_at sales_grid 0) = Some s0
                 /\ (s0 <=? 0.40)%float = false)
  /\ 1 <= 1 <= 3
  /\ 0 + 1 <= length sales_grid.
Proof.
  apply (find_next_header_sound sales_grid 0 (Header 0 1)).
  vm_compute. reflexivity.
Defined.

(** ** Propagation *)

Lemma fill_forward_cons (last : option cell) (v : cell) (row : list cell) :
  fill_forward last (v :: row)
  = if non_empty v then v :: fill_forward (Some v) row
    else default v last :: fill_forward last row.
Proof. reflexivity. Qed.

Lemma fill_forward_idem (last : option cell) (row : list cell) :
  (forall lv, last = Some lv -> non_empty lv = true) ->
  fill_forward last (fill_forward last row) = fill_forward last row.
Proof.
  revert last. induction row as [|v row IH]; intros last Hl; [reflexivity|].
  rewrite (fill_forward_cons last v row). destruct (non_empty v) eqn:E.
  - rewrite fill_forward_cons, E. f_equal. apply IH. now intros lv [= <-].
  - destruct last as [lv|]; simpl (default _ _).
    + rewrite fill_forward_cons, (Hl lv eq_refl). f_equal. now apply IH.
    + rewrite fill_forward_cons, E. simpl (default _ _). f_equal. now apply IH.
Qed.

Lemma propagate_length (row : list cell) :
  length (_propagate_merged_header row) = length row.
Proof. rewrite propagate_fill_forward. apply fill_forward_length. Qed.

(** Propagation keeps the length of the row and changes nothing when
    applied a second time. *)
Theorem propagate_idempotent (row : list cell) :
  length (_propagate_merged_header row) = length row
  /\ _propagate_merged_header (_propagate_merged_header row)
     = _propagate_merged_header row.
Proof.
  split; [apply propagate_length|].
  rewrite !propagate_fill_forward. now apply fill_forward_idem.
Qed.

(** After propagation the cell at [i] has the value of the nearest cell
    at or left of [i] that is not empty; a cell with none to its left
    keeps its value. *)
Theorem propagate_nearest (row : list cell) (i : nat) (v : cell) :
  row !! i = Some v ->
  _propagate_merged_header row !! i
  = Some (default v (last_non_empty (take (S i) row))).
Proof.
  intros Hi. rewrite propagate_fill_forward.
  now rewrite (fill_forward_lookup row None i v Hi).
Qed.

Lemma propagate_nearest_witness :
  _propagate_merged_header [CStr "Vendas"; CNone; CStr "Custos"; CStr "-"] !! 3
  = Some (CStr "Custos").
Proof.
  apply (propagate_nearest [CStr "Vendas"; CNone; CStr "Custos"; CStr "-"] 3 (CStr "-")).
  reflexivity.
Defined.

(** ** The names of the columns *)

Lemma suffix_names_length earlier items :
  length (suffix_names earlier items) = length items.
Proof.
  revert earlier. induction items as [|ih items IH]; intros earlier;
    cbn [suffix_names length]; [reflexivity | now rewrite IH].
Qed.

Lemma header_items_length headers : length (header_items headers) = length headers.
Proof. unfold header_items. rewrite length_zip, length_seq. lia. Qed.

Lemma unique_names_length headers : length (unique_names headers) = length headers.
Proof.
  rewrite unique_names_suffixes, suffix_names_length. apply header_items_length.
Qed.

Lemma ink_of_spaces (l : list ascii) :
  Forall (fun c => Py.isspace c = true) l ->
  existsb (fun c => negb (Py.isspace c)) l = false.
Proof.
  induction 1 as [|c l Hc _ IH]; [reflexivity|]. simpl. now rewrite Hc, IH.
Qed.

Lemma strip_ink (s : string) : has_ink (Py.strip s) = has_ink s.
Proof.
  destruct (strip_spec s) as (pre & post & Hs & Hpre & Hpost).
  unfold has_ink. rewrite Hs, !existsb_app.
  now rewrite (ink_of_spaces pre Hpre), (ink_of_spaces post Hpost), orb_false_r.
Qed.

Lemma ink_not_blank (s : string) : has_ink s = true -> s <> "".
Proof. now intros H ->. Qed.

Lemma stripped_has_ink (s : string) : Py.strip s <> "" -> has_ink s = true.
Proof.
  intros Hne. rewrite <- strip_ink. unfold has_ink, Py.strip in *.
  rewrite chars_text.
  pose proof (rstrip_starts_clean Py.isspace _
                (lstrip_starts_clean Py.isspace (Py.chars s))) as Hc.
  destruct (Py.rstrip_chars _ _) as [|c l]; [now contradiction Hne|].
  simpl in *. now rewrite Hc.
Qed.

Lemma collapse_runs_ink (p : ascii -> bool) (inrun : bool) (l : list ascii) :
  (forall c, p c = true -> Py.isspace c = true) ->
  existsb (fun c => negb (Py.isspace c)) (Py.collapse_runs p inrun l)
  = existsb (fun c => negb (Py.isspace c)) l.
Proof.
  intros Hp. revert inrun. induction l as [|c l IH]; intros inrun; [reflexivity|].
  simpl. destruct (p c) eqn:E.
  - rewrite (Hp c E). simpl. destruct inrun; simpl; apply IH.
  - simpl. now rewrite IH.
Qed.

Lemma sub_runs_ink (p : ascii -> bool) (s : string) :
  (forall c, p c = true -> Py.isspace c = true) ->
  has_ink (Py.sub_runs p s) = has_ink s.
Proof.
  intros Hp. unfold has_ink, Py.sub_runs. rewrite chars_text.
  now apply collapse_runs_ink.
Qed.

Lemma nl_cr_tab_is_space (c : ascii) : nl_cr_tab c = true -> Py.isspace c = true.
Proof.
  unfold nl_cr_tab. intros H.
  apply orb_true_iff in H as [H|H]; [apply orb_true_iff in H as [H|H]|];
    apply Ascii.eqb_eq in H; subst c; reflexivity.
Qed.

Lemma base_name_has_ink (idx : nat) (h : string) : has_ink (base_name idx h) = true.
Proof.
  unfold base_name. rewrite strip_ink, sub_runs_ink by auto.
  rewrite sub_runs_ink by exact nl_cr_tab_is_space.
  destruct (String.eqb_spec (Py.strip h) "") as [E|E]; [reflexivity|].
  rewrite strip_ink. now apply stripped_has_ink.
Qed.

Lemma suffix_names_not_blank earlier items :
  Forall (fun name => name <> "") (suffix_names earlier items).
Proof.
  revert earlier. induction items as [|ih items IH]; intros earlier;
    cbn [suffix_names]; constructor; [|apply IH].
  pose proof (ink_not_blank _ (base_name_has_ink ih.1 ih.2)) as Hb.
  match goal with |- context [if ?c then _ else _] => destruct c end;
    [exact Hb|].
  destruct (base_name ih.1 ih.2); [now contradiction Hb | discriminate].
Qed.

Lemma header_names_length grid i sp :
  length (header_names grid i sp)
  = Nat.max (Nat.max (length (row_at grid i))
               (if (2 <=? sp)%nat then length (row_at grid (i + 1)) else 0))
            (if (3 <=? sp)%nat then length (row_at grid (i + 2)) else 0).
Proof.
  unfold header_names. rewrite length_map, length_seq.
  rewrite !propagate_length.
  now destruct (2 <=? sp)%nat, (3 <=? sp)%nat.
Qed.

(** [build_header] returns one name for each column of the widest of
    the header rows it reads, and no name is the empty text. *)
Theorem build_header_names (grid : list (list cell)) (i sp : nat) :
  length (build_header grid i sp)
  = Nat.max (Nat.max (length (row_at grid i))
               (if (2 <=? sp)%nat then length (row_at grid (i + 1)) else 0))
            (if (3 <=? sp)%nat then length (row_at grid (i + 2)) else 0)
  /\ Forall (fun name => name <> "") (build_header grid i sp).
Proof.
  unfold build_header. split.
  - now rewrite unique_names_length, header_names_length.
  - rewrite unique_names_suffixes. apply suffix_names_not_blank.
Qed.

Lemma suffix_names_lookup earlier items i ih :
  items !! i = Some ih ->
  suffix_names earlier items !! i
  = Some (let n := S (length (filter (fun k => k = item_key ih) earlier)
                     + length (filter (fun x => item_key x = item_key ih)
                                 (take i items))) in
          if (n =? 1)%nat then item_base ih
          else item_base ih +:+ "_" +:+ Py.str_of_Z (Z.of_nat n)).
Proof.
  revert earlier i. induction items as [|ih0 items IH]; intros earlier i Hi;
    [discriminate|].
  destruct i as [|i].
  - injection Hi as ->. cbn [suffix_names take filter length lookup list_lookup].
    cbv zeta. now rewrite Nat.add_0_r.
  - cbn [suffix_names]. 
    change ((?x :: ?l) !! S i) with (l !! i).
    rewrite (IH _ i Hi). cbv zeta. f_equal.
    change (take (S i) (ih0 :: items)) with (ih0 :: take i items).
    rewrite !filter_cons. fold (item_base ih0). fold (item_key ih0).
    repeat case_decide; try congruence; cbn [length];
      rewrite ?Nat.add_succ_r, ?Nat.add_succ_l; reflexivity.
Qed.

Lemma header_items_lookup headers i h :
  headers !! i = Some h -> header_items headers !! i = Some (i, h).
Proof.
  intros Hi. unfold header_items.
  apply lookup_zip_with_Some. exists i, h. split; [reflexivity|].
  split; [|exact Hi]. apply lookup_seq. split; [reflexivity|].
  now apply lookup_lt_Some in Hi.
Qed.

(** The suffix rule of the second loop of [build_header]: a header
    whose name, compared without case, was met [n - 1] times before it
    gets the suffix [_n]; the first one keeps its name. *)
Theorem unique_names_rule (headers : list string) (i : nat) (h : string) :
  headers !! i = Some h ->
  let n := S (length (filter (fun x => item_key x = item_key (i, h))
                        (take i (header_items headers)))) in
  unique_names headers !! i
  = Some (if (n =? 1)%nat then base_name i h
          else base_name i h +:+ "_" +:+ Py.str_of_Z (Z.of_nat n)).
Proof.
  intros Hi. rewrite unique_names_suffixes.
  fold (header_items headers).
  now rewrite (suffix_names_lookup [] _ i (i, h) (header_items_lookup _ _ _ Hi)).
Qed.

Lemma unique_names_rule_witness :
  unique_names ["Valor"; "Qtd"; "valor "] !! 2 = Some "valor_2".
Proof.
  apply (unique_names_rule ["Valor"; "Qtd"; "valor "] 2 "valor "). reflexivity.
Defined.

Lemma filter_absent_key (key : string) (earlier : list string) :
  key ∉ earlier -> filter (fun k => k = key) earlier = [].
Proof.
  induction earlier as [|k earlier IH]; [reflexivity|].
  intros Hk. rewrite filter_cons. case_decide as E.
  - exfalso. apply Hk. subst k. left.
  - apply IH. intros Hin. apply Hk. now right.
Qed.

Lemma suffix_names_distinct earlier items :
  NoDup (map item_key items) ->
  (forall ih, ih ∈ items -> item_key ih ∉ earlier) ->
  suffix_names earlier items = map item_base items.
Proof.
  revert earlier. induction items as [|ih items IH]; intros earlier Hnd Hfresh;
    [reflexivity|].
  cbn [suffix_names map]. fold (item_base ih). fold (item_key ih).
  apply NoDup_cons in Hnd as [Hih Hnd].
  assert (H0 : filter (fun k => k = item_key ih) earlier = []).
  { apply filter_absent_key, Hfresh. left. }
  rewrite H0. cbn [length Nat.eqb]. f_equal. apply IH; [exact Hnd|].
  intros x Hx [Heq|Hin]%elem_of_cons.
  - apply Hih. rewrite <- Heq. apply list_elem_of_fmap. now exists x.
  - apply (Hfresh x); [now right | exact Hin].
Qed.

(** When the names of the headers, cleaned and compared without case,
    are all different, [build_header]'s second loop returns them as
    they are, and they are distinct. *)
Theorem unique_names_of_distinct (headers : list string) :
  NoDup (map item_key (header_items headers)) ->
  unique_names headers = map item_base (header_items headers)
  /\ NoDup (unique_names headers).
Proof.
  intros Hnd.
  assert (H : unique_names headers = map item_base (header_items headers)).
  { rewrite unique_names_suffixes. apply suffix_names_distinct; [exact Hnd|].
    intros ih _ Hin. inversion Hin. }
  split; [exact H|]. rewrite H.
  apply (NoDup_fmap_1 Py.lower). now rewrite <- list_fmap_compose.
Qed.

Lemma unique_names_of_distinct_witness :
  unique_names ["Produto"; ""; " Valor "] = ["Produto"; "col_2"; "Valor"].
Proof.
  apply (proj1 (unique_names_of_distinct ["Produto"; ""; " Valor "]
                  ltac:(apply (bool_decide_unpack _); vm_compute; exact I))).
Defined.

(** * More on the blocks of a sheet *)

Lemma scan_step_data_end grid ds st next :
  s_r st < length grid ->
  (s_data_end st < Z.of_nat (length grid))%Z ->
  scan_step grid ds st = Some next ->
  match next with
  | Continue st' | Break st' => (s_data_end st' < Z.of_nat (length grid))%Z
  end.
Proof.
  intros Hr Hde. unfold scan_step.
  destruct (looks_like_section_title_row _ && _).
  { intros [= <-]. simpl. lia. }
  destruct (is_row_empty _).
  - destruct (next_looks_header _ _) as [looks|]; [simpl|discriminate].
    destruct (negb looks && _ && _); intros [= <-]; simpl; lia.
  - destruct (header_score _) as [s|]; [simpl|discriminate].
    destruct ((1 <? s)%float && _); intros [= <-]; simpl; lia.
Qed.

Lemma scan_data_end fuel grid ds st st' :
  (s_data_end st < Z.of_nat (length grid))%Z ->
  scan fuel grid ds st = Finished st' ->
  (s_data_end st' < Z.of_nat (length grid))%Z.
Proof.
  revert st. induction fuel as [|fuel IH]; intros st Hde; simpl.
  - destruct (length grid <=? s_r st)%nat; [|discriminate]. now intros [= <-].
  - destruct (Nat.leb_spec (length grid) (s_r st)); [now intros [= <-]|].
    destruct (scan_step grid ds st) as [[st1|st1]|] eqn:E; try discriminate.
    + apply IH. exact (scan_step_data_end _ _ _ _ H Hde E).
    + intros [= <-]. exact (scan_step_data_end _ _ _ _ H Hde E).
Qed.

Lemma extract_rows_none grid cols ds de :
  (de < Z.of_nat ds)%Z -> (extract_rows grid cols ds de).1 = [].
Proof.
  intros H. unfold extract_rows.
  destruct (Z.leb_spec (Z.of_nat ds) de); [lia | reflexivity].
Qed.

(** What a turn of the outer loop that emits a block says of it. *)
Lemma detect_iteration_bounds grid cursor b cursor' :
  detect_iteration grid cursor = Finished (Next (Some b) cursor') ->
  block_bounds grid b
  /\ cursor <= header_row b
  /\ (data_end b < Z.of_nat cursor')%Z.
Proof.
  unfold detect_iteration.
  pose proof (skip_empty_ge grid cursor) as Hc.
  destruct (length grid <=? _)%nat; [discriminate|].
  destruct (find_next_header grid _) as [[h|]|] eqn:Eh; try discriminate.
  apply find_next_header_found in Eh as (Hstart & Hspan & Hin).
  pose proof (skip_empty_ge grid (rowIndex h + span h)) as Hds.
  pose proof (skip_empty_le grid (rowIndex h + span h) Hin) as Hds'.
  set (ds := skip_empty grid (rowIndex h + span h)) in *.
  destruct (scan _ _ _ _) as [st| |] eqn:Es; try discriminate.
  assert (Hde : (s_data_end st < Z.of_nat (length grid))%Z).
  { eapply scan_data_end; [|exact Es]. simpl. lia. }
  destruct (extract_rows _ _ _ _) as [rs removed] eqn:Ex.
  destruct rs as [|row rs]; [discriminate|].
  intros [= <- <-]. unfold block_bounds. simpl.
  assert (Hle : (Z.of_nat ds <= s_data_end st)%Z).
  { destruct (Z.leb_spec (Z.of_nat ds) (s_data_end st)) as [|Hlt]; [assumption|].
    pose proof (extract_rows_none grid (build_header grid (rowIndex h) (span h))
                  ds (s_data_end st) Hlt) as Hn.
    rewrite Ex in Hn. discriminate Hn. }
  repeat split; lia.
Qed.

Lemma in_order_snoc (blocks : list block) (b : block) :
  blocks_in_order blocks ->
  Forall (fun b1 => (data_end b1 < Z.of_nat (header_row b))%Z) blocks ->
  blocks_in_order (blocks ++ [b]).
Proof.
  intros Ho Hb i j b1 b2 Hij H1 H2.
  destruct (decide (j < length blocks)) as [Hj|Hj].
  - rewrite lookup_app_l in H2 by lia.
    rewrite lookup_app_l in H1 by lia. exact (Ho i j b1 b2 Hij H1 H2).
  - rewrite lookup_app_r in H2 by lia.
    destruct (j - length blocks) as [|k] eqn:Ek; [|now destruct k].
    injection H2 as <-.
    rewrite lookup_app_l in H1 by lia.
    rewrite Forall_forall in Hb. apply Hb. eapply list_elem_of_lookup_2, H1.
Qed.

Lemma no_blocks_in_order : blocks_in_order [].
Proof. intros i j b1 b2 _ H. discriminate H. Qed.

Lemma detect_loop_order fuel grid cursor blocks result :
  Forall (block_bounds grid) blocks ->
  blocks_in_order blocks ->
  Forall (fun b => (data_end b < Z.of_nat cursor)%Z) blocks ->
  detect_loop fuel grid cursor blocks = Finished result ->
  Forall (block_bounds grid) result /\ blocks_in_order result.
Proof.
  revert cursor blocks. induction fuel as [|fuel IH];
    intros cursor blocks Hb Ho Hc; simpl.
  - destruct (length grid <=? cursor)%nat; [|discriminate]. now intros [= <-].
  - destruct (length grid <=? cursor)%nat; [now intros [= <-]|].
    destruct (detect_iteration grid cursor) as [[|emitted cursor']| |] eqn:E;
      try discriminate; [now intros [= <-]|].
    pose proof (detect_iteration_advances _ _ _ _ E) as Hadv.
    assert (Hc' : Forall (fun b => (data_end b < Z.of_nat cursor')%Z) blocks).
    { eapply Forall_impl; [exact Hc|]. simpl. intros. lia. }
    destruct emitted as [b|]; simpl.
    + apply detect_iteration_bounds in E as (Hbb & Hh & Hd).
      apply IH.
      * apply Forall_app. split; [exact Hb | now apply Forall_singleton].
      * apply in_order_snoc; [exact Ho|].
        eapply Forall_impl; [exact Hc|]. simpl. intros. lia.
      * apply Forall_app. split; [exact Hc' | now apply Forall_singleton].
    + rewrite app_nil_r. now apply IH.
Qed.

(** The blocks of a sheet lie inside the grid: the header of a block
    spans one to three rows, its data start at or after the end of the
    header, and the data region is not empty and ends inside the
    grid. *)
Theorem block_bounds_hold grid blocks b :
  detect_sheet grid = Finished blocks ->
  b ∈ blocks ->
  1 <= header_span b <= 3
  /\ header_row b + header_span b <= data_start b
  /\ (Z.of_nat (data_start b) <= data_end b)%Z
  /\ (data_end b < Z.of_nat (length grid))%Z.
Proof.
  intros Hd Hb.
  destruct (detect_loop_order _ _ _ _ _ (Forall_nil_2 _) no_blocks_in_order
              (Forall_nil_2 _) Hd) as [Hbounds _].
  rewrite Forall_forall in Hbounds. exact (Hbounds b Hb).
Qed.

Lemma block_bounds_hold_witness :
  1 <= 1 <= 3 /\ 0 + 1 <= 1 /\ (Z.of_nat 1 <= 3)%Z
  /\ (3 < Z.of_nat (length sales_grid))%Z.
Proof.
  apply (block_bounds_hold sales_grid
           [Block 0 1 1 3 ["Produto"; "Qtd"; "Valor"] [sale_1; sale_2] 1]
           (Block 0 1 1 3 ["Produto"; "Qtd"; "Valor"] [sale_1; sale_2] 1)).
  - vm_compute. reflexivity.
  - apply list_elem_of_here.
Defined.

(** The blocks of a sheet are in the order of the rows and do not
    overlap: a block ends before the header row of every block after
    it. *)
Theorem blocks_do_not_overlap grid blocks i j b1 b2 :
  detect_sheet grid = Finished blocks ->
  i < j -> blocks !! i = Some b1 -> blocks !! j = Some b2 ->
  (data_end b1 < Z.of_nat (header_row b2))%Z.
Proof.
  intros Hd.
  destruct (detect_loop_order _ _ _ _ _ (Forall_nil_2 _) no_blocks_in_order
              (Forall_nil_2 _) Hd) as [_ Ho].
  apply Ho.
Qed.

Lemma blocks_do_not_overlap_witness : (3 < Z.of_nat 4)%Z.
Proof.
  apply (blocks_do_not_overlap header_after_three_grid
           [Block 0 1 1 3 ["Produto"; "Qtd"; "Valor"] [sale_1; sale_2; sale_1] 0;
            Block 4 1 5 5 ["Produto"; "Qtd"; "Valor"] [sale_1] 0]
           0 1
           (Block 0 1 1 3 ["Produto"; "Qtd"; "Valor"] [sale_1; sale_2; sale_1] 0)
           (Block 4 1 5 5 ["Produto"; "Qtd"; "Valor"] [sale_1] 0)).
  - vm_compute. reflexivity.
  - lia.
  - reflexivity.
  - reflexivity.
Defined.

Lemma skip_empty_rows_all rows i :
  Forall (fun row => is_row_empty row = true) rows ->
  skip_empty_rows rows i = i + length rows.
Proof.
  intros H. revert i. induction H as [|row rows Hr _ IH]; intros i; simpl.
  - lia.
  - rewrite Hr, IH. lia.
Qed.

(** A sheet whose rows are all empty, or that has no row, has no
    block. *)
Theorem empty_grid_has_no_block grid :
  Forall (fun row => is_row_empty row = true) grid ->
  detect_sheet grid = Finished [].
Proof.
  intros H. unfold detect_sheet. destruct grid as [|row grid]; [reflexivity|].
  cbn [length detect_loop]. cbn [Nat.leb].
  unfold detect_iteration, skip_empty. rewrite drop_0.
  rewrite (skip_empty_rows_all _ 0 H). cbn [Nat.add].
  now rewrite Nat.leb_refl.
Qed.

Lemma empty_grid_has_no_block_witness :
  detect_sheet [blank_row; [CStr " "; CStr "-"]; []] = Finished [].
Proof.
  apply (empty_grid_has_no_block [blank_row; [CStr " "; CStr "-"]; []]).
  repeat constructor.
Defined.

(** The result of [detect_blocks] has the sheets of its argument, under
    their names and in their order, those without a block included. *)
Theorem detect_blocks_keeps_sheets sheets result :
  detect_blocks sheets = Finished result ->
  map fst result = map fst sheets.
Proof.
  revert result. induction sheets as [|[name grid] sheets IH]; intros result; simpl.
  - now intros [= <-].
  - destruct (detect_sheet grid) as [bs| |]; try discriminate.
    destruct (detect_blocks sheets) as [res| |]; try discriminate.
    intros [= <-]. simpl. f_equal. now apply IH.
Qed.

Lemma detect_blocks_keeps_sheets_witness :
  map fst [("Vendas", [Block 0 1 1 3 ["Produto"; "Qtd"; "Valor"] [sale_1; sale_2] 1]);
           ("Vazia", [])]
  = map fst [("Vendas", sales_grid); ("Vazia", [blank_row])].
Proof.
  apply (detect_blocks_keeps_sheets [("Vendas", sales_grid); ("Vazia", [blank_row])]).
  vm_compute. reflexivity.
Defined.

(** * The response of the API: [normalize_blocks] and [_sanitize] *)

Lemma datasets_of_blocks (sheet : string) (k : nat) (blocks : list block) :
  Forall (fun b => rows b <> []) blocks ->
  omap (fun ib => normalizer.dataset_of sheet ib.1 ib.2)
       (zip (seq k (length blocks)) blocks)
  = map (dataset_entry sheet) (zip (seq k (length blocks)) blocks).
Proof.
  intros H. revert k. induction H as [|b blocks Hb _ IH]; intros k; [reflexivity|].
  cbn [length seq zip zip_with omap list_omap map]. rewrite IH.
  unfold normalizer.dataset_of, dataset_entry. simpl.
  destruct (rows b); [contradiction | reflexivity].
Qed.

Lemma normalize_blocks_all (result : list (string * list block)) :
  Forall (fun sb => Forall (fun b => rows b <> []) sb.2) result ->
  normalizer.normalize_blocks result
  = map (fun sb => normalizer.SheetEntry sb.1
                     (map (dataset_entry sb.1) (zip (seq 0 (length sb.2)) sb.2)))
        (filter (fun sb => length sb.2 <> 0) result).
Proof.
  unfold normalizer.normalize_blocks.
  induction 1 as [|[name blocks] result Hb _ IH]; [reflexivity|].
  cbn [omap list_omap]. rewrite IH, filter_cons.
  unfold normalizer.sheet_datasets. simpl in *.
  rewrite (datasets_of_blocks name 0 blocks Hb).
  destruct blocks as [|b blocks]; [reflexivity|].
  reflexivity.
Qed.

Lemma detect_blocks_rows sheets result :
  detect_blocks sheets = Finished result ->
  Forall (fun sb => Forall (fun b => rows b <> []) sb.2) result.
Proof.
  intros Hd. apply Forall_forall. intros [name blocks] Hin.
  destruct (detect_blocks_sheet _ _ _ _ Hd Hin) as (grid & _ & Hs).
  apply (detect_loop_invariant _ _ _ _ _ (Forall_nil_2 _)) in Hs.
  simpl. eapply Forall_impl; [exact Hs|]. now intros b [Hr _].
Qed.

(** On the result of [detect_blocks], [normalize_blocks] passes over no
    block: it returns, in order, one entry for each sheet that has a
    block, with one dataset for each block of the sheet, numbered from
    1 in the identifier and from 0 in [block_index]; the sheets without
    a block are left out. *)
Theorem normalize_detected_blocks sheets result :
  detect_blocks sheets = Finished result ->
  normalizer.normalize_blocks result
  = map (fun sb => normalizer.SheetEntry sb.1
                     (map (dataset_entry sb.1) (zip (seq 0 (length sb.2)) sb.2)))
        (filter (fun sb => length sb.2 <> 0) result).
Proof.
  intros Hd. apply normalize_blocks_all.
  apply Forall_forall. intros [name blocks] Hin.
  pose proof (detect_blocks_rows _ _ Hd) as Hrows.
  rewrite Forall_forall in Hrows. exact (Hrows _ Hin).
Qed.

Lemma normalize_detected_blocks_witness :
  normalizer.normalize_blocks
    [("Vazia", []);
     ("Vendas", [Block 0 1 1 3 ["Produto"; "Qtd"; "Valor"] [sale_1; sale_2] 1])]
  = [normalizer.SheetEntry "Vendas"
       [normalizer.Dataset "Vendas_block_1" 0 2 ["Produto"; "Qtd"; "Valor"] 1 1]].
Proof.
  apply (normalize_detected_blocks [("Vazia", [blank_row]); ("Vendas", sales_grid)]).
  vm_compute. reflexivity.
Defined.

Lemma sanitize_fixed (s : string) :
  Py.strip s = s -> token s = false -> main._sanitize (CStr s) = CStr s.
Proof.
  intros Hs Ht. unfold main._sanitize. rewrite Hs.
  unfold token in Ht. apply orb_false_iff in Ht as [Ht H3].
  apply orb_false_iff in Ht as [H1 H2].
  now rewrite H1, H2, H3.
Qed.

(** What [_sanitize] makes of a string. *)
Lemma sanitize_str (t : string) :
  main._sanitize (CStr t) = CNone
  \/ main._sanitize (CStr t) = CInt 0
  \/ (main._sanitize (CStr t) = CStr (Py.strip t) /\ token (Py.strip t) = false).
Proof.
  unfold main._sanitize, token.
  destruct (String.eqb (Py.lower (Py.strip t)) "nan"); [now left|].
  destruct (String.eqb (Py.strip t) "#DIV/0!"); [now right; left|].
  destruct (String.eqb (Py.strip t) "-"); [now left|].
  right; right. now split.
Qed.

(** [_sanitize] applied to what it returns changes nothing. *)
Theorem sanitize_idempotent (v : cell) :
  main._sanitize (main._sanitize v) = main._sanitize v.
Proof.
  destruct v as [|b|z|f|t|t]; try reflexivity.
  - simpl. destruct (PrimFloat.eqb f f) eqn:E; simpl; [|reflexivity].
    now rewrite E.
  - destruct (sanitize_str t) as [-> | [-> | (-> & Ht)]]; try reflexivity.
    apply sanitize_fixed; [apply strip_idempotent | assumption].
Qed.

(** A cell that went through [normalize_cell], as the cells of the rows
    of a block did, is returned by [_sanitize] as it is: the text "0"
    that stands for a division error stays a text. *)
Theorem sanitize_keeps_normalized (v : cell) :
  raw_cell v = true ->
  main._sanitize (normalize_cell v) = normalize_cell v.
Proof.
  intros Hraw. destruct v as [|b|z|f|t|t]; try reflexivity.
  - simpl. destruct (PrimFloat.eqb f f) eqn:E; simpl; [|reflexivity].
    now rewrite E.
  - destruct (normalize_cell_str t) as [-> | [-> | (-> & Hne & Ht)]];
      try reflexivity.
    apply sanitize_fixed; [apply strip_idempotent | assumption].
  - simpl in Hraw. apply negb_true_iff in Hraw.
    simpl. destruct (String.eqb_spec (Py.strip t) ""); [reflexivity|].
    apply sanitize_fixed; [apply strip_idempotent | assumption].
Qed.

Lemma sanitize_keeps_normalized_witness :
  main._sanitize (normalize_cell (CStr " #DIV/0! ")) = normalize_cell (CStr " #DIV/0! ").
Proof. apply (sanitize_keeps_normalized (CStr " #DIV/0! ")). reflexivity. Defined.

(** * The names of [build_header] under [_unique_columns] *)

Lemma spaced_collapse (b : bool) (l : list ascii) :
  spaced b (Py.collapse_runs Py.isspace b l).
Proof.
  revert b. induction l as [|c l IH]; intros b; [exact I|].
  cbn [Py.collapse_runs]. destruct (Py.isspace c) eqn:E.
  - destruct b; [apply IH|].
    cbn [spaced]. change (Py.isspace " "%char) with true. cbv iota.
    repeat split. apply IH.
  - cbn [spaced]. rewrite E. apply IH.
Qed.

Lemma spaced_weaken (b : bool) (l : list ascii) : spaced b l -> spaced false l.
Proof.
  destruct l as [|c l]; [trivial|]. cbn [spaced].
  destruct (Py.isspace c); [|trivial]. now intros (H1 & H2 & H3).
Qed.

Lemma spaced_suffix (b : bool) (pre l : list ascii) :
  spaced b (pre ++ l) -> spaced false l.
Proof.
  revert b. induction pre as [|c pre IH]; intros b; [apply spaced_weaken|].
  cbn [app spaced]. destruct (Py.isspace c).
  - intros (_ & _ & H). exact (IH _ H).
  - apply IH.
Qed.

Lemma spaced_prefix (b : bool) (l post : list ascii) :
  spaced b (l ++ post) -> spaced b l.
Proof.
  revert b. induction l as [|c l IH]; intros b; [intros _; exact I|].
  cbn [app spaced]. destruct (Py.isspace c).
  - intros (H1 & H2 & H). repeat split; try assumption. exact (IH _ H).
  - apply IH.
Qed.

Lemma spaced_ink (b : bool) (l : list ascii) :
  Forall (fun c => Py.isspace c = false) l -> spaced b l.
Proof.
  intros H. revert b. induction H as [|c l Hc _ IH]; intros b; [exact I|].
  cbn [spaced]. rewrite Hc. apply IH.
Qed.

Lemma spaced_app (b : bool) (l l2 : list ascii) :
  spaced b l -> Forall (fun c => Py.isspace c = false) l2 -> spaced b (l ++ l2).
Proof.
  intros Hl Hl2. revert b Hl. induction l as [|c l IH]; intros b.
  - intros _. now apply spaced_ink.
  - cbn [app spaced]. destruct (Py.isspace c).
    + intros (H1 & H2 & H). repeat split; try assumption. exact (IH _ H).
    + apply IH.
Qed.

Lemma spaced_fixed (b : bool) (l : list ascii) :
  spaced b l -> Py.collapse_runs Py.isspace b l = l.
Proof.
  revert b. induction l as [|c l IH]; intros b; [reflexivity|].
  cbn [spaced Py.collapse_runs]. destruct (Py.isspace c).
  - intros (-> & -> & H). f_equal. exact (IH _ H).
  - intros H. f_equal. exact (IH _ H).
Qed.

Lemma spaced_no_control (b : bool) (l : list ascii) :
  spaced b l -> Forall (fun c => nl_cr_tab c = false) l.
Proof.
  revert b. induction l as [|c l IH]; intros b; [constructor|].
  cbn [spaced]. destruct (Py.isspace c) eqn:E.
  - intros (-> & _ & H). constructor; [reflexivity | exact (IH _ H)].
  - intros H. constructor; [|exact (IH _ H)].
    destruct (nl_cr_tab c) eqn:E2; [|reflexivity].
    apply nl_cr_tab_is_space in E2. congruence.
Qed.

Lemma collapse_none (p : ascii -> bool) (b : bool) (l : list ascii) :
  Forall (fun c => p c = false) l -> Py.collapse_runs p b l = l.
Proof.
  intros H. revert b. induction H as [|c l Hc _ IH]; intros b; [reflexivity|].
  cbn [Py.collapse_runs]. rewrite Hc. f_equal. apply IH.
Qed.

(** A tidy name is left as it is by the cleaning of the header loop. *)
Lemma tidy_fixed (k : nat) (s : string) : tidy (Py.chars s) -> base_name k s = s.
Proof.
  intros (Hsp & Hl & Hr & Hne).
  assert (Hstrip : Py.strip s = s).
  { unfold Py.strip, Py.rstrip_chars. rewrite (lstrip_clean _ _ Hl).
    rewrite (lstrip_clean _ _ Hr), rev_involutive. apply text_chars. }
  assert (H1 : Py.sub_runs nl_cr_tab s = s).
  { unfold Py.sub_runs. rewrite collapse_none by exact (spaced_no_control _ _ Hsp).
    apply text_chars. }
  assert (H2 : Py.sub_runs Py.isspace s = s).
  { unfold Py.sub_runs. rewrite (spaced_fixed _ _ Hsp). apply text_chars. }
  unfold base_name. rewrite Hstrip.
  destruct (String.eqb_spec s "") as [->|_]; [now contradiction Hne|].
  now rewrite H1, H2.
Qed.

Lemma base_name_tidy (i : nat) (h : string) : tidy (Py.chars (base_name i h)).
Proof.
  pose proof (base_name_has_ink i h) as Hink. unfold has_ink in Hink.
  unfold base_name in *.
  set (s := Py.sub_runs Py.isspace _) in *.
  split; [|split; [|split]].
  - destruct (strip_spec s) as (pre & post & Hs & _ & _).
    assert (Hsp : spaced false (Py.chars s))
      by (unfold s, Py.sub_runs; rewrite chars_text; apply spaced_collapse).
    rewrite Hs in Hsp. eapply spaced_prefix, spaced_suffix, Hsp.
  - unfold Py.strip. rewrite chars_text.
    apply rstrip_starts_clean, lstrip_starts_clean.
  - unfold Py.strip, Py.rstrip_chars. rewrite chars_text, rev_involutive.
    apply lstrip_starts_clean.
  - intros E. rewrite E in Hink. discriminate Hink.
Qed.

Lemma tidy_suffix (l l2 : list ascii) :
  tidy l -> l2 <> [] -> Forall (fun c => Py.isspace c = false) l2 -> tidy (l ++ l2).
Proof.
  intros (Hsp & Hl & Hr & Hne) Hne2 Hink. split; [|split; [|split]].
  - now apply spaced_app.
  - destruct l; [now contradiction Hne | exact Hl].
  - rewrite rev_app_distr. apply Forall_rev in Hink.
    destruct (rev l2) as [|c r] eqn:E.
    + apply (f_equal (@rev ascii)) in E. rewrite rev_involutive in E.
      now contradiction Hne2.
    + now inversion Hink.
  - destruct l; [now contradiction Hne | discriminate].
Qed.

Lemma digit_ink (n : N) : Py.isspace (ascii_of_N (48 + n mod 10)) = false.
Proof.
  pose proof (N.mod_upper_bound n 10 ltac:(lia)) as Hk.
  generalize dependent (n mod 10)%N. intros k Hk.
  assert (E : (k = 0 \/ k = 1 \/ k = 2 \/ k = 3 \/ k = 4 \/ k = 5 \/ k = 6
               \/ k = 7 \/ k = 8 \/ k = 9)%N) by lia.
  repeat destruct E as [->|E]; try subst k; reflexivity.
Qed.

Lemma digits_fuel_ink (f : nat) (n : N) (acc : list ascii) :
  Forall (fun c => Py.isspace c = false) acc ->
  Forall (fun c => Py.isspace c = false) (Py.digits_fuel f n acc).
Proof.
  revert n acc. induction f as [|f IH]; intros n acc Hacc; [exact Hacc|].
  cbn [Py.digits_fuel].
  assert (H : Forall (fun c => Py.isspace c = false)
                (ascii_of_N (48 + n mod 10) :: acc))
    by (constructor; [apply digit_ink | exact Hacc]).
  destruct (n <? 10)%N; [exact H | now apply IH].
Qed.

Lemma digits_fuel_some (f : nat) (n : N) (acc : list ascii) :
  acc <> [] -> Py.digits_fuel f n acc <> [].
Proof.
  revert n acc. induction f as [|f IH]; intros n acc Hacc; [exact Hacc|].
  cbn [Py.digits_fuel]. destruct (n <? 10)%N; [discriminate|].
  now apply IH.
Qed.

Lemma suffix_ink (n : nat) :
  Forall (fun c => Py.isspace c = false)
    (Py.chars ("_" +:+ Py.str_of_Z (Z.of_nat n))).
Proof.
  rewrite chars_append. apply Forall_app. split; [now repeat constructor|].
  unfold Py.str_of_Z. destruct (Z.of_nat n) eqn:E; try lia;
    rewrite chars_text; apply digits_fuel_ink; constructor.
Qed.

Lemma suffix_names_tidy earlier items :
  Forall (fun name => tidy (Py.chars name)) (suffix_names earlier items).
Proof.
  revert earlier. induction items as [|ih items IH]; intros earlier;
    cbn [suffix_names]; constructor; [|apply IH].
  pose proof (base_name_tidy ih.1 ih.2) as Hb.
  match goal with |- context [if ?c then _ else _] => destruct c end;
    [exact Hb|].
  rewrite chars_append. apply tidy_suffix; [exact Hb| |apply suffix_ink].
  rewrite chars_append. discriminate.
Qed.

Lemma tidy_bases (k : nat) (names : list string) :
  Forall (fun name => tidy (Py.chars name)) names ->
  map item_base (zip (seq k (length names)) names) = names.
Proof.
  intros H. revert k. induction H as [|name names Hn _ IH]; intros k;
    [reflexivity|].
  cbn [length seq zip zip_with map]. rewrite IH. f_equal.
  exact (tidy_fixed k name Hn).
Qed.

Lemma tidy_keys (k : nat) (names : list string) :
  Forall (fun name => tidy (Py.chars name)) names ->
  map item_key (zip (seq k (length names)) names) = map Py.lower names.
Proof.
  intros H. revert k. induction H as [|name names Hn _ IH]; intros k;
    [reflexivity|].
  cbn [length seq zip zip_with map]. rewrite IH. f_equal.
  unfold item_key, item_base. cbn [fst snd]. now rewrite (tidy_fixed k name Hn).
Qed.

Lemma unique_columns_of_texts (names : list string) :
  main._unique_columns (map CStr names) = unique_names names.
Proof.
  unfold main._unique_columns, unique_names. rewrite length_map.
  generalize (∅ : gmap string nat, @nil string).
  generalize 0 at 1 2.
  induction names as [|name names IH]; intros k st; [reflexivity|].
  cbn [length seq map zip zip_with fold_left]. apply IH.
Qed.

(** When the names that [build_header] returns differ from one another
    without regard to case, [_unique_columns] returns them as they
    are. *)
Theorem unique_columns_keeps_header (grid : list (list cell)) (i sp : nat) :
  NoDup (map Py.lower (build_header grid i sp)) ->
  main._unique_columns (map CStr (build_header grid i sp)) = build_header grid i sp.
Proof.
  intros Hnd. rewrite unique_columns_of_texts.
  assert (Ht : Forall (fun name => tidy (Py.chars name)) (build_header grid i sp)).
  { unfold build_header. rewrite unique_names_suffixes. apply suffix_names_tidy. }
  rewrite unique_names_suffixes, suffix_names_distinct.
  - now apply tidy_bases.
  - now rewrite tidy_keys.
  - intros ih _. apply not_elem_of_nil.
Qed.

Lemma unique_columns_keeps_header_witness :
  main._unique_columns (map CStr (build_header merged_header_grid 0 2))
  = build_header merged_header_grid 0 2.
Proof.
  apply (unique_columns_keeps_header merged_header_grid 0 2).
  apply (bool_decide_unpack _). vm_compute. exact I.
Defined.

(** * The row passes of the pre-cleaner *)

Section Rows.

Import cleaner.

Lemma find_seq_first (f : nat -> bool) (a n idx : nat) :
  find f (seq a n) = Some idx ->
  a <= idx < a + n /\ f idx = true /\ forall i, a <= i < idx -> f i = false.
Proof.
  revert a. induction n as [|n IH]; intros a; [discriminate|].
  cbn [seq find]. destruct (f a) eqn:E.
  - intros [= <-]. repeat split; try lia. exact E.
  - intros H. apply IH in H as (H1 & H2 & H3). repeat split; try lia; [exact H2|].
    intros i Hi. destruct (decide (i = a)) as [->|Hne]; [exact E|].
    apply H3. lia.
Qed.

Lemma row_rows_from (df : frame) (idx i : nat) :
  row (rows_from df idx) i = row df (idx + i).
Proof.
  unfold row, rows_from. cbn [cols]. rewrite map_map. apply map_ext.
  intros lc. cbn [fst snd]. now rewrite lookup_drop.
Qed.

Lemma row_rows_to (df : frame) (cutoff i : nat) :
  i < cutoff -> row (rows_to df cutoff) i = row df i.
Proof.
  intros Hi. unfold row, rows_to. cbn [cols]. rewrite map_map. apply map_ext.
  intros lc. cbn [fst snd]. now rewrite lookup_take_lt.
Qed.

Lemma rows_from_0 (df : frame) : rows_from df 0 = df.
Proof.
  unfold rows_from. rewrite Nat.sub_0_r.
  rewrite (map_ext _ (fun lc => lc)) by (now intros [l c]).
  rewrite map_id. now destruct df.
Qed.

Lemma footer_scan_cut (df : frame) (a len : nat) :
  let cutoff := footer_scan df (rev (seq a len)) (a + len) in
  a <= cutoff <= a + len
  /\ (forall i, cutoff <= i < a + len -> is_footer (row df i) = true)
  /\ (cutoff = a \/ is_footer (row df (cutoff - 1)) = false).
Proof.
  induction len as [|len IH]; cbn zeta.
  - cbn [seq rev footer_scan]. split; [lia|]. split; [intros; lia | left; lia].
  - rewrite seq_S, rev_app_distr. cbn [rev app footer_scan].
    destruct (is_footer (row df (a + len))) eqn:E.
    + cbn zeta in IH. destruct IH as (H1 & H2 & H3).
      split; [lia|]. split; [|exact H3].
      intros i Hi. destruct (decide (i = a + len)) as [->|Hne]; [exact E|].
      apply H2. lia.
    + split; [lia|]. split; [intros; lia|].
      right. now replace (a + S len - 1) with (a + len) by lia.
Qed.

End Rows.

Lemma remove_top_empty_rows_cases (df : cleaner.frame) :
  (cleaner.remove_top_empty_rows df = df /\ cleaner.empty df = true)
  \/ cleaner.remove_top_empty_rows df = cleaner.Frame 0 []
  \/ exists idx,
       cleaner.remove_top_empty_rows df = cleaner.rows_from df idx
       /\ idx < cleaner.nrows df
       /\ cleaner.empty df = false
       /\ cleaner.has_data (cleaner.row df idx) = true
       /\ forall i, i < idx -> cleaner.has_data (cleaner.row df i) = false.
Proof.
  unfold cleaner.remove_top_empty_rows.
  destruct (cleaner.empty df) eqn:Ee; [now left|].
  destruct (find _ (seq 0 (cleaner.nrows df))) as [idx|] eqn:Ef;
    [|now right; left].
  apply find_seq_first in Ef as (Hidx & Hd & Hbefore).
  right; right. exists idx. split; [reflexivity|]. split; [lia|].
  split; [reflexivity|]. split; [exact Hd|].
  intros i Hi. apply Hbefore. lia.
Qed.

(** What [remove_top_empty_rows] returns is a frame without rows or
    columns, or the frame from its first row with a value on: the rows
    before it have none, and the first row of the result has one.
    Applied to its result, the function changes nothing. *)
Theorem remove_top_empty_rows_first (df : cleaner.frame) :
  let r := cleaner.remove_top_empty_rows df in
  (cleaner.empty r = true
   \/ exists idx,
        r = cleaner.rows_from df idx
        /\ (forall i, i < idx -> cleaner.has_data (cleaner.row df i) = false)
        /\ cleaner.has_data (cleaner.row r 0) = true)
  /\ cleaner.remove_top_empty_rows r = r.
Proof.
  cbn zeta.
  destruct (remove_top_empty_rows_cases df)
    as [[H He] | [H | (idx & H & Hidx & He & Hd & Hbefore)]]; rewrite !H.
  - split; [now left | reflexivity].
  - split; [now left | reflexivity].
  - assert (H0 : cleaner.has_data (cleaner.row (cleaner.rows_from df idx) 0) = true)
      by (now rewrite row_rows_from, Nat.add_0_r).
    split; [right; exists idx; now repeat split|].
    unfold cleaner.remove_top_empty_rows.
    assert (Hne : cleaner.empty (cleaner.rows_from df idx) = false).
    { unfold cleaner.empty in *. cbn [cleaner.rows_from cleaner.nrows cleaner.cols].
      rewrite length_map. apply orb_false_iff in He as [_ ->].
      rewrite orb_false_r. apply Nat.eqb_neq. lia. }
    rewrite Hne.
    destruct (cleaner.nrows (cleaner.rows_from df idx)) as [|m] eqn:En.
    { cbn [cleaner.rows_from cleaner.nrows] in En. lia. }
    cbn [seq find]. rewrite H0. apply rows_from_0.
Qed.

(** On a frame of three rows or more, [remove_footer_rows] cuts the
    frame before a row [cutoff]: the rows from [cutoff] on are footer
    rows, at most 15 of them and never the first row of the frame, the
    rows before [cutoff] stay as they are, and the cut stops at the
    first row from the bottom that is not a footer row. *)
Theorem remove_footer_rows_cut (df : cleaner.frame) :
  cleaner.empty df = false ->
  3 <= cleaner.nrows df ->
  exists cutoff,
    cleaner.remove_footer_rows df = cleaner.rows_to df cutoff
    /\ 1 <= cutoff <= cleaner.nrows df
    /\ cleaner.nrows df <= cutoff + 15
    /\ (forall i, cutoff <= i < cleaner.nrows df ->
                  cleaner.is_footer (cleaner.row df i) = true)
    /\ (forall i, i < cutoff ->
                  cleaner.row (cleaner.remove_footer_rows df) i = cleaner.row df i)
    /\ (cutoff = 1 \/ cleaner.nrows df = cutoff + 15
        \/ cleaner.is_footer (cleaner.row df (cutoff - 1)) = false).
Proof.
  intros Hne Hn. unfold cleaner.remove_footer_rows. rewrite Hne.
  destruct (Nat.ltb_spec (cleaner.nrows df) 3) as [|_]; [lia|]. cbn [orb].
  unfold cleaner.footer_range. cbn zeta.
  set (n := cleaner.nrows df) in *.
  set (a := S (n - Nat.min 15 n - 1)).
  replace (n - 1 - (n - Nat.min 15 n - 1)) with (n - a) by lia.
  pose proof (footer_scan_cut df a (n - a)) as Hcut. cbn zeta in Hcut.
  replace (a + (n - a)) with n in Hcut by lia.
  destruct Hcut as (H1 & H2 & H3).
  eexists. split; [reflexivity|].
  split; [lia|]. split; [lia|]. split; [exact H2|].
  split; [intros i Hi; now apply row_rows_to|].
  destruct H3 as [H3|H3]; [|now right; right].
  destruct (Nat.le_gt_cases n 15); [left | right; left]; lia.
Qed.

Lemma remove_footer_rows_cut_witness :
  exists cutoff,
    cleaner.remove_footer_rows
      (cleaner.Frame 4 [(0, [CStr "a"; CStr "b"; CStr "Obs: x"; CStr "* y"]);
                        (1, [CInt 1; CInt 2; CNone; CNone])])
    = cleaner.rows_to
        (cleaner.Frame 4 [(0, [CStr "a"; CStr "b"; CStr "Obs: x"; CStr "* y"]);
                          (1, [CInt 1; CInt 2; CNone; CNone])]) cutoff
    /\ 1 <= cutoff <= 4
    /\ 4 <= cutoff + 15
    /\ (forall i, cutoff <= i < 4 ->
          cleaner.is_footer
            (cleaner.row
               (cleaner.Frame 4 [(0, [CStr "a"; CStr "b"; CStr "Obs: x"; CStr "* y"]);
                                 (1, [CInt 1; CInt 2; CNone; CNone])]) i) = true)
    /\ (forall i, i < cutoff ->
          cleaner.row
            (cleaner.remove_footer_rows
               (cleaner.Frame 4 [(0, [CStr "a"; CStr "b"; CStr "Obs: x"; CStr "* y"]);
                                 (1, [CInt 1; CInt 2; CNone; CNone])])) i
          = cleaner.row
              (cleaner.Frame 4 [(0, [CStr "a"; CStr "b"; CStr "Obs: x"; CStr "* y"]);
                                (1, [CInt 1; CInt 2; CNone; CNone])]) i)
    /\ (cutoff = 1 \/ 4 = cutoff + 15
        \/ cleaner.is_footer
             (cleaner.row
                (cleaner.Frame 4 [(0, [CStr "a"; CStr "b"; CStr "Obs: x"; CStr "* y"]);
                                  (1, [CInt 1; CInt 2; CNone; CNone])]) (cutoff - 1))
           = false).
Proof.
  apply (remove_footer_rows_cut
           (cleaner.Frame 4 [(0, [CStr "a"; CStr "b"; CStr "Obs: x"; CStr "* y"]);
                             (1, [CInt 1; CInt 2; CNone; CNone])])).
  - reflexivity.
  - simpl. lia.
Defined.

Section ColumnsAgain.

Import cleaner.

Lemma remove_empty_columns_cases (df : frame) :
  well_formed df ->
  remove_empty_columns df = df
  \/ (remove_empty_columns df = Frame (nrows df) (filter (populated df) (cols df))
      /\ 0 < nrows df).
Proof.
  intros [Hnd Hlen]. unfold remove_empty_columns, empty.
  destruct (Nat.eqb_spec (nrows df) 0) as [H0|H0]; [now left|].
  destruct (Nat.eqb_spec (length (cols df)) 0) as [Hc|Hc]; [now left|].
  cbn [orb].
  pose proof (select_filter df (cols df) Hnd ltac:(lia) ltac:(reflexivity)) as Hsel.
  destruct (filter _ (map fst (cols df))) as [|col keep]; [now left|].
  right. split; [|lia]. unfold select. now rewrite Hsel.
Qed.

Lemma filter_all {A} (P : A -> Prop) `{!forall x, Decision (P x)} (l : list A) :
  Forall P l -> filter P l = l.
Proof.
  induction 1 as [|x l Hx _ IH]; [reflexivity|].
  rewrite filter_cons, decide_True by exact Hx. now rewrite IH.
Qed.

End ColumnsAgain.

(** [remove_empty_columns] applied to its result changes nothing: the
    columns it kept are kept again. *)
Theorem remove_empty_columns_idempotent (df : cleaner.frame) :
  well_formed df ->
  cleaner.remove_empty_columns (cleaner.remove_empty_columns df)
  = cleaner.remove_empty_columns df.
Proof.
  intros Hwf.
  destruct (remove_empty_columns_cases df Hwf) as [H | [H Hn]]; rewrite H; [exact H|].
  set (r := cleaner.Frame _ _).
  assert (Hwf' : well_formed r).
  { destruct Hwf as [Hnd Hlen]. split; cbn [r cleaner.cols cleaner.nrows].
    - eapply sublist_NoDup; [exact Hnd|]. apply fmap_sublist, sublist_filter.
    - apply Forall_forall. intros lc [_ Hin]%list_elem_of_filter.
      rewrite Forall_forall in Hlen. now apply Hlen. }
  destruct (remove_empty_columns_cases r Hwf') as [H' | [H' _]]; [exact H'|].
  rewrite H'. unfold r at 3. cbn [r cleaner.nrows cleaner.cols]. f_equal.
  apply filter_all. apply Forall_forall.
  intros lc [Hp _]%list_elem_of_filter. exact Hp.
Qed.

Lemma remove_empty_columns_idempotent_witness :
  cleaner.remove_empty_columns (cleaner.remove_empty_columns padded_frame)
  = cleaner.remove_empty_columns padded_frame.
Proof.
  apply (remove_empty_columns_idempotent padded_frame). split.
  - apply (bool_decide_unpack _). vm_compute. exact I.
  - repeat constructor.
Defined.
